(** * A shallow embedding of the thor-os FAT32 driver (kernel/src/fat32.cpp)

    The driver is modelled function by function.  Machine integers are [Z]
    with their wrap-around written out, sectors and packed structures are
    lists of bytes read through little-endian accessors at the offsets of
    the packed structs, the process-wide cache is a record of globals and
    the block device is a finite map from LBA to sector.  Every driver
    function runs in a small state monad over (globals, world) whose
    results can also be a crash (a null dereference or an access outside an
    array) or the exhaustion of the loop budget. *)

From Stdlib Require Import ZArith List Lia Bool.
From stdpp Require Import base option list gmap.

Open Scope Z_scope.

(** ** Machine integers *)

Definition u8 (x : Z) : Z := x mod 2 ^ 8.
Definition u16 (x : Z) : Z := x mod 2 ^ 16.
Definition u32 (x : Z) : Z := x mod 2 ^ 32.
Definition u64 (x : Z) : Z := x mod 2 ^ 64.

(** The value of a byte read through a [signed char] lvalue. *)
Definition s8 (b : Z) : Z := if 128 <=? u8 b then u8 b - 256 else u8 b.

(** ** What the translation unit leaves to the platform

    The source uses plain [char] for directory names and for the checksum
    accumulator, reads a stack array ([long_name_buffer]) that it never
    initialises, and writes a heap array ([new_directory_cluster]) to disk
    without initialising all of it.  Whether plain [char] is signed and
    what such memory holds are not fixed by the source, so they are
    parameters of the model.  On the x86-64 System V ABI, the target of
    this kernel, plain [char] is signed. *)
Record platform := {
  char_signed : bool;
  stack_junk : nat -> Z;
  heap_junk : nat -> Z
}.

(** The value of a plain [char] object whose stored byte is [b]. *)
Definition char_val (pf : platform) (b : Z) : Z :=
  if char_signed pf then s8 b else u8 b.

(** ** Bytes in memory: packed little-endian fields *)

Definition fld_u8 (buf : list Z) (off : nat) : Z := default 0 (buf !! off).

Definition fld_u16 (buf : list Z) (off : nat) : Z :=
  fld_u8 buf off + 2 ^ 8 * fld_u8 buf (S off).

Definition fld_u32 (buf : list Z) (off : nat) : Z :=
  fld_u16 buf off + 2 ^ 16 * fld_u16 buf (S (S off)).

Definition set_u8 (buf : list Z) (off : nat) (v : Z) : list Z :=
  <[off := u8 v]> buf.

Definition set_u16 (buf : list Z) (off : nat) (v : Z) : list Z :=
  set_u8 (set_u8 buf off v) (S off) (u16 v / 2 ^ 8).

Definition set_u32 (buf : list Z) (off : nat) (v : Z) : list Z :=
  set_u16 (set_u16 buf off v) (S (S off)) (u32 v / 2 ^ 16).

(** *** struct fat_bs_t (packed, 512 bytes) *)
Definition bs_sectors_per_cluster (bs : list Z) : Z := fld_u8 bs 13.
Definition bs_reserved_sectors (bs : list Z) : Z := fld_u16 bs 14.
Definition bs_number_of_fat (bs : list Z) : Z := fld_u8 bs 16.
Definition bs_sectors_per_fat (bs : list Z) : Z := fld_u16 bs 22.
Definition bs_sectors_per_fat_long (bs : list Z) : Z := fld_u32 bs 36.
Definition bs_root_directory_cluster_start (bs : list Z) : Z := fld_u32 bs 44.
Definition bs_fs_information_sector (bs : list Z) : Z := fld_u16 bs 48.

(** *** struct fat_is_t (packed, 512 bytes) *)
Definition is_free_clusters (fi : list Z) : Z := fld_u32 fi 488.
Definition set_is_free_clusters (fi : list Z) (v : Z) : list Z := set_u32 fi 488 v.

(** *** struct cluster_entry and struct long_entry (packed, 32 bytes each,
    one overlaid on the other by [reinterpret_cast]) *)
Definition ce_name (e : list Z) (s : nat) : Z := fld_u8 e s.
Definition ce_attrib (e : list Z) : Z := fld_u8 e 11.
Definition ce_cluster_high (e : list Z) : Z := fld_u16 e 20.
Definition ce_cluster_low (e : list Z) : Z := fld_u16 e 26.
Definition ce_file_size (e : list Z) : Z := fld_u32 e 28.

Definition le_sequence_number (e : list Z) : Z := fld_u8 e 0.
Definition le_name_first (e : list Z) (j : nat) : Z := fld_u16 e (1 + 2 * j).
Definition le_attrib (e : list Z) : Z := fld_u8 e 11.
Definition le_reserved (e : list Z) : Z := fld_u8 e 12.
Definition le_alias_checksum (e : list Z) : Z := fld_u8 e 13.
Definition le_name_second (e : list Z) (j : nat) : Z := fld_u16 e (14 + 2 * j).
Definition le_starting_cluster (e : list Z) : Z := fld_u16 e 26.
Definition le_name_third (e : list Z) (j : nat) : Z := fld_u16 e (28 + 2 * j).

(** A [unique_heap_array<cluster_entry>] of [n] entries filled from raw
    bytes: entry [k] is bytes [32k .. 32k+31]. *)
Fixpoint array_of_bytes (n : nat) (data : list Z) : list (list Z) :=
  match n with
  | O => []
  | S k => resize 32 0 data :: array_of_bytes k (drop 32 data)
  end.

Definition bytes_of_array (a : list (list Z)) : list Z := concat a.

(** ** The block device and the driver's globals *)

Record dd := { dd_uuid : Z }.
Record partition_descriptor := { p_uuid : Z; p_start : Z }.

Inductive io_event :=
| EvRead (disk lba count : Z)
| EvWrite (disk lba count : Z).

(** The machine: one sector store per disk identifier and the trace of the
    requests issued so far (most recent first). *)
Record world := {
  devices : gmap Z (gmap Z (list Z));
  io_log : list io_event
}.

Record globals := {
  cached_disk : Z;
  cached_partition : Z;
  partition_start : Z;
  fat_bs : option (list Z);
  fat_is : option (list Z)
}.

Definition initial_globals : globals :=
  {| cached_disk := u64 (-1); cached_partition := u64 (-1);
     partition_start := 0; fat_bs := None; fat_is := None |}.

Inductive fault := NullPointer | OutOfBounds.

Inductive outcome (A : Type) :=
| Done (a : A)
| Crash (f : fault)
| Timeout.
Arguments Done {A} a.
Arguments Crash {A} f.
Arguments Timeout {A}.

Definition state : Type := globals * world.
Definition M (A : Type) : Type := state -> outcome (A * state).

Definition ret {A} (a : A) : M A := fun s => Done (a, s).
Definition bind {A B} (m : M A) (k : A -> M B) : M B :=
  fun s => match m s with
           | Done (a, s') => k a s'
           | Crash f => Crash f
           | Timeout => Timeout
           end.
Definition crash {A} (f : fault) : M A := fun _ => Crash f.
Definition timeout {A} : M A := fun _ => Timeout.
Definition get_globals : M globals := fun s => Done (fst s, s).
Definition put_globals (g : globals) : M unit := fun s => Done (tt, (g, snd s)).
Definition lift {A} (o : outcome A) : M A :=
  fun s => match o with
           | Done a => Done (a, s)
           | Crash f => Crash f
           | Timeout => Timeout
           end.

Notation "x <- c1 ;; c2" := (bind c1 (fun x => c2))
  (at level 100, c1 at next level, right associativity).
Notation "c1 ;;; c2" := (bind c1 (fun _ => c2))
  (at level 100, right associativity).

(** Dereferencing the cached sectors: a null pointer is a crash. *)
Definition deref_bs : M (list Z) :=
  g <- get_globals ;;
  match fat_bs g with Some bs => ret bs | None => crash NullPointer end.

Definition deref_is : M (list Z) :=
  g <- get_globals ;;
  match fat_is g with Some fi => ret fi | None => crash NullPointer end.

Definition set_fat_bs (r : option (list Z)) : M unit :=
  g <- get_globals ;;
  put_globals {| cached_disk := cached_disk g; cached_partition := cached_partition g;
                 partition_start := partition_start g; fat_bs := r; fat_is := fat_is g |}.

Definition set_fat_is_ptr (r : option (list Z)) : M unit :=
  g <- get_globals ;;
  put_globals {| cached_disk := cached_disk g; cached_partition := cached_partition g;
                 partition_start := partition_start g; fat_bs := fat_bs g; fat_is := r |}.

(** A store through the non-null [fat_is] pointer. *)
Definition set_fat_is (fi : list Z) : M unit := set_fat_is_ptr (Some fi).

(** *** Sector transfers *)

Fixpoint read_run (dev : gmap Z (list Z)) (lba : Z) (count : nat) : option (list Z) :=
  match count with
  | O => Some []
  | S n =>
      match dev !! lba with
      | Some s =>
          match read_run dev (u64 (lba + 1)) n with
          | Some rest => Some (resize 512 0 s ++ rest)
          | None => None
          end
      | None => None
      end
  end.

Fixpoint write_run (dev : gmap Z (list Z)) (lba : Z) (count : nat) (data : list Z)
  : bool * gmap Z (list Z) :=
  match count with
  | O => (true, dev)
  | S n =>
      match dev !! lba with
      | Some _ => write_run (<[lba := resize 512 0 data]> dev) (u64 (lba + 1)) n (drop 512 data)
      | None => (false, dev)
      end
  end.

(** Modelled from the spec: [read_sectors] is an external collaborator
    (section 6.2): synchronous, 512-byte sectors, the buffer is valid only
    on success.  A request succeeds when the disk exists and holds every
    sector of the run. *)
Definition read_sectors (disk : dd) (lba count : Z) : M (option (list Z)) :=
  fun s =>
    let w := snd s in
    let w' := {| devices := devices w;
                 io_log := EvRead (dd_uuid disk) lba count :: io_log w |} in
    Done (match devices w !! dd_uuid disk with
          | Some dev => read_run dev lba (Z.to_nat count)
          | None => None
          end, (fst s, w')).

(** Modelled from the spec: [write_sectors] is an external collaborator
    (section 6.2).  Sectors written before a failing one stay written. *)
Definition write_sectors (disk : dd) (lba count : Z) (data : list Z) : M bool :=
  fun s =>
    let w := snd s in
    let log' := EvWrite (dd_uuid disk) lba count :: io_log w in
    match devices w !! dd_uuid disk with
    | Some dev =>
        let r := write_run dev lba (Z.to_nat count) data in
        Done (fst r, (fst s, {| devices := <[dd_uuid disk := snd r]> (devices w);
                                io_log := log' |}))
    | None => Done (false, (fst s, {| devices := devices w; io_log := log' |}))
    end.

(** ** Metadata cache *)

Definition cache_bs (disk : dd) (partition : partition_descriptor) : M unit :=
  r <- read_sectors disk (p_start partition) 1 ;;
  set_fat_bs r.

Definition cache_is (disk : dd) (partition : partition_descriptor) : M unit :=
  bs <- deref_bs ;;
  let fs_information_sector := u64 (p_start partition + bs_fs_information_sector bs) in
  r <- read_sectors disk fs_information_sector 1 ;;
  set_fat_is_ptr r.

Definition cache_disk_partition (disk : dd) (partition : partition_descriptor) : M bool :=
  g <- get_globals ;;
  (if negb (cached_disk g =? dd_uuid disk) || negb (cached_partition g =? p_uuid partition)
   then
     put_globals {| cached_disk := cached_disk g; cached_partition := cached_partition g;
                    partition_start := p_start partition;
                    fat_bs := fat_bs g; fat_is := fat_is g |} ;;;
     cache_bs disk partition ;;;
     cache_is disk partition ;;;
     g1 <- get_globals ;;
     put_globals {| cached_disk := dd_uuid disk; cached_partition := p_uuid partition;
                    partition_start := partition_start g1;
                    fat_bs := fat_bs g1; fat_is := fat_is g1 |}
   else ret tt) ;;;
  g2 <- get_globals ;;
  ret (match fat_bs g2, fat_is g2 with Some _, Some _ => true | _, _ => false end).

Definition write_is (disk : dd) (partition : partition_descriptor) : M bool :=
  bs <- deref_bs ;;
  let fs_information_sector := u64 (p_start partition + bs_fs_information_sector bs) in
  g <- get_globals ;;
  match fat_is g with
  | Some fi => write_sectors disk fs_information_sector 1 fi
  | None => crash NullPointer
  end.

Definition fat_begin_of (g : globals) (bs : list Z) : Z :=
  u64 (partition_start g + bs_reserved_sectors bs).

(** [cluster_lba] on given values of the globals it reads. *)
Definition cluster_lba_of (g : globals) (bs : list Z) (cluster : Z) : Z :=
  let fat_begin := fat_begin_of g bs in
  let cluster_begin := u64 (fat_begin + u32 (bs_number_of_fat bs * bs_sectors_per_fat_long bs)) in
  u64 (cluster_begin + u64 (cluster - 2) * bs_sectors_per_cluster bs).

Definition cluster_lba (cluster : Z) : M Z :=
  bs <- deref_bs ;;
  g <- get_globals ;;
  ret (cluster_lba_of g bs cluster).

(** ** FAT table access *)

(** [fat_table[k]] on the 128-entry [unique_heap_array<uint32_t>]. *)
Definition fat_table_get (tbl : list Z) (k : Z) : outcome Z :=
  if k <? 128 then Done (fld_u32 tbl (4 * Z.to_nat k)) else Crash OutOfBounds.

Definition fat_table_set (tbl : list Z) (k : Z) (v : Z) : outcome (list Z) :=
  if k <? 128 then Done (set_u32 tbl (4 * Z.to_nat k) v) else Crash OutOfBounds.

Definition read_fat_value (disk : dd) (cluster : Z) : M Z :=
  bs <- deref_bs ;;
  g <- get_globals ;;
  let fat_begin := fat_begin_of g bs in
  let fat_sector := u64 (fat_begin + (cluster * 4) / 512) in
  r <- read_sectors disk fat_sector 1 ;;
  match r with
  | Some fat_table =>
      let entry_offset := cluster mod 512 in
      v <- lift (fat_table_get fat_table entry_offset) ;;
      ret (Z.land v 0x0FFFFFFF)
  | None => ret 0
  end.

Definition write_fat_value (disk : dd) (cluster value : Z) : M bool :=
  bs <- deref_bs ;;
  g <- get_globals ;;
  let fat_begin := fat_begin_of g bs in
  let fat_sector := u64 (fat_begin + (cluster * 4) / 512) in
  r <- read_sectors disk fat_sector 1 ;;
  match r with
  | None => ret false
  | Some fat_table =>
      let entry_offset := cluster mod 512 in
      fat_table' <- lift (fat_table_set fat_table entry_offset value) ;;
      write_sectors disk fat_sector 1 fat_table'
  end.

Definition next_cluster (disk : dd) (cluster : Z) : M Z :=
  fat_value <- read_fat_value disk cluster ;;
  if 0x0FFFFFF8 <=? fat_value then ret 0 else ret fat_value.

Definition fat_size (bs : list Z) : Z :=
  u32 (bs_sectors_per_fat_long bs + bs_sectors_per_fat bs).

(** The inner loop of [find_free_cluster]: entries [i .. 127] of FAT
    sector number [j] of the scan. *)
Fixpoint scan_fat_sector (fat_table : list Z) (j : Z) (i : nat) (todo : nat) : option Z :=
  match todo with
  | O => None
  | S t =>
      if (j =? 0) && (Z.of_nat i <? 2) then scan_fat_sector fat_table j (S i) t
      else
        let value := Z.land (fld_u32 fat_table (4 * i)) 0x0FFFFFFF in
        if value =? 0 then Some (u32 (Z.of_nat i + j * 128))
        else scan_fat_sector fat_table j (S i) t
  end.

Fixpoint find_free_cluster_loop (disk : dd) (fat_begin spc : Z) (j : Z) (todo : nat) : M Z :=
  match todo with
  | O => ret 0
  | S t =>
      let fat_sector := u64 (fat_begin + j * spc) in
      r <- read_sectors disk fat_sector 1 ;;
      match r with
      | None => ret 0
      | Some fat_table =>
          match scan_fat_sector fat_table j 0 128 with
          | Some c => ret c
          | None => find_free_cluster_loop disk fat_begin spc (j + 1) t
          end
      end
  end.

Definition find_free_cluster (disk : dd) : M Z :=
  bs <- deref_bs ;;
  g <- get_globals ;;
  find_free_cluster_loop disk (fat_begin_of g bs) (bs_sectors_per_cluster bs) 0
    (Z.to_nat (fat_size bs)).

(** ** Directory entries *)

(** Modelled from the spec: [disks::file], the record exposed to callers
    (section 3.1); its declaration is not part of the translation unit.
    [location] holds the 32-bit pattern of [cluster_low + (cluster_high << 16)];
    every consumer in the driver narrows it to [uint32_t]. *)
Record file := {
  file_name : list Z;
  hidden : bool;
  system : bool;
  directory : bool;
  size : Z;
  location : Z
}.

(** Modelled from the spec: equality of two [std::string] names (same
    length, same bytes). *)
Fixpoint bytes_eqb (a b : list Z) : bool :=
  match a, b with
  | [], [] => true
  | x :: a', y :: b' => (x =? y) && bytes_eqb a' b'
  | _, _ => false
  end.

(** [std::str_len] on a [c_str()]: the bytes before the first NUL. *)
Fixpoint c_strlen (name : list Z) : nat :=
  match name with
  | [] => O
  | b :: r => if b =? 0 then O else S (c_strlen r)
  end.

Definition str_len (name : list Z) : Z := Z.of_nat (c_strlen name).

(** [name[i]] on a [c_str()]: the bytes of the string, then the NUL. *)
Definition c_char (name : list Z) (i : nat) : Z := default 0 (name !! i).

Definition end_of_directory (entry : list Z) : bool := ce_name entry 0 =? 0.

Definition is_long_name (entry : list Z) : bool := ce_attrib entry =? 0x0F.

Definition number_of_entries (name : list Z) : Z :=
  u64 (u64 (Z.of_nat (length name) - 1) / 11 + 2).

Definition set_name0 (i : nat) (v : Z) (cluster : list (list Z)) : list (list Z) :=
  alter (fun e => set_u8 e 0 v) i cluster.

Fixpoint first_end_of_directory (cluster : list (list Z)) (i : nat) : option nat :=
  match cluster with
  | [] => None
  | entry :: rest =>
      if end_of_directory entry then Some i else first_end_of_directory rest (S i)
  end.

(** One code unit of a long entry in the decoder of [files]. *)
Definition decode_unit (u : Z) (st : bool * Z * list Z) : outcome (bool * Z * list Z) :=
  let '(ended, l, buffer) := st in
  if ended then Done st
  else if (u =? 0) || (u =? 0xFF) then Done (true, l, buffer)
  else if l <? 256 then Done (false, u64 (l + 1), <[Z.to_nat l := u8 u]> buffer)
  else Crash OutOfBounds.

Fixpoint decode_units (us : list Z) (st : bool * Z * list Z) : outcome (bool * Z * list Z) :=
  match us with
  | [] => Done st
  | u :: rest =>
      match decode_unit u st with
      | Done st' => decode_units rest st'
      | Crash f => Crash f
      | Timeout => Timeout
      end
  end.

Record scan_state := {
  sc_files : list file;
  sc_long_name : bool;
  sc_buffer : list Z;
  sc_i : Z
}.

Definition decode_long_entry (l_entry : list Z) (st : scan_state) : outcome scan_state :=
  let l := u64 ((Z.land (le_sequence_number l_entry) (Z.lnot 0x40) - 1) * 13) in
  match decode_units (map (le_name_first l_entry) [0; 1; 2; 3; 4]%nat)
                     (false, l, sc_buffer st) with
  | Done st1 =>
      match decode_units (map (le_name_second l_entry) [0; 1; 2; 3; 4; 5]%nat) st1 with
      | Done st2 =>
          match decode_units (map (le_name_third l_entry) [0; 1]%nat) st2 with
          | Done (_, l', buffer') =>
              Done {| sc_files := sc_files st; sc_long_name := true;
                      sc_buffer := buffer';
                      sc_i := if sc_i st <? l' then l' else sc_i st |}
          | Crash f => Crash f
          | Timeout => Timeout
          end
      | Crash f => Crash f
      | Timeout => Timeout
      end
  | Crash f => Crash f
  | Timeout => Timeout
  end.

(** The 8+3 name of a short entry, cut at the first space. *)
Fixpoint short_name (entry : list Z) (s : nat) (todo : nat) : list Z :=
  match todo with
  | O => []
  | S t =>
      if ce_name entry s =? 32 then []
      else ce_name entry s :: short_name entry (S s) t
  end.

Definition file_of_entry (spc : Z) (name : list Z) (entry : list Z) : file :=
  let is_dir := negb (Z.land (ce_attrib entry) 0x10 =? 0) in
  {| file_name := name;
     hidden := negb (Z.land (ce_attrib entry) 0x1 =? 0);
     system := negb (Z.land (ce_attrib entry) 0x2 =? 0);
     directory := is_dir;
     size := if is_dir then spc * 512 else ce_file_size entry;
     location := u32 (ce_cluster_low entry + ce_cluster_high entry * 2 ^ 16) |}.

(** The SDE written by [init_entry]: name copied up to the NUL or eleven
    bytes, space padded, every other field zero but the starting cluster. *)
Fixpoint copy_name (name : list Z) (i todo : nat) (e : list Z) : nat * list Z :=
  match todo with
  | O => (i, e)
  | S t =>
      if c_char name i =? 0 then (i, e)
      else copy_name name (S i) t (set_u8 e i (c_char name i))
  end.

Fixpoint pad_name (i todo : nat) (e : list Z) : list Z :=
  match todo with
  | O => e
  | S t => pad_name (S i) t (set_u8 e i 32)
  end.

Definition init_short_fields (name : list Z) (cluster : Z) (e : list Z) : list Z :=
  let '(i, e1) := copy_name name 0 11 e in
  let e2 := pad_name i (11 - i) e1 in
  let e3 := set_u16 e2 14 0 in
  let e4 := set_u8 e3 13 0 in
  let e5 := set_u16 e4 16 0 in
  let e6 := set_u16 e5 18 0 in
  let e7 := set_u16 e6 24 0 in
  let e8 := set_u16 e7 22 0 in
  let e9 := set_u8 e8 12 0 in
  let e10 := set_u32 e9 28 0 in
  let e11 := set_u16 e10 26 (u16 cluster) in
  set_u16 e11 20 (u16 (cluster / 2 ^ 16)).

Fixpoint mark_unused (j todo : nat) (cluster : list (list Z)) : list (list Z) :=
  match todo with
  | O => cluster
  | S t => mark_unused (S j) t (set_name0 j 0xE5 cluster)
  end.

(** The inner loop of [read_file]: append bytes of the cluster while
    [read < file_size]. *)
Fixpoint copy_cluster (cluster : list Z) (file_size read : Z) (content : list Z)
  : Z * list Z :=
  match cluster with
  | [] => (read, content)
  | c :: rest =>
      if read <? file_size then copy_cluster rest file_size (read + 1) (content ++ [c])
      else (read, content)
  end.

Section Driver.

Variable pf : platform.

Definition entry_unused (entry : list Z) : bool :=
  char_val pf (ce_name entry 0) =? 0xE5.

Definition entry_used (entry : list Z) : bool :=
  negb (char_val pf (ce_name entry 0) =? 0xE5).

(** *** Listing *)

Definition junk_buffer : list Z := map (fun k => u8 (stack_junk pf k)) (seq 0 256).

Definition initial_scan : scan_state :=
  {| sc_files := []; sc_long_name := false; sc_buffer := junk_buffer; sc_i := 0 |}.

Definition scan_short_entry (spc : Z) (entry : list Z) (st : scan_state) : outcome scan_state :=
  if sc_long_name st then
    if sc_i st <=? 256 then
      Done {| sc_files := sc_files st ++
                [file_of_entry spc (take (Z.to_nat (sc_i st)) (sc_buffer st)) entry];
              sc_long_name := false; sc_buffer := sc_buffer st; sc_i := 0 |}
    else Crash OutOfBounds
  else
    Done {| sc_files := sc_files st ++ [file_of_entry spc (short_name entry 0 11) entry];
            sc_long_name := false; sc_buffer := sc_buffer st; sc_i := sc_i st |}.

Fixpoint scan_cluster (spc : Z) (cluster : list (list Z)) (st : scan_state)
  : outcome (scan_state * bool) :=
  match cluster with
  | [] => Done (st, false)
  | entry :: rest =>
      if end_of_directory entry then Done (st, true)
      else if entry_used entry then
        match (if is_long_name entry then decode_long_entry entry st
               else scan_short_entry spc entry st) with
        | Done st' => scan_cluster spc rest st'
        | Crash f => Crash f
        | Timeout => Timeout
        end
      else scan_cluster spc rest st
  end.

Fixpoint files_loop (fuel : nat) (disk : dd) (spc : Z) (cluster_number : Z) (st : scan_state)
  : M (list file) :=
  match fuel with
  | O => timeout
  | S f =>
      lba <- cluster_lba cluster_number ;;
      r <- read_sectors disk lba spc ;;
      match r with
      | None => ret (sc_files st)
      | Some data =>
          r2 <- lift (scan_cluster spc (array_of_bytes (Z.to_nat (16 * spc)) data) st) ;;
          if snd r2 then ret (sc_files (fst r2))
          else
            next <- next_cluster disk cluster_number ;;
            if next =? 0 then ret (sc_files (fst r2))
            else if next =? 0x0FFFFFF7 then ret (sc_files (fst r2))
            else files_loop f disk spc next (fst r2)
      end
  end.

Definition files (fuel : nat) (disk : dd) (cluster_number : Z) : M (list file) :=
  bs <- deref_bs ;;
  files_loop fuel disk (bs_sectors_per_cluster bs) cluster_number initial_scan.

(** *** Path resolution *)

Fixpoint find_cluster_number_loop (fuel : nat) (disk : dd) (cluster_number : Z)
    (path : list (list Z)) : M (bool * Z) :=
  match path with
  | [] => ret (false, 0)
  | p :: rest =>
      entries <- files fuel disk cluster_number ;;
      let last := match rest with [] => true | _ => false end in
      match find (fun f => (last || directory f) && bytes_eqb (file_name f) p) entries with
      | Some f =>
          if last then ret (true, u32 (location f))
          else find_cluster_number_loop fuel disk (u32 (location f)) rest
      | None => ret (false, 0)
      end
  end.

Definition find_cluster_number (fuel : nat) (disk : dd) (path : list (list Z)) : M (bool * Z) :=
  bs <- deref_bs ;;
  let cluster_number := bs_root_directory_cluster_start bs in
  match path with
  | [] => ret (true, cluster_number)
  | _ => find_cluster_number_loop fuel disk cluster_number path
  end.

Definition files_path (fuel : nat) (disk : dd) (path : list (list Z)) : M (list file) :=
  search <- find_cluster_number fuel disk path ;;
  if negb (fst search) then ret [] else files fuel disk (snd search).

(** *** Free-slot allocation *)

Fixpoint free_sequence (cluster : list (list Z)) (entries : Z) (i : nat) (sequence_size : Z)
  : Z * nat * nat :=
  match cluster with
  | [] => (sequence_size, O, O)
  | entry :: rest =>
      if end_of_directory entry || entry_unused entry then
        let sequence_size' := sequence_size + 1 in
        if sequence_size' =? entries
        then (sequence_size', (i - (Z.to_nat sequence_size' - 1))%nat, i)
        else free_sequence rest entries (S i) sequence_size'
      else free_sequence rest entries (S i) 0
  end.

Fixpoint scan_new_end (cluster : list (list Z)) (sequence_end : nat) (i : nat)
    (new_end : option nat) : option nat :=
  match i with
  | O => new_end
  | S i' =>
      if (i <=? sequence_end)%nat then new_end
      else
        match cluster !! i with
        | Some entry =>
            if end_of_directory entry || entry_unused entry
            then scan_new_end cluster sequence_end i' (Some i)
            else new_end
        | None => new_end
        end
  end.

(** [None] is the null pointer; [Some (k, c)] is [&directory_cluster[k]]
    together with the array as the call leaves it. *)
Definition find_free_entry (directory_cluster : list (list Z)) (entries : Z)
  : option (nat * list (list Z)) :=
  match first_end_of_directory directory_cluster 0 with
  | None => None
  | Some end_ =>
      let '(sequence_size, sequence_start, sequence_end) :=
        free_sequence directory_cluster entries 0 0 in
      if negb (sequence_size =? entries) then None
      else if (end_ <=? sequence_end)%nat then
        match scan_new_end directory_cluster sequence_end
                (length directory_cluster - 1) None with
        | None => None
        | Some new_end =>
            Some (sequence_start,
                  set_name0 new_end 0 (set_name0 end_ 0xE5 directory_cluster))
        end
      else Some (sequence_start, directory_cluster)
  end.

(** *** Entry initialisation *)

(** Conversion of an [int] to plain [char]. *)
Definition to_char (x : Z) : Z := char_val pf (u8 x).

Fixpoint alias_sum (name : list Z) (len : Z) (c : nat) (todo : nat) (sum : Z) : Z :=
  match todo with
  | O => sum
  | S t =>
      let v := if Z.of_nat c <? len then char_val pf (c_char name c) else 32 in
      alias_sum name len (S c) t
        (to_char ((if negb (Z.land sum 1 =? 0) then 0x80 else 0) + Z.shiftr sum 1 + v))
  end.

Fixpoint fill_units (name : list Z) (len : Z) (i : Z) (e : list Z) (off : nat) (todo : nat)
  : Z * list Z :=
  match todo with
  | O => (i, e)
  | S t =>
      if i <? len
      then fill_units name len (i + 1)
             (set_u16 e off (char_val pf (c_char name (Z.to_nat i)))) (S (S off)) t
      else fill_units name len i (set_u16 e off 0xFF) (S (S off)) t
  end.

Definition init_long_fields (name : list Z) (len sequences sequence i : Z) (e : list Z)
  : Z * list Z :=
  let e1 := set_u8 e 0 (if sequence =? sequences - 1
                        then Z.lor (sequence + 1) 0x40 else sequence + 1) in
  let e2 := set_u8 e1 11 0x0F in
  let e3 := set_u8 e2 12 0 in
  let e4 := set_u16 e3 26 0 in
  let e5 := set_u8 e4 13 (alias_sum name len 0 11 0) in
  let '(i1, e6) := fill_units name len i e5 1 5 in
  let '(i2, e7) := fill_units name len i1 e6 14 6 in
  fill_units name len i2 e7 28 2.

Fixpoint init_long_entries (name : list Z) (len sequences : Z) (fuel : nat)
    (sequence i : Z) (ptr : nat) (cluster : list (list Z))
  : outcome (nat * list (list Z)) :=
  if sequence <? sequences then
    match fuel with
    | O => Crash OutOfBounds
    | S f =>
        match cluster !! ptr with
        | None => Crash OutOfBounds
        | Some e =>
            let '(i', e') := init_long_fields name len sequences sequence i e in
            init_long_entries name len sequences f (sequence + 1) i' (S ptr)
              (<[ptr := e']> cluster)
        end
    end
  else Done (ptr, cluster).

(** [init_entry<Long>]: [entry_ptr = None] is the null pointer. *)
Definition init_entry (long : bool) (cluster_array : list (list Z)) (entry_ptr : option nat)
    (name : list Z) (cluster : Z) : outcome (nat * list (list Z)) :=
  match entry_ptr with
  | None => Crash NullPointer
  | Some ptr =>
      match (if long then
               let len := str_len name in
               let sequences := u64 (u64 (len - 1) / 11 + 1) in
               init_long_entries name len sequences (length cluster_array) 0 0 ptr cluster_array
             else Done (ptr, cluster_array)) with
      | Done (ptr', arr) =>
          match arr !! ptr' with
          | Some e => Done (ptr', <[ptr' := init_short_fields name cluster e]> arr)
          | None => Crash OutOfBounds
          end
      | Crash f => Crash f
      | Timeout => Timeout
      end
  end.

Definition init_directory_entry (long : bool) (cluster_array : list (list Z))
    (entry_ptr : option nat) (name : list Z) (cluster : Z) : outcome (list (list Z)) :=
  match init_entry long cluster_array entry_ptr name cluster with
  | Done (ptr, arr) => Done (alter (fun e => set_u8 e 11 (Z.shiftl 1 4)) ptr arr)
  | Crash f => Crash f
  | Timeout => Timeout
  end.

Definition init_file_entry (long : bool) (cluster_array : list (list Z))
    (entry_ptr : option nat) (name : list Z) (cluster : Z) : outcome (list (list Z)) :=
  match init_entry long cluster_array entry_ptr name cluster with
  | Done (ptr, arr) => Done (alter (fun e => set_u8 e 11 0) ptr arr)
  | Crash f => Crash f
  | Timeout => Timeout
  end.

End Driver.

(** ** High-level operations *)

Section Operations.

Variable pf : platform.

Definition free_size (disk : dd) (partition : partition_descriptor) : M Z :=
  ok <- cache_disk_partition disk partition ;;
  if negb ok then ret 0
  else
    fi <- deref_is ;;
    bs <- deref_bs ;;
    ret (u32 (u32 (is_free_clusters fi * bs_sectors_per_cluster bs) * 512)).

Definition ls (fuel : nat) (disk : dd) (partition : partition_descriptor)
    (path : list (list Z)) : M (list file) :=
  ok <- cache_disk_partition disk partition ;;
  if negb ok then ret [] else files_path pf fuel disk path.

Fixpoint read_file_loop (fuel : nat) (disk : dd) (file_size cluster_number read : Z)
    (content : list Z) : M (list Z) :=
  if read <? file_size then
    match fuel with
    | O => timeout
    | S f =>
        bs <- deref_bs ;;
        lba <- cluster_lba cluster_number ;;
        r <- read_sectors disk lba (bs_sectors_per_cluster bs) ;;
        match r with
        | None => ret content
        | Some cluster =>
            let '(read', content') := copy_cluster cluster file_size read content in
            if read' <? file_size then
              next <- next_cluster disk cluster_number ;;
              if next =? 0 then ret content'
              else if next =? 0x0FFFFFF7 then ret content'
              else read_file_loop f disk file_size next read' content'
            else ret content'
        end
    end
  else ret content.

(** Modelled from the spec: [std::string content(file_size + 1)] builds an
    empty string with that capacity (section 4.5: the bytes are copied into
    an output buffer); the constructor is not part of the translation unit. *)
Definition read_file (fuel : nat) (disk : dd) (partition : partition_descriptor)
    (path : list (list Z)) (name : list Z) : M (list Z) :=
  ok <- cache_disk_partition disk partition ;;
  if negb ok then ret []
  else
    all_files <- files_path pf fuel disk path ;;
    match find (fun f => bytes_eqb (file_name f) name) all_files with
    | None => ret []
    | Some f =>
        let file_size := size f in
        let cluster_number := u32 (location f) in
        if file_size =? 0 then ret []
        else read_file_loop fuel disk file_size cluster_number 0 []
    end.

(** A fresh [unique_heap_array<cluster_entry>] of [n] entries. *)
Definition fresh_array (n : nat) : list (list Z) :=
  array_of_bytes n (map (fun k => u8 (heap_junk pf k)) (seq 0 (32 * n))).

Definition mkdir (fuel : nat) (disk : dd) (partition : partition_descriptor)
    (path : list (list Z)) (name : list Z) : M bool :=
  ok <- cache_disk_partition disk partition ;;
  if negb ok then ret false
  else
    cluster_number <- find_cluster_number pf fuel disk path ;;
    if negb (fst cluster_number) then ret false
    else
      cluster <- find_free_cluster disk ;;
      if cluster =? 0 then ret false
      else
        bs <- deref_bs ;;
        let spc := bs_sectors_per_cluster bs in
        let n := Z.to_nat (16 * spc) in
        lba <- cluster_lba (snd cluster_number) ;;
        r <- read_sectors disk lba spc ;;
        match r with
        | None => ret false
        | Some data =>
            let directory_cluster := array_of_bytes n data in
            let entries := number_of_entries name in
            let found := find_free_entry pf directory_cluster entries in
            let new_directory_entry := fst <$> found in
            let directory_cluster1 := default directory_cluster (snd <$> found) in
            directory_cluster2 <-
              lift (init_directory_entry pf true directory_cluster1 new_directory_entry
                      name cluster) ;;
            lba2 <- cluster_lba (snd cluster_number) ;;
            ok1 <- write_sectors disk lba2 spc (bytes_of_array directory_cluster2) ;;
            if negb ok1 then ret false
            else
              ok2 <- write_fat_value disk cluster 0x0FFFFFF8 ;;
              if negb ok2 then ret false
              else
                fi <- deref_is ;;
                set_fat_is (set_is_free_clusters fi (is_free_clusters fi - 1)) ;;;
                ok3 <- write_is disk partition ;;
                if negb ok3 then ret false
                else
                  a1 <- lift (init_directory_entry pf false (fresh_array n) (Some 0%nat)
                                [46] cluster) ;;
                  a2 <- lift (init_directory_entry pf false a1 (Some 1%nat)
                                [46; 46] (snd cluster_number)) ;;
                  let a3 := mark_unused 2 (n - 3) a2 in
                  let a4 := set_name0 (n - 1) 0 a3 in
                  lba3 <- cluster_lba cluster ;;
                  write_sectors disk lba3 spc (bytes_of_array a4)
        end.

Definition touch (fuel : nat) (disk : dd) (partition : partition_descriptor)
    (path : list (list Z)) (name : list Z) : M bool :=
  ok <- cache_disk_partition disk partition ;;
  if negb ok then ret false
  else
    cluster_number <- find_cluster_number pf fuel disk path ;;
    if negb (fst cluster_number) then ret false
    else
      cluster <- find_free_cluster disk ;;
      if cluster =? 0 then ret false
      else
        bs <- deref_bs ;;
        let spc := bs_sectors_per_cluster bs in
        let n := Z.to_nat (16 * spc) in
        lba <- cluster_lba (snd cluster_number) ;;
        r <- read_sectors disk lba spc ;;
        match r with
        | None => ret false
        | Some data =>
            let directory_cluster := array_of_bytes n data in
            let entries := number_of_entries name in
            let found := find_free_entry pf directory_cluster entries in
            let new_directory_entry := fst <$> found in
            let directory_cluster1 := default directory_cluster (snd <$> found) in
            directory_cluster2 <-
              lift (init_file_entry pf true directory_cluster1 new_directory_entry
                      name cluster) ;;
            lba2 <- cluster_lba (snd cluster_number) ;;
            ok1 <- write_sectors disk lba2 spc (bytes_of_array directory_cluster2) ;;
            if negb ok1 then ret false
            else
              ok2 <- write_fat_value disk cluster 0x0FFFFFF8 ;;
              if negb ok2 then ret false
              else
                fi <- deref_is ;;
                set_fat_is (set_is_free_clusters fi (is_free_clusters fi - 1)) ;;;
                ok3 <- write_is disk partition ;;
                ret ok3
        end.

End Operations.

(** ** Observations on runs *)

(** The value a run returns, forgetting the final state. *)
Definition result_of {A} (o : outcome (A * state)) : outcome A :=
  match o with
  | Done (a, _) => Done a
  | Crash f => Crash f
  | Timeout => Timeout
  end.

(** The state a run ends in ([d] when it does not end). *)
Definition state_after {A} (o : outcome (A * state)) (d : state) : state :=
  match o with
  | Done (_, s) => s
  | _ => d
  end.

(** The number of slots of the array whose [name[0]] is 0x00. *)
Fixpoint count_end_markers (cluster : list (list Z)) : nat :=
  match cluster with
  | [] => O
  | entry :: rest =>
      if end_of_directory entry then S (count_end_markers rest) else count_end_markers rest
  end.

(** The thirteen UCS-2 code units of a long entry, in name order. *)
Definition lde_units (e : list Z) : list Z :=
  map (le_name_first e) [0; 1; 2; 3; 4]%nat ++
  map (le_name_second e) [0; 1; 2; 3; 4; 5]%nat ++
  map (le_name_third e) [0; 1]%nat.

(** ** The reference points of the specification *)

(** Section 4.2 of the specification: the FAT entry of cluster [c] lies in
    sector [fat_begin + (c * 4) / 512] at index [c % 128]. *)
Definition spec_fat_entry (dev : gmap Z (list Z)) (fat_begin c : Z) : option Z :=
  match dev !! (fat_begin + (c * 4) / 512) with
  | Some sector => Some (Z.land (fld_u32 sector (4 * Z.to_nat (c mod 128))) 0x0FFFFFFF)
  | None => None
  end.

(** Section 4.4 of the specification: the reference alias checksum, on an
    unsigned 8-bit accumulator. *)
Definition rotate_right_8 (sum : Z) : Z :=
  u8 ((if negb (Z.land sum 1 =? 0) then 0x80 else 0) + Z.shiftr sum 1).

Definition reference_checksum (short_name_field : list Z) : Z :=
  fold_left (fun sum byte => u8 (rotate_right_8 sum + byte)) short_name_field 0.


(** ** Test volumes *)

Definition zero_sector : list Z := repeat 0 512%nat.

Fixpoint device_of_sectors (lba : Z) (sectors : list (list Z)) : gmap Z (list Z) :=
  match sectors with
  | [] => ∅
  | s :: rest => <[lba := s]> (device_of_sectors (lba + 1) rest)
  end.

Definition mk_boot_sector (spc reserved nfat spf root fsi : Z) : list Z :=
  set_u16 (set_u32 (set_u32 (set_u8 (set_u16 (set_u8 (set_u16 zero_sector 11 512)
    13 spc) 14 reserved) 16 nfat) 36 spf) 44 root) 48 fsi.

Definition mk_fsi (free : Z) : list Z := set_u32 zero_sector 488 free.

Definition fat_sector_of (entries : list Z) : list Z :=
  concat (map (fun v => [u8 v; u8 (v / 2 ^ 8); u8 (v / 2 ^ 16); u8 (v / 2 ^ 24)]) entries).

(** The volume of the specification's scenarios (section 8): 512-byte
    sectors, 8 sectors per cluster, 32 reserved sectors, one FAT of 1024
    sectors, root directory in cluster 2; freshly formatted, with sixteen
    data clusters on the device. *)
Definition scenario_boot : list Z := mk_boot_sector 8 32 1 1024 2 1.

Definition scenario_fat0 : list Z :=
  fat_sector_of ([0x0FFFFFF8; 0x0FFFFFFF; 0x0FFFFFF8] ++ repeat 0 125%nat).

Definition scenario_sectors : list (list Z) :=
  [scenario_boot; mk_fsi 15] ++ repeat zero_sector 30%nat ++
  [scenario_fat0] ++ repeat zero_sector 1023%nat ++ repeat zero_sector 128%nat.

Definition scenario_device : gmap Z (list Z) := device_of_sectors 0 scenario_sectors.

Definition disk0 : dd := {| dd_uuid := 7 |}.
Definition part0 : partition_descriptor := {| p_uuid := 1; p_start := 0 |}.

Definition scenario_world : world :=
  {| devices := <[7 := scenario_device]> ∅; io_log := [] |}.

Definition scenario_state : state := (initial_globals, scenario_world).

(** A partition entry that points past the end of the same disk. *)
Definition part_beyond : partition_descriptor := {| p_uuid := 2; p_start := 5000 |}.

(** A disk that ends right after its boot sector. *)
Definition truncated_world : world :=
  {| devices := <[7 := device_of_sectors 0 [scenario_boot]]> ∅; io_log := [] |}.

(** The state of the driver once the scenario volume is cached. *)
Definition scenario_cached : state :=
  ({| cached_disk := 7; cached_partition := 1; partition_start := 0;
      fat_bs := Some scenario_boot; fat_is := Some (mk_fsi 15) |}, scenario_world).

(** A volume with two sectors per cluster whose first 128 clusters are all
    allocated: cluster 128 is free, cluster 133 is not, cluster 261 is. *)
Definition crowded_sectors : list (list Z) :=
  [mk_boot_sector 2 2 1 3 2 1; mk_fsi 2;
   fat_sector_of (repeat 0x0FFFFFF8 128%nat);
   fat_sector_of ([0] ++ repeat 0x0FFFFFF8 127%nat);
   fat_sector_of (repeat 0x0FFFFFF8 5%nat ++ [0] ++ repeat 0x0FFFFFF8 122%nat)] ++
  repeat zero_sector 16%nat.

Definition crowded_device : gmap Z (list Z) := device_of_sectors 0 crowded_sectors.

Definition crowded_world : world :=
  {| devices := <[7 := crowded_device]> ∅; io_log := [] |}.

(** The driver once that volume is cached. *)
Definition crowded_state : state :=
  state_after (cache_disk_partition disk0 part0 (initial_globals, crowded_world))
    (initial_globals, crowded_world).

(** A short entry in use: name "A", archive attribute. *)
Definition used_entry : list Z := [65] ++ repeat 32 10%nat ++ [0x20] ++ repeat 0 20%nat.

Definition zero_entry : list Z := repeat 0 32%nat.

(** The scenario volume with a root directory that has one slot left: 127
    entries in use, then the end-of-directory marker. *)
Definition full_root_sectors : list (list Z) :=
  [scenario_boot; mk_fsi 15] ++ repeat zero_sector 30%nat ++
  [scenario_fat0] ++ repeat zero_sector 1023%nat ++
  map (fun _ => concat (repeat used_entry 16%nat)) (seq 0 7) ++
  [concat (repeat used_entry 15%nat ++ [zero_entry])] ++
  repeat zero_sector 120%nat.

Definition full_root_state : state :=
  (initial_globals,
   {| devices := <[7 := device_of_sectors 0 full_root_sectors]> ∅; io_log := [] |}).

Definition name_docs : list Z := [100; 111; 99; 115].

(** "abcdefghijkl" *)
Definition name_twelve : list Z := [97; 98; 99; 100; 101; 102; 103; 104; 105; 106; 107; 108].

(** The platform of the kernel: x86-64, plain [char] signed. *)
Definition x86_64 : platform :=
  {| char_signed := true; stack_junk := fun _ => 0xCC; heap_junk := fun _ => 0xCC |}.

(** The same translation unit built with unsigned plain [char]. *)
Definition unsigned_char_build : platform :=
  {| char_signed := false; stack_junk := fun _ => 0xCC; heap_junk := fun _ => 0xCC |}.

(** What a disk holds at an LBA once a run is over. *)
Definition disk_sector (st : state) (uuid lba : Z) : list Z :=
  default [] (devices (snd st) !! uuid ≫= fun dev => dev !! lba).

(** Entry [k] of a directory sector. *)
Definition sector_entry (sector : list Z) (k : nat) : list Z :=
  take 32 (drop (32 * k) sector).

(** An operation followed by a listing, both results kept. *)
Definition mkdir_then_ls (pf : platform) (fuel : nat) (disk : dd)
    (partition : partition_descriptor) (path : list (list Z)) (name : list Z)
  : M (bool * list file) :=
  ok <- mkdir pf fuel disk partition path name ;;
  l <- ls pf fuel disk partition (path ++ [name]) ;;
  ret (ok, l).


(** ** Predicates used in the statements *)

(** A well-formed array of directory entries: 32 bytes each. *)
Definition entry_array (cluster : list (list Z)) : Prop :=
  Forall (fun e => length e = 32%nat) cluster.

(** Code unit [j] (0..12) of a long entry. *)
Definition lde_unit (e : list Z) (j : nat) : Z := default 0 (lde_units e !! j).

(** Code unit number [idx] of a name as [init_entry] stores it. *)
Definition name_unit (pf : platform) (name : list Z) (len idx : Z) : Z :=
  if idx <? len then u16 (char_val pf (c_char name (Z.to_nat idx))) else 0xFF.

(** What one iteration of the loop of [init_entry] leaves in its slot. *)
Definition lde_fields (pf : platform) (name : list Z) (len sequences sequence : Z)
    (e : list Z) : Prop :=
  le_sequence_number e
  = u8 (if sequence =? sequences - 1 then Z.lor (sequence + 1) 0x40 else sequence + 1) /\
  le_attrib e = 0x0F /\
  le_reserved e = 0 /\
  le_starting_cluster e = 0 /\
  le_alias_checksum e = u8 (alias_sum pf name len 0 11 0) /\
  forall j, (j < 13)%nat -> lde_unit e j = name_unit pf name len (13 * sequence + Z.of_nat j).


(** The end-of-directory discipline as section 8 of the specification
    states it: after a successful [find_free_entry], exactly one slot has
    [name[0] == 0x00] and it lies at or after the allocated run. *)
Definition end_marker_discipline (pf : platform) (directory_cluster : list (list Z))
    (entries : Z) : Prop :=
  forall start cluster',
    find_free_entry pf directory_cluster entries = Some (start, cluster') ->
    count_end_markers cluster' = 1%nat /\
    forall i e, cluster' !! i = Some e -> end_of_directory e = true -> (start <= i)%nat.

(** The FAT sector that holds the entry of a cluster, as both
    [read_fat_value] and [write_fat_value] compute it. *)
Definition fat_sector_of_cluster (g : globals) (bs : list Z) (cluster : Z) : Z :=
  u64 (fat_begin_of g bs + (cluster * 4) / 512).

(** The machine after [write_fat_value] has rewritten one FAT sector. *)
Definition world_after_fat_write (w : world) (uuid lba : Z) (dev : gmap Z (list Z))
    (sector : list Z) : world :=
  {| devices := <[uuid := <[lba := sector]> dev]> (devices w);
     io_log := EvWrite uuid lba 1 :: EvRead uuid lba 1 :: io_log w |}.

(** The value [cache_disk_partition] returns: both cached sectors loaded. *)
Definition cache_ready (g : globals) : bool :=
  match fat_bs g, fat_is g with Some _, Some _ => true | _, _ => false end.

(** A computation that leaves the driver's globals as they were. *)
Definition keeps_globals {A} (m : M A) : Prop :=
  forall s a s', m s = Done (a, s') -> fst s' = fst s.

(** Records of directories carry the size of one cluster. *)
Definition dir_sized (spc : Z) (f : file) : Prop :=
  directory f = true -> size f = spc * 512.

(** ** More test data *)

(** The root directory cluster of the freshly formatted scenario volume. *)
Definition scenario_root : list (list Z) :=
  array_of_bytes 128 (concat (repeat zero_sector 8%nat)).

(** A slot marked unused. *)
Definition unused_entry : list Z := [0xE5] ++ repeat 0 31%nat.

(** A directory cluster laid out the way [mkdir] does it: two entries in
    use, the slots after them marked unused, the last one the end marker. *)
Definition dot_cluster : list (list Z) :=
  [used_entry; used_entry] ++ repeat unused_entry 13%nat ++ [zero_entry].

(** The globals after a load whose FS-information read failed. *)
Definition failed_globals : globals :=
  {| cached_disk := 7; cached_partition := 1; partition_start := 0;
     fat_bs := Some scenario_boot; fat_is := None |}.

Definition failed_world : world :=
  {| devices := devices truncated_world; io_log := [EvRead 7 1 1; EvRead 7 0 1] |}.

(** A small volume: one sector per cluster, two reserved sectors, one FAT
    sector, the root directory in cluster 2 with the single entry "DOCS",
    a directory whose cluster 3 holds 512 bytes of 0x5A. *)
Definition small_boot : list Z := mk_boot_sector 1 2 1 1 2 1.

Definition docs_entry : list Z :=
  [68; 79; 67; 83] ++ repeat 32 7%nat ++ [0x10] ++ repeat 0 8%nat ++ [0; 0] ++
  repeat 0 4%nat ++ [3; 0] ++ [0; 0; 0; 0].

Definition docs_cluster : list Z := repeat 0x5A 512%nat.

Definition small_sectors : list (list Z) :=
  [small_boot; mk_fsi 5;
   fat_sector_of ([0x0FFFFFF8; 0x0FFFFFFF; 0x0FFFFFF8; 0x0FFFFFF8] ++ repeat 0 124%nat);
   docs_entry ++ repeat 0 480%nat;
   docs_cluster] ++ repeat zero_sector 4%nat.

Definition small_state : state :=
  (initial_globals,
   {| devices := <[7 := device_of_sectors 0 small_sectors]> ∅; io_log := [] |}).

(** "DOCS" *)
Definition name_DOCS : list Z := [68; 79; 67; 83].

Definition small_cached : state :=
  state_after (cache_disk_partition disk0 part0 small_state) small_state.

Definition small_listed : state :=
  state_after (files_path x86_64 1 disk0 [] small_cached) small_cached.

Definition small_read : state :=
  state_after (read_sectors disk0 4 1 small_listed) small_listed.

Definition docs_record : file :=
  {| file_name := name_DOCS; hidden := false; system := false; directory := true;
     size := 512; location := 3 |}.

(** The small volume with every FAT entry allocated. *)
Definition exhausted_sectors : list (list Z) :=
  [small_boot; mk_fsi 0; fat_sector_of (repeat 0x0FFFFFF8 128%nat)] ++
  repeat zero_sector 6%nat.

Definition exhausted_state : state :=
  (initial_globals,
   {| devices := <[7 := device_of_sectors 0 exhausted_sectors]> ∅; io_log := [] |}).

(** No write request in a trace. *)
Definition no_writes (log : list io_event) : bool :=
  forallb (fun ev => match ev with EvWrite _ _ _ => false | EvRead _ _ _ => true end) log.

(** The eleven bytes [init_entry] feeds to the checksum: the name, cut or
    space padded. *)
Definition checksum_input (name : list Z) : list Z :=
  map (fun c => if Z.of_nat c <? str_len name then u8 (c_char name c) else 32) (seq 0 11).

(** ** Notions for the further properties *)

(** The FAT sector and the disk of the small volume. *)
Definition small_fat : list Z :=
  fat_sector_of ([0x0FFFFFF8; 0x0FFFFFFF; 0x0FFFFFF8; 0x0FFFFFF8] ++ repeat 0 124%nat).

Definition small_device : gmap Z (list Z) := device_of_sectors 0 small_sectors.

(** [s'] differs from [s] on the machine at most by read requests. *)
Definition only_reads (s s' : state) : Prop :=
  devices (snd s') = devices (snd s) /\
  exists evs, io_log (snd s') = evs ++ io_log (snd s) /\ no_writes evs = true.

(** A computation that requests reads only and leaves every disk alone. *)
Definition reads_only {A} (m : M A) : Prop :=
  forall s a s', m s = Done (a, s') -> only_reads s s'.

(** "NOPE" *)
Definition name_NOPE : list Z := [78; 79; 80; 69].

(** The first four slots of the scenario's root directory after
    [touch] of the twelve-byte name: two long entries, the short entry and
    the end marker. *)
Definition twelve_cluster : list (list Z) :=
  Eval vm_compute in
    take 4 (array_of_bytes 128
              (disk_sector (state_after (touch x86_64 4 disk0 part0 [] name_twelve
                                           scenario_state) scenario_state) 7 1056)).

(** The number a long entry's sequence byte stands for: bit 0x40 cleared. *)
Definition lde_ordinal (e : list Z) : Z := Z.land (le_sequence_number e) (Z.lnot 0x40).

(** The 28-bit value of entry [i] of a FAT sector held in memory. *)
Definition table_value (fat_table : list Z) (i : nat) : Z :=
  Z.land (fld_u32 fat_table (4 * i)) 0x0FFFFFFF.

(** The entry [find_free_cluster] looks at for cluster [c]: index
    [c % 128] of the sector at [fat_begin + (c / 128) * sectors_per_cluster]. *)
Definition scanned_fat_value (dev : gmap Z (list Z)) (fat_begin spc c : Z) : option Z :=
  match dev !! u64 (fat_begin + (c / 128) * spc) with
  | Some sector => Some (table_value (resize 512 0 sector) (Z.to_nat (c mod 128)))
  | None => None
  end.

(** Slot [i] of the array is free for [find_free_entry]: its [name[0]]
    is the end marker or is recognised as the unused mark. *)
Definition slot_free (pf : platform) (cluster : list (list Z)) (i : nat) : Prop :=
  exists e, cluster !! i = Some e /\ (end_of_directory e || entry_unused pf e) = true.

(** The number of long entries [init_entry] writes for a name. *)
Definition lde_count (name : list Z) : nat := ((length name - 1) / 11 + 1)%nat.

(** [init_file_entry] or [init_directory_entry], by the kind of the entry. *)
Definition init_kind_entry (pf : platform) (is_dir : bool) :=
  if is_dir then init_directory_entry pf else init_file_entry pf.

(** The record a listing holds for an entry made by [init_file_entry] or
    [init_directory_entry]. *)
Definition created_record (spc : Z) (is_dir : bool) (name : list Z) (cluster : Z) : file :=
  {| file_name := name; hidden := false; system := false; directory := is_dir;
     size := if is_dir then spc * 512 else 0; location := cluster |}.

Definition name_dot : list Z := [46].

(** The decoder of [files] after the code units before number [a]. *)
Definition decoded_to (name : list Z) (a : Z) (st : bool * Z * list Z) : Prop :=
  let '(ended, l, buffer) := st in
  length buffer = 256%nat /\
  ended = (Z.of_nat (length name) <? a) /\
  l = Z.min (Z.of_nat (length name)) a /\
  forall o, Z.of_nat o < Z.min (Z.of_nat (length name)) a -> buffer !! o = name !! o.

(** The scan state of [files] in front of long entry number [s] of a run. *)
Definition scan_at (name : list Z) (s : Z) (st0 st : scan_state) : Prop :=
  sc_files st = sc_files st0 /\
  length (sc_buffer st) = 256%nat /\
  sc_i st = Z.min (Z.of_nat (length name)) (13 * s) /\
  (0 < s -> sc_long_name st = true) /\
  forall o, Z.of_nat o < Z.min (Z.of_nat (length name)) (13 * s) ->
            sc_buffer st !! o = name !! o.

(** The write requests of a trace, newest first. *)
Fixpoint writes_of (log : list io_event) : list io_event :=
  match log with
  | [] => []
  | EvWrite d lba count :: rest => EvWrite d lba count :: writes_of rest
  | EvRead _ _ _ :: rest => writes_of rest
  end.

(** The globals once [touch] or [mkdir] has taken one cluster off the
    cached count of free clusters. *)
Definition globals_after_creation (g : globals) (fi : list Z) : globals :=
  {| cached_disk := cached_disk g; cached_partition := cached_partition g;
     partition_start := partition_start g; fat_bs := fat_bs g;
     fat_is := Some (set_is_free_clusters fi (is_free_clusters fi - 1)) |}.

(** The sector of a disk, if the disk has it. *)
Definition sector_on_disk (w : world) (uuid lba : Z) : option (list Z) :=
  devices w !! uuid ≫= fun dev => dev !! lba.

(** The globals after a load for a pair whose boot sector [bs] was read
    and whose FS-information read failed. *)
Definition globals_after_failed_load (disk : dd) (partition : partition_descriptor)
    (bs : list Z) : globals :=
  {| cached_disk := dd_uuid disk; cached_partition := p_uuid partition;
     partition_start := p_start partition; fat_bs := Some bs; fat_is := None |}.

(** The machine after the two read requests of such a load. *)
Definition world_after_failed_load (disk : dd) (partition : partition_descriptor)
    (bs : list Z) (w : world) : world :=
  {| devices := devices w;
     io_log := EvRead (dd_uuid disk) (u64 (p_start partition + bs_fs_information_sector bs)) 1
               :: EvRead (dd_uuid disk) (p_start partition) 1 :: io_log w |}.

(** A second partition entry of the same disk, with the same start. *)
Definition part_again : partition_descriptor := {| p_uuid := 2; p_start := 0 |}.

(** The driver with the small volume cached, in front of the disk that
    ends after its boot sector. *)
Definition stale_state : state := (fst small_cached, truncated_world).

(** A volume whose FS-information sector counts 0x900000 free clusters of
    one sector: 4.5 GiB, more than 32 bits hold. *)
Definition wide_state : state :=
  (initial_globals,
   {| devices := <[7 := device_of_sectors 0 [small_boot; mk_fsi 0x900000]]> ∅;
      io_log := [] |}).

(** A path walked from the directory in cluster [cn], starting in state
    [s]: every component is the name of an entry listed by [files] for
    the directory reached so far, in the state the walk has reached; the
    entries of all components but the last are directories; the cluster
    found is the 32-bit starting cluster of the entry of the last
    component, and [s'] is the state after the last listing. *)
Inductive walked (pf : platform) (fuel : nat) (disk : dd)
  : Z -> list (list Z) -> state -> Z -> state -> Prop :=
| walked_last cn p s l s1 f :
    files pf fuel disk cn s = Done (l, s1) ->
    In f l -> file_name f = p ->
    walked pf fuel disk cn [p] s (u32 (location f)) s1
| walked_step cn p q rest s l s1 f c s' :
    files pf fuel disk cn s = Done (l, s1) ->
    In f l -> file_name f = p -> directory f = true ->
    walked pf fuel disk (u32 (location f)) (q :: rest) s1 c s' ->
    walked pf fuel disk cn (p :: q :: rest) s c s'.

(** The sectors a transfer of [count] sectors from [lba] addresses. *)
Fixpoint run_lbas (lba : Z) (count : nat) : list Z :=
  match count with
  | O => []
  | S n => lba :: run_lbas (u64 (lba + 1)) n
  end.


(** * Properties *)

(** ** Reasoning about runs *)

Lemma bind_done {A B} (m : M A) (k : A -> M B) s b s' :
  bind m k s = Done (b, s') ->
  exists a s1, m s = Done (a, s1) /\ k a s1 = Done (b, s').
Proof.
  unfold bind. destruct (m s) as [[a s1]| |]; [|discriminate..].
  intros H. now exists a, s1.
Qed.

Lemma bind_run {A B} (m : M A) (k : A -> M B) s a s1 :
  m s = Done (a, s1) -> bind m k s = k a s1.
Proof. unfold bind. now intros ->. Qed.

Lemma keeps_ret {A} (a : A) : keeps_globals (ret a).
Proof. intros s a' s' [= _ <-]. reflexivity. Qed.

Lemma keeps_bind {A B} (m : M A) (k : A -> M B) :
  keeps_globals m -> (forall a, keeps_globals (k a)) -> keeps_globals (bind m k).
Proof.
  intros Hm Hk s b s' Hrun. destruct (bind_done _ _ _ _ _ Hrun) as (a & s1 & H1 & H2).
  rewrite (Hk _ _ _ _ H2). exact (Hm _ _ _ H1).
Qed.

Lemma keeps_lift {A} (o : outcome A) : keeps_globals (lift o).
Proof. intros s a s'. unfold lift. destruct o; [|discriminate..]. now intros [= _ <-]. Qed.

Lemma keeps_crash {A} f : keeps_globals (@crash A f).
Proof. intros s a s'. discriminate. Qed.

Lemma keeps_timeout {A} : keeps_globals (@timeout A).
Proof. intros s a s'. discriminate. Qed.

Lemma keeps_get_globals : keeps_globals get_globals.
Proof. intros s a s' [= _ <-]. reflexivity. Qed.

Lemma keeps_read_sectors disk lba count : keeps_globals (read_sectors disk lba count).
Proof. intros s a s' [= _ <-]. reflexivity. Qed.

Lemma keeps_deref_bs : keeps_globals deref_bs.
Proof.
  apply keeps_bind; [apply keeps_get_globals|].
  intros g. destruct (fat_bs g); [apply keeps_ret|apply keeps_crash].
Qed.

Lemma keeps_cluster_lba cluster : keeps_globals (cluster_lba cluster).
Proof.
  apply keeps_bind; [apply keeps_deref_bs|]. intros bs.
  apply keeps_bind; [apply keeps_get_globals|]. intros g. apply keeps_ret.
Qed.

Lemma keeps_read_fat_value disk cluster : keeps_globals (read_fat_value disk cluster).
Proof.
  apply keeps_bind; [apply keeps_deref_bs|]. intros bs.
  apply keeps_bind; [apply keeps_get_globals|]. intros g.
  apply keeps_bind; [apply keeps_read_sectors|]. intros [tbl|]; [|apply keeps_ret].
  apply keeps_bind; [apply keeps_lift|]. intros v. apply keeps_ret.
Qed.

Lemma keeps_next_cluster disk cluster : keeps_globals (next_cluster disk cluster).
Proof.
  apply keeps_bind; [apply keeps_read_fat_value|]. intros v.
  destruct (0x0FFFFFF8 <=? v); apply keeps_ret.
Qed.

Lemma keeps_files_loop pf disk spc fuel : forall cluster_number st,
  keeps_globals (files_loop pf fuel disk spc cluster_number st).
Proof.
  induction fuel as [|fuel IH]; intros cluster_number st; cbn [files_loop].
  - apply keeps_timeout.
  - apply keeps_bind; [apply keeps_cluster_lba|]. intros lba.
    apply keeps_bind; [apply keeps_read_sectors|]. intros [data|]; [|apply keeps_ret].
    apply keeps_bind; [apply keeps_lift|]. intros [st' ended]. cbn [fst snd].
    destruct ended; [apply keeps_ret|].
    apply keeps_bind; [apply keeps_next_cluster|]. intros next.
    destruct (next =? 0); [apply keeps_ret|].
    destruct (next =? 0x0FFFFFF7); [apply keeps_ret|apply IH].
Qed.

Lemma keeps_files pf fuel disk cluster_number :
  keeps_globals (files pf fuel disk cluster_number).
Proof.
  apply keeps_bind; [apply keeps_deref_bs|]. intros bs. apply keeps_files_loop.
Qed.

Lemma keeps_find_cluster_number_loop pf fuel disk path : forall cluster_number,
  keeps_globals (find_cluster_number_loop pf fuel disk cluster_number path).
Proof.
  induction path as [|p rest IH]; intros cluster_number; cbn [find_cluster_number_loop].
  - apply keeps_ret.
  - apply keeps_bind; [apply keeps_files|]. intros entries.
    destruct (find _ entries) as [f|]; [|apply keeps_ret].
    destruct rest; [apply keeps_ret|apply IH].
Qed.

Lemma keeps_find_cluster_number pf fuel disk path :
  keeps_globals (find_cluster_number pf fuel disk path).
Proof.
  apply keeps_bind; [apply keeps_deref_bs|]. intros bs.
  destruct path; [apply keeps_ret|apply keeps_find_cluster_number_loop].
Qed.

(** ** Bytes and fields *)

Lemma u16_split v : u8 v + 2 ^ 8 * u8 (u16 v / 2 ^ 8) = u16 v.
Proof.
  unfold u8, u16.
  change (2 ^ 16) with (2 ^ 8 * 2 ^ 8).
  rewrite Z.rem_mul_r by lia.
  rewrite (Z.mul_comm (2 ^ 8) ((v / 2 ^ 8) mod 2 ^ 8)), Z.div_add by lia.
  rewrite (Z.div_small (v mod 2 ^ 8)) by (apply Z.mod_pos_bound; lia).
  rewrite Z.add_0_l, Z.mod_mod by lia. lia.
Qed.

Lemma set_u8_length e off v : length (set_u8 e off v) = length e.
Proof. unfold set_u8. apply length_insert. Qed.

Lemma set_u16_length e off v : length (set_u16 e off v) = length e.
Proof. unfold set_u16. now rewrite !set_u8_length. Qed.

Lemma set_u8_lookup_ne e off v o : o <> off -> set_u8 e off v !! o = e !! o.
Proof. intros H. unfold set_u8. apply list_lookup_insert_ne. congruence. Qed.

Lemma set_u16_lookup_ne e off v o :
  o <> off -> o <> S off -> set_u16 e off v !! o = e !! o.
Proof. intros H1 H2. unfold set_u16. now rewrite !set_u8_lookup_ne. Qed.

Lemma fld_u8_ext e e' o : e' !! o = e !! o -> fld_u8 e' o = fld_u8 e o.
Proof. unfold fld_u8. now intros ->. Qed.

Lemma fld_u16_ext e e' o :
  e' !! o = e !! o -> e' !! S o = e !! S o -> fld_u16 e' o = fld_u16 e o.
Proof. unfold fld_u16. intros H1 H2. now rewrite (fld_u8_ext _ _ _ H1), (fld_u8_ext _ _ _ H2). Qed.

Lemma fld_u8_set_u8 e off v : (off < length e)%nat -> fld_u8 (set_u8 e off v) off = u8 v.
Proof. intros H. unfold fld_u8, set_u8. now rewrite list_lookup_insert_eq. Qed.

Lemma fld_u16_set_u16 e off v :
  (S off < length e)%nat -> fld_u16 (set_u16 e off v) off = u16 v.
Proof.
  intros H. unfold fld_u16, set_u16.
  rewrite (fld_u8_ext (set_u8 e off v) (set_u8 _ (S off) _) off)
    by (apply set_u8_lookup_ne; lia).
  rewrite fld_u8_set_u8 by lia.
  rewrite fld_u8_set_u8 by (rewrite set_u8_length; lia).
  apply u16_split.
Qed.

Lemma fld_u8_set_u8_ne e off v o : o <> off -> fld_u8 (set_u8 e off v) o = fld_u8 e o.
Proof. intros H. apply fld_u8_ext, set_u8_lookup_ne, H. Qed.

Lemma fld_u8_set_u16_ne e off v o :
  o <> off -> o <> S off -> fld_u8 (set_u16 e off v) o = fld_u8 e o.
Proof. intros H1 H2. now apply fld_u8_ext, set_u16_lookup_ne. Qed.

Lemma fld_u16_set_u8_ne e off v o :
  o <> off -> S o <> off -> fld_u16 (set_u8 e off v) o = fld_u16 e o.
Proof. intros H1 H2. apply fld_u16_ext; apply set_u8_lookup_ne; lia. Qed.

Lemma u32_split v : u16 v + 2 ^ 16 * u16 (u32 v / 2 ^ 16) = u32 v.
Proof.
  unfold u16, u32.
  change (2 ^ 32) with (2 ^ 16 * 2 ^ 16).
  rewrite Z.rem_mul_r by lia.
  rewrite (Z.mul_comm (2 ^ 16) ((v / 2 ^ 16) mod 2 ^ 16)), Z.div_add by lia.
  rewrite (Z.div_small (v mod 2 ^ 16)) by (apply Z.mod_pos_bound; lia).
  rewrite Z.add_0_l, Z.mod_mod by lia. lia.
Qed.

Lemma fld_u16_set_u16_ne e off v o :
  o <> off -> o <> S off -> S o <> off -> fld_u16 (set_u16 e off v) o = fld_u16 e o.
Proof. intros H1 H2 H3. apply fld_u16_ext; apply set_u16_lookup_ne; lia. Qed.

Lemma set_u32_length e off v : length (set_u32 e off v) = length e.
Proof. unfold set_u32. now rewrite !set_u16_length. Qed.

Lemma fld_u32_set_u32 e off v :
  (off + 3 < length e)%nat -> fld_u32 (set_u32 e off v) off = u32 v.
Proof.
  intros H. unfold fld_u32, set_u32.
  rewrite fld_u16_set_u16_ne by lia.
  rewrite fld_u16_set_u16 by lia.
  rewrite fld_u16_set_u16 by (rewrite set_u16_length; lia).
  apply u32_split.
Qed.

Lemma fld_u32_set_u32_ne e off v o :
  (o + 3 < off \/ off + 3 < o)%nat -> fld_u32 (set_u32 e off v) o = fld_u32 e o.
Proof.
  intros H. unfold fld_u32, set_u32.
  rewrite !fld_u16_set_u16_ne by lia. reflexivity.
Qed.

Lemma land_u32_mask v : Z.land (u32 v) 0x0FFFFFFF = Z.land v 0x0FFFFFFF.
Proof.
  change 0x0FFFFFFF with (Z.ones 28). rewrite !Z.land_ones by lia.
  unfold u32. apply Z.mod_mod_divide. exists (2 ^ 4). reflexivity.
Qed.

(** ** FAT table access (C1, C3) *)

(** C1 (code defect).  The claim addresses the FAT entry of cluster [c] at
    index [c % 128] of sector [fat_begin + (c * 4) / 512].  The code uses
    [cluster % 512] as the index into its 128-entry table: on the scenario
    volume, cluster 128 belongs to index 0 of the second FAT sector, where
    a free entry is stored, yet both [write_fat_value] and [read_fat_value]
    index entry 128 of the table, outside the array, so no value is
    written and none is read back. *)
Theorem fat_value_cluster_128_out_of_bounds :
  spec_fat_entry scenario_device 32 128 = Some 0 /\
  (forall v, write_fat_value disk0 128 v scenario_cached = Crash OutOfBounds) /\
  read_fat_value disk0 128 scenario_cached = Crash OutOfBounds.
Proof.
  split; [vm_compute; reflexivity|].
  split; [intros v|]; vm_compute; reflexivity.
Qed.

(** The cached state used above is the one a load leaves. *)
Lemma scenario_cached_is_loaded :
  fst (state_after (cache_disk_partition disk0 part0 scenario_state) scenario_state)
  = fst scenario_cached /\
  devices (snd (state_after (cache_disk_partition disk0 part0 scenario_state) scenario_state))
  = devices (snd scenario_cached).
Proof.
  split; vm_compute; reflexivity.
Qed.

Lemma read_sectors_one disk lba g w dev sector :
  devices w !! dd_uuid disk = Some dev -> dev !! lba = Some sector ->
  read_sectors disk lba 1 (g, w)
  = Done (Some (resize 512 0 sector),
          (g, {| devices := devices w; io_log := EvRead (dd_uuid disk) lba 1 :: io_log w |})).
Proof.
  intros Hdev Hsec. unfold read_sectors. cbn [fst snd]. rewrite Hdev.
  change (Z.to_nat 1) with 1%nat. cbn [read_run]. rewrite Hsec, app_nil_r. reflexivity.
Qed.

Lemma read_sectors_one_fail disk lba g w dev :
  devices w !! dd_uuid disk = Some dev -> dev !! lba = None ->
  read_sectors disk lba 1 (g, w)
  = Done (None, (g, {| devices := devices w; io_log := EvRead (dd_uuid disk) lba 1 :: io_log w |})).
Proof.
  intros Hdev Hsec. unfold read_sectors. cbn [fst snd]. rewrite Hdev.
  change (Z.to_nat 1) with 1%nat. cbn [read_run]. now rewrite Hsec.
Qed.

Lemma read_fat_value_in_range disk g w bs dev sector cluster :
  fat_bs g = Some bs -> devices w !! dd_uuid disk = Some dev ->
  dev !! fat_sector_of_cluster g bs cluster = Some sector ->
  cluster mod 512 < 128 ->
  result_of (read_fat_value disk cluster (g, w))
  = Done (Z.land (fld_u32 (resize 512 0 sector) (4 * Z.to_nat (cluster mod 512))) 0x0FFFFFFF).
Proof.
  intros Hbs Hdev Hsec Hidx. unfold read_fat_value, deref_bs, bind at 1 2, get_globals.
  cbn [fst snd]. rewrite Hbs. unfold ret at 1. unfold bind at 1. cbn [fst].
  fold (fat_sector_of_cluster g bs cluster).
  rewrite (bind_run _ _ _ _ _ (read_sectors_one _ _ _ _ _ _ Hdev Hsec)).
  unfold fat_table_get. apply Z.ltb_lt in Hidx. rewrite Hidx. reflexivity.
Qed.

Lemma read_fat_value_unreadable disk g w bs dev cluster :
  fat_bs g = Some bs -> devices w !! dd_uuid disk = Some dev ->
  dev !! fat_sector_of_cluster g bs cluster = None ->
  result_of (read_fat_value disk cluster (g, w)) = Done 0.
Proof.
  intros Hbs Hdev Hsec. unfold read_fat_value, deref_bs, bind at 1 2, get_globals.
  cbn [fst snd]. rewrite Hbs. unfold ret at 1. unfold bind at 1. cbn [fst].
  fold (fat_sector_of_cluster g bs cluster).
  unfold bind, read_sectors. cbn [fst snd]. rewrite Hdev.
  change (Z.to_nat 1) with 1%nat. cbn [read_run]. rewrite Hsec. reflexivity.
Qed.

Lemma write_fat_value_in_range disk g w bs dev sector cluster value :
  fat_bs g = Some bs -> devices w !! dd_uuid disk = Some dev ->
  dev !! fat_sector_of_cluster g bs cluster = Some sector ->
  cluster mod 512 < 128 ->
  write_fat_value disk cluster value (g, w)
  = Done (true,
          (g, world_after_fat_write w (dd_uuid disk) (fat_sector_of_cluster g bs cluster) dev
                (set_u32 (resize 512 0 sector) (4 * Z.to_nat (cluster mod 512)) value))).
Proof.
  intros Hbs Hdev Hsec Hidx. unfold write_fat_value, deref_bs, bind at 1 2, get_globals.
  cbn [fst snd]. rewrite Hbs. unfold ret at 1. unfold bind at 1. cbn [fst].
  fold (fat_sector_of_cluster g bs cluster).
  rewrite (bind_run _ _ _ _ _ (read_sectors_one _ _ _ _ _ _ Hdev Hsec)).
  unfold fat_table_set. apply Z.ltb_lt in Hidx. rewrite Hidx.
  unfold lift, bind, write_sectors. cbn [fst snd devices io_log]. rewrite Hdev.
  change (Z.to_nat 1) with 1%nat. cbn [write_run]. rewrite Hsec. cbn [fst snd].
  rewrite (resize_all_alt (set_u32 _ _ _)) by (now rewrite set_u32_length, length_resize).
  reflexivity.
Qed.

(** For the clusters whose index the code computes inside the table, the
    FAT behaves as section 8 of the specification has it: the entry reads
    back masked to 28 bits and the other entries are left alone. *)
Theorem fat_value_round_trip_in_range disk g w bs dev sector cluster value :
  fat_bs g = Some bs -> devices w !! dd_uuid disk = Some dev ->
  dev !! fat_sector_of_cluster g bs cluster = Some sector ->
  0 <= cluster < 2 ^ 32 -> cluster mod 512 < 128 ->
  exists w',
    write_fat_value disk cluster value (g, w) = Done (true, (g, w')) /\
    result_of (read_fat_value disk cluster (g, w')) = Done (Z.land value 0x0FFFFFFF) /\
    forall other,
      0 <= other < 2 ^ 32 -> other mod 512 < 128 -> other <> cluster ->
      result_of (read_fat_value disk other (g, w'))
      = result_of (read_fat_value disk other (g, w)).
Proof.
  intros Hbs Hdev Hsec Hrange Hidx.
  pose proof (Z.mod_pos_bound cluster 512 ltac:(lia)) as Hmod.
  eexists. split; [exact (write_fat_value_in_range _ _ _ _ _ _ _ _ Hbs Hdev Hsec Hidx)|].
  set (lba := fat_sector_of_cluster g bs cluster).
  set (sector' := set_u32 (resize 512 0 sector) (4 * Z.to_nat (cluster mod 512)) value).
  assert (Hdev' : devices (world_after_fat_write w (dd_uuid disk) lba dev sector')
                  !! dd_uuid disk = Some (<[lba := sector']> dev)).
  { unfold world_after_fat_write. cbn [devices]. apply lookup_insert_eq. }
  assert (Hlen' : length sector' = 512%nat)
    by (unfold sector'; now rewrite set_u32_length, length_resize).
  split.
  - rewrite (read_fat_value_in_range _ _ _ bs _ sector' _ Hbs Hdev');
      [|apply lookup_insert_eq|exact Hidx].
    rewrite (resize_all_alt sector') by (now rewrite Hlen').
    unfold sector'. rewrite fld_u32_set_u32 by (rewrite length_resize; lia).
    now rewrite land_u32_mask.
  - intros other Hother Hoidx Hne.
    pose proof (Z.mod_pos_bound other 512 ltac:(lia)) as Homod.
    destruct (decide (fat_sector_of_cluster g bs other = lba)) as [Hsame|Hdiff].
    + rewrite (read_fat_value_in_range _ _ _ bs _ sector' _ Hbs Hdev');
        [|rewrite Hsame; apply lookup_insert_eq|exact Hoidx].
      rewrite (read_fat_value_in_range _ _ _ bs _ sector _ Hbs Hdev);
        [|rewrite Hsame; exact Hsec|exact Hoidx].
      rewrite (resize_all_alt sector') by (now rewrite Hlen').
      unfold sector'. rewrite fld_u32_set_u32_ne; [reflexivity|].
      assert (Hk : other mod 512 <> cluster mod 512).
      { intros Heq. apply Hne. unfold lba, fat_sector_of_cluster, u64 in Hsame.
        assert (Hq : other * 4 / 512 = cluster * 4 / 512).
        { assert (Ho : 0 <= other * 4 / 512 < 2 ^ 32)
            by (split; [apply Z.div_pos; lia|apply Z.div_lt_upper_bound; lia]).
          assert (Hc : 0 <= cluster * 4 / 512 < 2 ^ 32)
            by (split; [apply Z.div_pos; lia|apply Z.div_lt_upper_bound; lia]).
          set (fb := fat_begin_of g bs) in *.
          set (a := other * 4 / 512) in *. set (b := cluster * 4 / 512) in *.
          assert (Hz : (a - b) mod 2 ^ 64 = 0).
          { replace (a - b) with ((fb + a) - (fb + b)) by lia.
            rewrite Zminus_mod, Hsame, Z.sub_diag. reflexivity. }
          apply Z.mod_divide in Hz; [|lia]. destruct Hz as [q Hq].
          assert (q = 0) by nia. lia. }
        pose proof (Z.div_mod other 512 ltac:(lia)).
        pose proof (Z.div_mod cluster 512 ltac:(lia)).
        assert (Hd1 : other * 4 / 512 = other / 128).
        { replace 512 with (4 * 128) by lia. rewrite (Z.mul_comm other 4).
          apply Z.div_mul_cancel_l; lia. }
        assert (Hd2 : cluster * 4 / 512 = cluster / 128).
        { replace 512 with (4 * 128) by lia. rewrite (Z.mul_comm cluster 4).
          apply Z.div_mul_cancel_l; lia. }
        rewrite Hd1, Hd2 in Hq.
        pose proof (Z.div_mod other 128 ltac:(lia)).
        pose proof (Z.div_mod cluster 128 ltac:(lia)).
        assert (Hm1 : other mod 128 = other mod 512).
        { rewrite <- (Z.mod_small (other mod 512) 128) by lia.
          apply eq_sym, Z.mod_mod_divide. exists 4. reflexivity. }
        assert (Hm2 : cluster mod 128 = cluster mod 512).
        { rewrite <- (Z.mod_small (cluster mod 512) 128) by lia.
          apply eq_sym, Z.mod_mod_divide. exists 4. reflexivity. }
        lia. }
      lia.
    + assert (Hsec' : (<[lba := sector']> dev) !! fat_sector_of_cluster g bs other
                      = dev !! fat_sector_of_cluster g bs other)
        by (apply lookup_insert_ne; congruence).
      destruct (dev !! fat_sector_of_cluster g bs other) as [so|] eqn:Hso.
      * rewrite (read_fat_value_in_range _ _ _ bs _ so _ Hbs Hdev' Hsec' Hoidx).
        now rewrite (read_fat_value_in_range _ _ _ bs _ so _ Hbs Hdev Hso Hoidx).
      * rewrite (read_fat_value_unreadable _ _ _ bs _ _ Hbs Hdev' Hsec').
        now rewrite (read_fat_value_unreadable _ _ _ bs _ _ Hbs Hdev Hso).
Qed.

(** C3 (code defect).  The claim has [find_free_cluster] return the
    smallest free cluster for any [sectors_per_cluster].  The code steps
    through the FAT by [j * sectors_per_cluster] sectors while it numbers
    the entries as [i + j * 128]: with two sectors per cluster and the
    first 128 clusters allocated, it skips the FAT sector that holds the
    free cluster 128, finds the free entry of cluster 261 and reports it as
    cluster 133, which is allocated. *)
Theorem find_free_cluster_crowded_volume :
  result_of (find_free_cluster disk0 crowded_state) = Done 133 /\
  spec_fat_entry crowded_device 2 128 = Some 0 /\
  spec_fat_entry crowded_device 2 133 = Some 0x0FFFFFF8 /\
  forallb (fun c => negb (bool_decide (spec_fat_entry crowded_device 2 (Z.of_nat c) = Some 0)))
          (seq 2 126) = true.
Proof.
  repeat split; vm_compute; reflexivity.
Qed.

(** ** Metadata cache (C2) *)

(** A reload whose boot-sector read fails dereferences the null [fat_bs]
    in [cache_is]. *)
Lemma cache_disk_partition_boot_failure disk partition g w :
  (cached_disk g =? dd_uuid disk) && (cached_partition g =? p_uuid partition) = false ->
  (devices w !! dd_uuid disk ≫= fun dev => dev !! p_start partition) = None ->
  cache_disk_partition disk partition (g, w) = Crash NullPointer.
Proof.
  intros Hpair Hread.
  unfold cache_disk_partition, bind, get_globals; cbn.
  replace (negb (cached_disk g =? dd_uuid disk) || negb (cached_partition g =? p_uuid partition))
    with true by (destruct (cached_disk g =? dd_uuid disk), (cached_partition g =? p_uuid partition);
                  cbn in *; congruence).
  cbn. destruct (devices w !! dd_uuid disk) as [dev|] eqn:Hdev; cbn in *.
  - change (Z.to_nat 1) with 1%nat. cbn [read_run]. rewrite Hread. reflexivity.
  - reflexivity.
Qed.

(** C2 (code defect).  The claim has every operation return its failure
    value, without a further fault, when the boot-sector read of a reload
    fails.  On the scenario disk, a partition that starts past the end of
    the device makes that read fail; [cache_bs] then leaves [fat_bs] null
    and [cache_is], which is called unconditionally, dereferences it, so
    each of the five operations crashes instead of returning. *)
Theorem boot_sector_read_failure_null_dereference :
  forall pf fuel path name,
    result_of (read_sectors disk0 (p_start part_beyond) 1 scenario_state) = Done None /\
    cache_disk_partition disk0 part_beyond scenario_state = Crash NullPointer /\
    free_size disk0 part_beyond scenario_state = Crash NullPointer /\
    ls pf fuel disk0 part_beyond path scenario_state = Crash NullPointer /\
    read_file pf fuel disk0 part_beyond path name scenario_state = Crash NullPointer /\
    mkdir pf fuel disk0 part_beyond path name scenario_state = Crash NullPointer /\
    touch pf fuel disk0 part_beyond path name scenario_state = Crash NullPointer.
Proof.
  intros pf fuel path name.
  assert (H : cache_disk_partition disk0 part_beyond scenario_state = Crash NullPointer)
    by (vm_compute; reflexivity).
  split; [vm_compute; reflexivity|].
  split; [exact H|].
  unfold free_size, ls, read_file, mkdir, touch, bind.
  rewrite H. repeat split.
Qed.

(** ** Metadata cache: failed loads (C9) *)

Lemma cache_disk_partition_hit disk partition g w :
  cached_disk g = dd_uuid disk -> cached_partition g = p_uuid partition ->
  cache_disk_partition disk partition (g, w) = Done (cache_ready g, (g, w)).
Proof.
  intros Hd Hp. unfold cache_disk_partition, bind, get_globals. cbn.
  rewrite Hd, Hp, !Z.eqb_refl. reflexivity.
Qed.

Lemma cache_disk_partition_done disk partition g w b g' w' :
  cache_disk_partition disk partition (g, w) = Done (b, (g', w')) ->
  cached_disk g' = dd_uuid disk /\ cached_partition g' = p_uuid partition /\
  b = cache_ready g'.
Proof.
  unfold cache_disk_partition, bind, get_globals. cbn.
  destruct (cached_disk g =? dd_uuid disk) eqn:Hd;
    destruct (cached_partition g =? p_uuid partition) eqn:Hp; cbn.
  1: { intros [= <- <- <-]. apply Z.eqb_eq in Hd, Hp. now repeat split. }
  all: destruct (match devices w !! dd_uuid disk with
                 | Some dev => read_run dev (p_start partition) (Z.to_nat 1)
                 | None => None end) as [bs|]; cbn; [|discriminate];
       intros [= <- <- <-]; now repeat split.
Qed.

Lemma returned_failure_is_remembered disk partition g w g' w' :
  cache_disk_partition disk partition (g, w) = Done (false, (g', w')) ->
  cached_disk g' = dd_uuid disk /\ cached_partition g' = p_uuid partition /\
  forall pf fuel disk2 partition2 w2 path name,
    dd_uuid disk2 = dd_uuid disk -> p_uuid partition2 = p_uuid partition ->
    free_size disk2 partition2 (g', w2) = Done (0, (g', w2)) /\
    ls pf fuel disk2 partition2 path (g', w2) = Done ([], (g', w2)) /\
    read_file pf fuel disk2 partition2 path name (g', w2) = Done ([], (g', w2)) /\
    mkdir pf fuel disk2 partition2 path name (g', w2) = Done (false, (g', w2)) /\
    touch pf fuel disk2 partition2 path name (g', w2) = Done (false, (g', w2)).
Proof.
  intros Hrun. destruct (cache_disk_partition_done _ _ _ _ _ _ _ Hrun) as (Hd & Hp & Hready).
  split; [exact Hd|]. split; [exact Hp|].
  intros pf fuel disk2 partition2 w2 path name Hd2 Hp2.
  assert (Hhit : cache_disk_partition disk2 partition2 (g', w2) = Done (false, (g', w2))).
  { rewrite Hready. apply cache_disk_partition_hit; congruence. }
  unfold free_size, ls, read_file, mkdir, touch.
  rewrite !(bind_run _ _ _ _ _ Hhit). repeat split.
Qed.

(** A reload whose boot sector is read and whose FS-information read
    fails: both reads are requested, [fat_is] is left null whatever it
    held, the identifiers are those of the pair, and false is returned. *)
Lemma cache_disk_partition_fsi_failure disk partition g w dev sector :
  (cached_disk g =? dd_uuid disk) && (cached_partition g =? p_uuid partition) = false ->
  devices w !! dd_uuid disk = Some dev ->
  dev !! p_start partition = Some sector ->
  dev !! u64 (p_start partition + bs_fs_information_sector (resize 512 0 sector)) = None ->
  cache_disk_partition disk partition (g, w)
  = Done (false, (globals_after_failed_load disk partition (resize 512 0 sector),
                  world_after_failed_load disk partition (resize 512 0 sector) w)).
Proof.
  intros Hpair Hdev Hboot Hfsi.
  unfold cache_disk_partition.
  unfold bind at 1. unfold get_globals at 1. cbn [fst].
  replace (negb (cached_disk g =? dd_uuid disk) || negb (cached_partition g =? p_uuid partition))
    with true by (destruct (cached_disk g =? dd_uuid disk), (cached_partition g =? p_uuid partition);
                  cbn in *; congruence).
  unfold cache_bs, cache_is, set_fat_bs, set_fat_is_ptr, deref_bs.
  unfold bind at 1 2 3. unfold put_globals at 1. cbn [snd].
  unfold bind at 1.
  rewrite (read_sectors_one _ _ _ _ _ _ Hdev Hboot).
  cbv [bind get_globals put_globals ret crash fst snd
       fat_bs fat_is cached_disk cached_partition partition_start].
  rewrite (read_sectors_one_fail disk _ _
             {| devices := devices w;
                io_log := EvRead (dd_uuid disk) (p_start partition) 1 :: io_log w |}
             dev Hdev Hfsi).
  reflexivity.
Qed.

(** C9 (code defect).  The claim has every failed cache load remembered:
    identifiers updated, later operations on the pair failing without a
    device request.  A load is attempted when the pair addressed is not
    the cached one, and it can fail at either of its two reads.  When the
    boot-sector read fails, nothing is remembered: [cache_is] dereferences
    the null [fat_bs], so [cache_disk_partition] and each of the five
    operations fault before the identifiers are stored and before any
    failure value is returned.  Only when the boot sector is read and the
    FS-information read fails does the code behave as claimed: both reads
    are requested once, [fat_is] is null, the identifiers are those of the
    pair, false is returned, and every later operation on the same pair
    returns its failure value with the globals and the device trace
    untouched, whatever the device holds by then. *)
Theorem failed_cache_load_outcomes disk partition g w :
  (cached_disk g =? dd_uuid disk) && (cached_partition g =? p_uuid partition) = false ->
  ((devices w !! dd_uuid disk ≫= fun dev => dev !! p_start partition) = None ->
   cache_disk_partition disk partition (g, w) = Crash NullPointer /\
   forall pf fuel path name,
     free_size disk partition (g, w) = Crash NullPointer /\
     ls pf fuel disk partition path (g, w) = Crash NullPointer /\
     read_file pf fuel disk partition path name (g, w) = Crash NullPointer /\
     mkdir pf fuel disk partition path name (g, w) = Crash NullPointer /\
     touch pf fuel disk partition path name (g, w) = Crash NullPointer) /\
  (forall dev sector,
     devices w !! dd_uuid disk = Some dev ->
     dev !! p_start partition = Some sector ->
     dev !! u64 (p_start partition + bs_fs_information_sector (resize 512 0 sector)) = None ->
     let g' := globals_after_failed_load disk partition (resize 512 0 sector) in
     cache_disk_partition disk partition (g, w)
     = Done (false, (g', world_after_failed_load disk partition (resize 512 0 sector) w)) /\
     forall pf fuel disk2 partition2 w2 path name,
       dd_uuid disk2 = dd_uuid disk -> p_uuid partition2 = p_uuid partition ->
       free_size disk2 partition2 (g', w2) = Done (0, (g', w2)) /\
       ls pf fuel disk2 partition2 path (g', w2) = Done ([], (g', w2)) /\
       read_file pf fuel disk2 partition2 path name (g', w2) = Done ([], (g', w2)) /\
       mkdir pf fuel disk2 partition2 path name (g', w2) = Done (false, (g', w2)) /\
       touch pf fuel disk2 partition2 path name (g', w2) = Done (false, (g', w2))).
Proof.
  intros Hpair. split.
  - intros Hboot.
    pose proof (cache_disk_partition_boot_failure disk partition g w Hpair Hboot) as Hcrash.
    split; [exact Hcrash|]. intros pf fuel path name.
    unfold free_size, ls, read_file, mkdir, touch, bind. rewrite Hcrash. repeat split.
  - intros dev sector Hdev Hboot Hfsi g'.
    pose proof (cache_disk_partition_fsi_failure disk partition g w dev sector
                  Hpair Hdev Hboot Hfsi) as Hrun.
    split; [exact Hrun|].
    destruct (returned_failure_is_remembered _ _ _ _ _ _ Hrun) as (_ & _ & Hops).
    exact Hops.
Qed.

(** The driver holds the small volume of pair (7, 1) and is asked for
    pair (7, 2).  With a start past the end of the disk the boot-sector
    read fails and the load faults; with the start on the disk that ends
    after its boot sector the FS-information read fails, the stale
    [fat_is] is dropped, and [free_size] then reports 0 for the pair
    without a request even once the whole volume is readable. *)
Lemma failed_cache_load_outcomes_witness :
  (cache_disk_partition disk0 part_beyond stale_state = Crash NullPointer /\
   touch x86_64 1 disk0 part_beyond [] name_docs stale_state = Crash NullPointer) /\
  (cache_disk_partition disk0 part_again stale_state
   = Done (false, (globals_after_failed_load disk0 part_again (resize 512 0 scenario_boot),
                   world_after_failed_load disk0 part_again (resize 512 0 scenario_boot)
                     truncated_world)) /\
   free_size disk0 part_again
     (globals_after_failed_load disk0 part_again (resize 512 0 scenario_boot), scenario_world)
   = Done (0, (globals_after_failed_load disk0 part_again (resize 512 0 scenario_boot),
               scenario_world))).
Proof.
  split.
  - destruct (failed_cache_load_outcomes disk0 part_beyond (fst stale_state) (snd stale_state)
                ltac:(vm_compute; reflexivity)) as [Hboot _].
    destruct (Hboot ltac:(vm_compute; reflexivity)) as [Hcrash Hops].
    split; [exact Hcrash|].
    exact (proj2 (proj2 (proj2 (proj2 (Hops x86_64 1%nat [] name_docs))))).
  - destruct (failed_cache_load_outcomes disk0 part_again (fst stale_state) (snd stale_state)
                ltac:(vm_compute; reflexivity)) as [_ Hfsi].
    destruct (Hfsi (device_of_sectors 0 [scenario_boot]) scenario_boot
                ltac:(vm_compute; reflexivity) ltac:(vm_compute; reflexivity)
                ltac:(vm_compute; reflexivity)) as [Hrun Hops].
    split; [exact Hrun|].
    exact (proj1 (Hops x86_64 1%nat disk0 part_again scenario_world [] [] eq_refl eq_refl)).
Defined.

(** A different pair triggers a reload: the boot sector is requested. *)
Lemma cache_reload_on_other_pair disk partition g w b s' :
  (cached_disk g =? dd_uuid disk) && (cached_partition g =? p_uuid partition) = false ->
  cache_disk_partition disk partition (g, w) = Done (b, s') ->
  In (EvRead (dd_uuid disk) (p_start partition) 1) (io_log (snd s')).
Proof.
  intros Hpair. unfold cache_disk_partition, bind, get_globals. cbn.
  replace (negb (cached_disk g =? dd_uuid disk) || negb (cached_partition g =? p_uuid partition))
    with true by (destruct (cached_disk g =? dd_uuid disk), (cached_partition g =? p_uuid partition);
                  cbn in *; congruence).
  cbn.
  destruct (match devices w !! dd_uuid disk with
            | Some dev => read_run dev (p_start partition) (Z.to_nat 1)
            | None => None end) as [bs|]; cbn; [|discriminate].
  intros [= _ <-]. cbn. right. now left.
Qed.

(** ** Arrays of directory entries *)

Lemma array_of_bytes_entry_array n data : entry_array (array_of_bytes n data).
Proof.
  revert data. induction n as [|n IH]; intros data; cbn.
  - constructor.
  - constructor; [apply length_resize | apply IH].
Qed.

Lemma array_of_bytes_length n data : length (array_of_bytes n data) = n.
Proof.
  revert data. induction n as [|n IH]; intros data; cbn; [reflexivity|].
  now rewrite IH.
Qed.

Lemma end_of_directory_set_name0 e v :
  (0 < length e)%nat -> end_of_directory (set_u8 e 0 v) = (u8 v =? 0).
Proof.
  intros He. unfold end_of_directory, ce_name, fld_u8, set_u8.
  rewrite list_lookup_insert_eq by exact He. reflexivity.
Qed.

Lemma entry_array_lookup cluster i e :
  entry_array cluster -> cluster !! i = Some e -> length e = 32%nat.
Proof.
  intros Hwf Hi. unfold entry_array in Hwf.
  rewrite Forall_lookup in Hwf. exact (Hwf i e Hi).
Qed.

Lemma entry_array_set_name0 i v cluster :
  entry_array cluster -> entry_array (set_name0 i v cluster).
Proof.
  unfold entry_array, set_name0. intros Hwf.
  apply Forall_alter; [exact Hwf|].
  intros e _ He. unfold set_u8. now rewrite length_insert.
Qed.

(** ** The long entries written by [init_entry] (C4) *)

Section LongEntries.

Variable pf : platform.
Variable name : list Z.
Variable len : Z.


Lemma name_unit_min s j :
  0 <= s -> 0 <= j -> name_unit pf name len (Z.min len s + j) = name_unit pf name len (s + j).
Proof.
  intros Hs Hj. unfold name_unit.
  destruct (Z.min_spec len s) as [[Hlt ->] | [Hle ->]]; [|reflexivity].
  destruct (len + j <? len) eqn:H1; [apply Z.ltb_lt in H1; lia|].
  destruct (s + j <? len) eqn:H2; [apply Z.ltb_lt in H2; lia|]. reflexivity.
Qed.

Lemma fill_units_spec todo : forall i e off i' e',
  fill_units pf name len i e off todo = (i', e') ->
  length e = 32%nat -> (off + 2 * todo <= 32)%nat -> 0 <= i <= len ->
  length e' = 32%nat /\
  i' = Z.min len (i + Z.of_nat todo) /\
  (forall o, (o < off \/ off + 2 * todo <= o)%nat -> e' !! o = e !! o) /\
  (forall j, (j < todo)%nat -> fld_u16 e' (off + 2 * j) = name_unit pf name len (i + Z.of_nat j)).
Proof.
  induction todo as [|todo IH]; intros i e off i' e'; cbn [fill_units].
  - intros [= <- <-] He Hoff Hi. repeat split; [exact He|lia|lia].
  - intros Hrec He Hoff Hi.
    destruct (i <? len) eqn:Hlt.
    + apply Z.ltb_lt in Hlt.
      destruct (IH _ _ _ _ _ Hrec) as (Hlen & Hi' & Hframe & Hunits);
        [now rewrite set_u16_length|lia|lia|].
      split; [exact Hlen|]. split; [lia|]. split.
      * intros o Ho. rewrite Hframe by lia. apply set_u16_lookup_ne; lia.
      * intros [|j] Hj.
        -- rewrite Nat.mul_0_r, Nat.add_0_r, Z.add_0_r.
           rewrite (fld_u16_ext (set_u16 e off (char_val pf (c_char name (Z.to_nat i)))))
             by (apply Hframe; lia).
           rewrite fld_u16_set_u16 by lia.
           unfold name_unit. apply Z.ltb_lt in Hlt. now rewrite Hlt.
        -- replace (off + 2 * S j)%nat with (S (S off) + 2 * j)%nat by lia.
           rewrite Hunits by lia. f_equal. lia.
    + apply Z.ltb_ge in Hlt. assert (i = len) by lia. subst i.
      destruct (IH _ _ _ _ _ Hrec) as (Hlen & Hi' & Hframe & Hunits);
        [now rewrite set_u16_length|lia|lia|].
      split; [exact Hlen|]. split; [lia|]. split.
      * intros o Ho. rewrite Hframe by lia. apply set_u16_lookup_ne; lia.
      * assert (Hpad : forall t, 0 <= t -> name_unit pf name len (len + t) = 0xFF).
        { intros t Ht. unfold name_unit.
          destruct (len + t <? len) eqn:H1; [apply Z.ltb_lt in H1; lia|reflexivity]. }
        intros [|j] Hj.
        -- rewrite Nat.mul_0_r, Nat.add_0_r.
           rewrite (fld_u16_ext (set_u16 e off 0xFF)) by (apply Hframe; lia).
           rewrite fld_u16_set_u16 by lia. rewrite Hpad by lia. reflexivity.
        -- replace (off + 2 * S j)%nat with (S (S off) + 2 * j)%nat by lia.
           rewrite Hunits by lia. rewrite !Hpad by lia. reflexivity.
Qed.

Lemma init_long_fields_spec sequences sequence i e i' e' :
  init_long_fields pf name len sequences sequence i e = (i', e') ->
  length e = 32%nat -> 0 <= sequence -> 0 <= len -> i = Z.min len (13 * sequence) ->
  length e' = 32%nat /\ i' = Z.min len (13 * (sequence + 1)) /\
  lde_fields pf name len sequences sequence e'.
Proof.
  unfold init_long_fields. intros Hrun He Hseq Hlen Hi.
  set (e5 := set_u8 _ 13 _) in Hrun.
  assert (He5 : length e5 = 32%nat)
    by (unfold e5; repeat (rewrite set_u8_length || rewrite set_u16_length); exact He).
  destruct (fill_units pf name len i e5 1 5) as [i1 e6] eqn:H1.
  destruct (fill_units pf name len i1 e6 14 6) as [i2 e7] eqn:H2.
  destruct (fill_units_spec _ _ _ _ _ _ H1) as (L6 & I1 & F6 & U6); [exact He5|lia|lia|].
  destruct (fill_units_spec _ _ _ _ _ _ H2) as (L7 & I2 & F7 & U7); [exact L6|lia|lia|].
  destruct (fill_units_spec _ _ _ _ _ _ Hrun) as (L8 & I3 & F8 & U8); [exact L7|lia|lia|].
  assert (Hhead : forall o, (o = 0 \/ 11 <= o <= 13 \/ 26 <= o <= 27)%nat -> e' !! o = e5 !! o).
  { intros o Ho. rewrite F8, F7, F6 by lia. reflexivity. }
  split; [exact L8|]. split; [lia|].
  unfold lde_fields, le_sequence_number, le_attrib, le_reserved, le_starting_cluster,
    le_alias_checksum.
  rewrite (fld_u8_ext e5 e' 0), (fld_u8_ext e5 e' 11), (fld_u8_ext e5 e' 12),
    (fld_u8_ext e5 e' 13), (fld_u16_ext e5 e' 26) by (apply Hhead; lia).
  unfold e5.
  repeat split.
  - rewrite fld_u8_set_u8_ne, fld_u8_set_u16_ne, !fld_u8_set_u8_ne by lia.
    apply fld_u8_set_u8. lia.
  - rewrite fld_u8_set_u8_ne, fld_u8_set_u16_ne, fld_u8_set_u8_ne by lia.
    apply fld_u8_set_u8. rewrite set_u8_length. lia.
  - rewrite fld_u8_set_u8_ne, fld_u8_set_u16_ne by lia.
    apply fld_u8_set_u8. rewrite !set_u8_length. lia.
  - rewrite fld_u16_set_u8_ne by lia.
    apply fld_u16_set_u16. rewrite !set_u8_length. lia.
  - apply fld_u8_set_u8. rewrite set_u16_length, !set_u8_length. lia.
  - intros j Hj. unfold lde_unit, lde_units.
    assert (Hcases : (j < 5 \/ 5 <= j < 11 \/ 11 <= j < 13)%nat) by lia.
    destruct Hcases as [Hc | [Hc | Hc]].
    + assert (Hu : lde_unit e' j = fld_u16 e' (1 + 2 * j)).
      { unfold lde_unit, lde_units.
        do 5 (destruct j as [|j]; [reflexivity|]). lia. }
      unfold lde_unit, lde_units in Hu. rewrite Hu.
      rewrite (fld_u16_ext e7 e') by (apply F8; lia).
      rewrite (fld_u16_ext e6 e7) by (apply F7; lia).
      rewrite U6 by lia. subst i. apply name_unit_min; lia.
    + assert (Hu : lde_unit e' j = fld_u16 e' (14 + 2 * (j - 5))).
      { unfold lde_unit, lde_units.
        do 5 (destruct j as [|j]; [lia|]).
        do 6 (destruct j as [|j]; [reflexivity|]). lia. }
      unfold lde_unit, lde_units in Hu. rewrite Hu.
      rewrite (fld_u16_ext e7 e') by (apply F8; lia).
      rewrite U7 by lia.
      replace i1 with (Z.min len (13 * sequence + 5)) by lia.
      rewrite name_unit_min by lia. f_equal. lia.
    + assert (Hu : lde_unit e' j = fld_u16 e' (28 + 2 * (j - 11))).
      { unfold lde_unit, lde_units.
        do 11 (destruct j as [|j]; [lia|]).
        do 2 (destruct j as [|j]; [reflexivity|]). lia. }
      unfold lde_unit, lde_units in Hu. rewrite Hu.
      rewrite U8 by lia.
      replace i2 with (Z.min len (13 * sequence + 11)) by lia.
      rewrite name_unit_min by lia. f_equal. lia.
Qed.

End LongEntries.

Lemma entry_array_insert cluster i e :
  entry_array cluster -> length e = 32%nat -> entry_array (<[i := e]> cluster).
Proof. intros Hwf He. now apply Forall_insert. Qed.

Lemma init_long_entries_spec pf name len sequences :
  0 <= len ->
  forall (m fuel : nat) sequence i ptr cluster,
    sequences = sequence + Z.of_nat m -> 0 <= sequence ->
    i = Z.min len (13 * sequence) ->
    entry_array cluster -> (ptr + m <= length cluster)%nat -> (m <= fuel)%nat ->
    exists cluster',
      init_long_entries pf name len sequences fuel sequence i ptr cluster
      = Done ((ptr + m)%nat, cluster') /\
      entry_array cluster' /\ length cluster' = length cluster /\
      (forall q, (q < ptr \/ ptr + m <= q)%nat -> cluster' !! q = cluster !! q) /\
      forall t, (t < m)%nat ->
        exists e, cluster' !! (ptr + t)%nat = Some e /\
                  lde_fields pf name len sequences (sequence + Z.of_nat t) e.
Proof.
  intros Hlen. induction m as [|m IH]; intros fuel sequence i ptr cluster Hm Hseq Hi Hwf Hroom Hfuel.
  - exists cluster.
    assert (Hstop : (sequence <? sequences) = false) by (apply Z.ltb_ge; lia).
    split; [destruct fuel; cbn [init_long_entries]; rewrite Hstop; do 2 f_equal; lia|].
    repeat split; [exact Hwf|lia].
  - destruct fuel as [|fuel]; [lia|]. cbn [init_long_entries].
    assert (Hgo : (sequence <? sequences) = true) by (apply Z.ltb_lt; lia).
    rewrite Hgo.
    destruct (lookup_lt_is_Some_2 cluster ptr ltac:(lia)) as [e He]. rewrite He.
    pose proof (entry_array_lookup _ _ _ Hwf He) as Hlen_e.
    destruct (init_long_fields pf name len sequences sequence i e) as [i' e'] eqn:Hfields.
    destruct (init_long_fields_spec _ _ _ _ _ _ _ _ _ Hfields Hlen_e Hseq Hlen Hi)
      as (Hlen_e' & Hi' & Hfields').
    destruct (IH fuel (sequence + 1) i' (S ptr) (<[ptr := e']> cluster))
      as (cluster' & Hrun & Hwf' & Hlen' & Hframe & Hslots);
      [lia|lia|exact Hi'|now apply entry_array_insert|rewrite length_insert; lia|lia|].
    exists cluster'. split; [rewrite Hrun; do 2 f_equal; lia|].
    split; [exact Hwf'|]. split; [now rewrite Hlen', length_insert|]. split.
    + intros q Hq. rewrite Hframe by lia. apply list_lookup_insert_ne. lia.
    + intros [|t] Ht.
      * exists e'. rewrite Nat.add_0_r, Z.add_0_r. split; [|exact Hfields'].
        rewrite Hframe by lia. apply list_lookup_insert_eq. lia.
      * destruct (Hslots t ltac:(lia)) as (e1 & He1 & Hf1). exists e1.
        replace (ptr + S t)%nat with (S ptr + t)%nat by lia.
        replace (sequence + Z.of_nat (S t)) with (sequence + 1 + Z.of_nat t) by lia.
        now split.
Qed.

Lemma c_strlen_no_nul name :
  Forall (fun b => 0 < b < 256) name -> c_strlen name = length name.
Proof.
  induction 1 as [|b name Hb _ IH]; cbn; [reflexivity|].
  destruct (b =? 0) eqn:H0; [apply Z.eqb_eq in H0; lia|]. now rewrite IH.
Qed.





(** ** Entry initialisation (C5) *)

(** C5 (code defect).  The claim equates the stored checksum with the
    rotate-add computation on an unsigned 8-bit accumulator.  The code
    accumulates in a plain [char]: where that type is signed, [sum >> 1]
    shifts the sign bit back in.  After [touch] of "docs" on the scenario
    volume the long entry carries checksum 71, while the reference over the
    name field of the short entry written next to it is 215. *)
Theorem alias_checksum_signed_char :
  match touch x86_64 4 disk0 part0 [] name_docs scenario_state with
  | Done (true, st') =>
      let root := disk_sector st' 7 1056 in
      le_attrib (sector_entry root 0) = 0x0F /\
      le_alias_checksum (sector_entry root 0) = 71 /\
      reference_checksum (take 11 (sector_entry root 1)) = 215
  | _ => False
  end.
Proof.
  vm_compute. repeat split.
Qed.

(** With unsigned plain [char] the same loop is the reference computation. *)
Lemma alias_sum_unsigned_fold pf name len todo : forall c sum,
  char_signed pf = false ->
  alias_sum pf name len c todo sum
  = fold_left (fun s b => u8 (rotate_right_8 s + b))
      (map (fun c => if Z.of_nat c <? len then u8 (c_char name c) else 32) (seq c todo)) sum.
Proof.
  induction todo as [|todo IH]; intros c sum Hu; cbn [alias_sum seq map fold_left];
    [reflexivity|].
  rewrite IH by exact Hu. f_equal.
  unfold to_char, char_val, rotate_right_8. rewrite Hu.
  assert (Hidem : forall x, u8 (u8 x) = u8 x) by (intros x; unfold u8; apply Z.mod_mod; lia).
  rewrite Hidem. unfold u8. rewrite Z.add_mod_idemp_l by lia.
  destruct (Z.of_nat c <? len); reflexivity.
Qed.

Lemma alias_sum_unsigned_reference pf name :
  char_signed pf = false ->
  u8 (alias_sum pf name (str_len name) 0 11 0) = reference_checksum (checksum_input name).
Proof.
  intros Hu. rewrite alias_sum_unsigned_fold by exact Hu.
  unfold reference_checksum, checksum_input.
  cbn [seq map fold_left]. unfold u8 at 1. apply Z.mod_mod. lia.
Qed.

(** ** Free-slot allocation (C8) *)

Lemma first_end_of_directory_marker cluster i0 k :
  first_end_of_directory cluster i0 = Some k ->
  (i0 <= k)%nat /\ exists e, cluster !! (k - i0)%nat = Some e /\ end_of_directory e = true.
Proof.
  revert i0. induction cluster as [|entry rest IH]; intros i0; cbn; [discriminate|].
  destruct (end_of_directory entry) eqn:Hentry.
  - intros [= <-]. split; [lia|]. exists entry. now rewrite Nat.sub_diag.
  - intros Hrest. destruct (IH _ Hrest) as [Hle (e & He & Hm)].
    split; [lia|]. exists e. split; [|exact Hm].
    replace (k - i0)%nat with (S (k - S i0)) by lia. exact He.
Qed.

Lemma count_zero_no_marker cluster i e :
  count_end_markers cluster = 0%nat -> cluster !! i = Some e -> end_of_directory e = false.
Proof.
  revert i. induction cluster as [|entry rest IH]; intros i; cbn; [discriminate 2|].
  destruct (end_of_directory entry) eqn:Hentry; [discriminate|].
  intros Hc. destruct i as [|i]; cbn.
  - now intros [= <-].
  - now apply IH.
Qed.

Lemma first_end_of_directory_unique cluster i0 k j e :
  first_end_of_directory cluster i0 = Some k ->
  count_end_markers cluster = 1%nat ->
  cluster !! j = Some e -> end_of_directory e = true ->
  (i0 + j)%nat = k.
Proof.
  revert i0 j. induction cluster as [|entry rest IH]; intros i0 j; cbn; [discriminate|].
  destruct (end_of_directory entry) eqn:Hentry.
  - intros [= <-] [= Hc] Hj He. destruct j as [|j]; [lia|]. cbn in Hj.
    rewrite (count_zero_no_marker _ _ _ Hc Hj) in He. discriminate.
  - intros Hk Hc Hj He. destruct j as [|j]; cbn in Hj.
    + injection Hj as <-. congruence.
    + specialize (IH _ _ Hk Hc Hj He). lia.
Qed.

Lemma count_end_markers_set_name0 cluster i v e :
  cluster !! i = Some e -> (0 < length e)%nat ->
  (count_end_markers (set_name0 i v cluster) + Nat.b2n (end_of_directory e)
   = count_end_markers cluster + Nat.b2n (u8 v =? 0)%Z)%nat.
Proof.
  revert i. induction cluster as [|entry rest IH]; intros i; [discriminate 1|].
  destruct i as [|i]; cbn.
  - intros [= ->] He. rewrite (end_of_directory_set_name0 _ _ He).
    destruct (end_of_directory e), (u8 v =? 0); cbn; lia.
  - intros Hi He. specialize (IH _ Hi He). unfold set_name0 in IH.
    destruct (end_of_directory entry); lia.
Qed.

Section FreeEntry.

Variable pf : platform.

Lemma free_sequence_run cluster entries i0 sz s st en :
  free_sequence pf cluster entries i0 sz = (s, st, en) ->
  0 <= sz < entries -> sz <= Z.of_nat i0 ->
  s = entries ->
  Z.of_nat st = Z.of_nat en - (entries - 1) /\
  (i0 <= en < i0 + length cluster)%nat.
Proof.
  revert i0 sz. induction cluster as [|entry rest IH]; intros i0 sz; cbn.
  - intros [= <- <- <-] Hsz _ Hs. lia.
  - destruct (end_of_directory entry || entry_unused pf entry).
    + destruct (sz + 1 =? entries) eqn:Hfull.
      * intros [= <- <- <-] Hsz Hi0 _. apply Z.eqb_eq in Hfull. lia.
      * intros Hrec Hsz Hi0 Hs. apply Z.eqb_neq in Hfull.
        destruct (IH (S i0) (sz + 1) Hrec) as [H1 H2]; [lia|lia|exact Hs|].
        split; [exact H1|lia].
    + intros Hrec Hsz Hi0 Hs.
      destruct (IH (S i0) 0 Hrec) as [H1 H2]; [lia|lia|exact Hs|].
      split; [exact H1|lia].
Qed.

Lemma scan_new_end_found cluster sequence_end i acc new_end :
  scan_new_end pf cluster sequence_end i acc = Some new_end ->
  acc = Some new_end \/
  ((sequence_end < new_end <= i)%nat /\ exists e, cluster !! new_end = Some e).
Proof.
  revert acc. induction i as [|i IH]; intros acc; cbn -[Nat.leb].
  - intros ->. now left.
  - destruct (S i <=? sequence_end)%nat eqn:Hle; [intros ->; now left|].
    apply Nat.leb_gt in Hle.
    destruct (cluster !! S i) as [entry|] eqn:Hentry; [|intros ->; now left].
    destruct (end_of_directory entry || entry_unused pf entry); [|intros ->; now left].
    intros Hrec. destruct (IH _ Hrec) as [[= <-] | [Hr He]].
    + right. split; [lia|]. now exists entry.
    + right. split; [lia|exact He].
Qed.

End FreeEntry.

(** C8, amended.  After a successful [find_free_entry] on a well-formed
    entry array, at least one slot with [name[0] == 0x00] lies behind the
    allocated run; and when the array had exactly one such slot before the
    call, it has exactly one afterwards, behind the run. *)
Theorem find_free_entry_end_marker pf (directory_cluster : list (list Z)) (entries : Z)
    (start : nat) (cluster' : list (list Z)) :
  entry_array directory_cluster ->
  0 < entries ->
  find_free_entry pf directory_cluster entries = Some (start, cluster') ->
  (exists i e, Z.of_nat start + entries <= Z.of_nat i /\
               cluster' !! i = Some e /\ end_of_directory e = true) /\
  (count_end_markers directory_cluster = 1%nat ->
   count_end_markers cluster' = 1%nat /\
   forall i e, cluster' !! i = Some e -> end_of_directory e = true ->
               Z.of_nat start + entries <= Z.of_nat i).
Proof.
  intros Hwf Hentries. unfold find_free_entry.
  destruct (first_end_of_directory directory_cluster 0) as [end_|] eqn:Hend; [|discriminate].
  destruct (first_end_of_directory_marker _ _ _ Hend) as [_ (e_end & He_end & Hm_end)].
  rewrite Nat.sub_0_r in He_end.
  destruct (free_sequence pf directory_cluster entries 0 0) as [[s st] en] eqn:Hseq.
  destruct (s =? entries) eqn:Hs; cbn [negb]; [|discriminate].
  apply Z.eqb_eq in Hs.
  destruct (free_sequence_run pf _ _ _ _ _ _ _ Hseq) as [Hst Hen]; [lia|lia|exact Hs|].
  destruct (end_ <=? en)%nat eqn:Hcase.
  - apply Nat.leb_le in Hcase.
    destruct (scan_new_end pf directory_cluster en (length directory_cluster - 1) None)
      as [new_end|] eqn:Hscan; [|discriminate].
    intros [= <- <-].
    destruct (scan_new_end_found pf _ _ _ _ _ Hscan) as [Habs | [Hrange (e_new & He_new)]];
      [discriminate|].
    assert (Hne : end_ <> new_end) by lia.
    pose proof (entry_array_lookup _ _ _ Hwf He_end) as Hlen_end.
    pose proof (entry_array_lookup _ _ _ Hwf He_new) as Hlen_new.
    assert (He_new1 : set_name0 end_ 0xE5 directory_cluster !! new_end = Some e_new).
    { unfold set_name0. rewrite list_lookup_alter_ne by exact Hne. exact He_new. }
    assert (He_new2 : set_name0 new_end 0 (set_name0 end_ 0xE5 directory_cluster) !! new_end
                      = Some (set_u8 e_new 0 0)).
    { unfold set_name0 at 1. rewrite list_lookup_alter_eq, He_new1. reflexivity. }
    assert (Hm_new : end_of_directory (set_u8 e_new 0 0) = true).
    { rewrite end_of_directory_set_name0 by lia. reflexivity. }
    split.
    + exists new_end, (set_u8 e_new 0 0). repeat split; [lia|exact He_new2|exact Hm_new].
    + intros Hone.
      pose proof (count_end_markers_set_name0 _ _ 0xE5 _ He_end ltac:(lia)) as Hc1.
      rewrite Hm_end, Hone in Hc1. change (u8 0xE5 =? 0) with false in Hc1.
      cbn [Nat.b2n] in Hc1.
      assert (Hzero : count_end_markers (set_name0 end_ 0xE5 directory_cluster) = 0%nat) by lia.
      pose proof (count_end_markers_set_name0 _ _ 0 _ He_new1 ltac:(lia)) as Hc2.
      rewrite (count_zero_no_marker _ _ _ Hzero He_new1), Hzero in Hc2.
      change (u8 0 =? 0) with true in Hc2. cbn [Nat.b2n] in Hc2.
      split; [lia|].
      intros i e Hi He. destruct (decide (i = new_end)) as [-> | Hi_ne]; [lia|].
      unfold set_name0 at 1 in Hi. rewrite list_lookup_alter_ne in Hi by congruence.
      rewrite (count_zero_no_marker _ _ _ Hzero Hi) in He. discriminate.
  - apply Nat.leb_gt in Hcase. intros [= <- <-]. split.
    + exists end_, e_end. repeat split; [lia|exact He_end|exact Hm_end].
    + intros Hone. split; [exact Hone|].
      intros i e Hi He.
      pose proof (first_end_of_directory_unique _ _ _ _ _ Hend Hone Hi He). lia.
Qed.

(** A directory cluster as [mkdir] lays it out, where unused slots are
    recognised: the run is taken from the unused slots and the single
    end marker stays behind it. *)
Lemma find_free_entry_end_marker_witness :
  find_free_entry unsigned_char_build dot_cluster 2 = Some (2%nat, dot_cluster) /\
  count_end_markers dot_cluster = 1%nat /\
  (exists i e, Z.of_nat 2 + 2 <= Z.of_nat i /\
               dot_cluster !! i = Some e /\ end_of_directory e = true) /\
  (forall i e, dot_cluster !! i = Some e -> end_of_directory e = true ->
               Z.of_nat 2 + 2 <= Z.of_nat i).
Proof.
  assert (Hwf : entry_array dot_cluster)
    by (unfold entry_array, dot_cluster; cbn; repeat (constructor; [reflexivity|]); constructor).
  assert (Hpos : 0 < 2) by lia.
  assert (Hrun : find_free_entry unsigned_char_build dot_cluster 2 = Some (2%nat, dot_cluster))
    by (vm_compute; reflexivity).
  assert (Hone : count_end_markers dot_cluster = 1%nat) by (vm_compute; reflexivity).
  destruct (find_free_entry_end_marker unsigned_char_build dot_cluster 2 2%nat dot_cluster
              Hwf Hpos Hrun) as [Hex Hkeep].
  split; [exact Hrun|]. split; [exact Hone|]. split; [exact Hex|].
  exact (proj2 (Hkeep Hone)).
Defined.

(** C8 as the specification states it fails on the root directory of the
    freshly formatted volume, whose slots are all zero: the two-slot run
    is granted at slot 0, the marker moves to slot 2, and slots 1 and
    3..127 still read [name[0] == 0x00]. *)
Lemma end_marker_discipline_fresh_root :
  ~ end_marker_discipline x86_64 scenario_root 2 /\
  ~ end_marker_discipline unsigned_char_build scenario_root 2.
Proof.
  split; intros H.
  - edestruct H as [Hcount _]; [vm_compute; reflexivity|].
    vm_compute in Hcount. discriminate Hcount.
  - edestruct H as [Hcount _]; [vm_compute; reflexivity|].
    vm_compute in Hcount. discriminate Hcount.
Qed.

(** On the same root directory the amended statement reads: a marker
    stands behind the run, at slot 2. *)
Lemma find_free_entry_fresh_root :
  match find_free_entry x86_64 scenario_root 2 with
  | Some (start, cluster') =>
      start = 0%nat /\ count_end_markers cluster' = 127%nat /\
      (end_of_directory <$> cluster' !! 0%nat) = Some false /\
      (end_of_directory <$> cluster' !! 2%nat) = Some true
  | None => False
  end.
Proof.
  vm_compute. repeat split.
Qed.

(** ** Creating entries (C6, C7) *)

(** C6 (code defect).  The claim has [mkdir] and [touch] return false when
    [find_free_entry] cannot place the run.  Neither tests the pointer it
    returns: with a root directory that has a single slot left,
    [find_free_entry] returns null for the two slots "docs" needs, and the
    entry initialisation writes through that pointer. *)
Theorem create_in_full_directory_null_dereference :
  forall pf,
    find_free_entry pf
      (array_of_bytes 128 (concat (take 8 (drop 1056 full_root_sectors))))
      (number_of_entries name_docs) = None /\
    mkdir pf 4 disk0 part0 [] name_docs full_root_state = Crash NullPointer /\
    touch pf 4 disk0 part0 [] name_docs full_root_state = Crash NullPointer.
Proof.
  intros [[] sj hj]; repeat split; vm_compute; reflexivity.
Qed.

(** The sibling failure is handled: with no free cluster both operations
    return false and issue no write. *)
Lemma create_without_free_cluster_returns_false :
  forall pf,
    result_of (find_free_cluster disk0
                 (state_after (cache_disk_partition disk0 part0 exhausted_state)
                    exhausted_state)) = Done 0 /\
    result_of (mkdir pf 4 disk0 part0 [] name_docs exhausted_state) = Done false /\
    result_of (touch pf 4 disk0 part0 [] name_docs exhausted_state) = Done false /\
    no_writes (io_log (snd (state_after (mkdir pf 4 disk0 part0 [] name_docs exhausted_state)
                              exhausted_state))) = true /\
    no_writes (io_log (snd (state_after (touch pf 4 disk0 part0 [] name_docs exhausted_state)
                              exhausted_state))) = true.
Proof.
  intros [[] sj hj]; repeat split; vm_compute; reflexivity.
Qed.

(** C7 (code defect).  The claim has [ls (p ++ [n])] return exactly "."
    and ".." after a successful [mkdir p n].  For a name of twelve bytes
    [init_entry] emits two long entries, the second holding padding only;
    the decoder of [files] still advances the name length to 13, so the
    listed name ends in a byte of the uninitialised buffer, never equals
    the name, and the new directory cannot be resolved: [mkdir] returns
    true and the listing is empty. *)
Theorem mkdir_twelve_byte_name_not_listed :
  forall pf,
    result_of (mkdir_then_ls pf 4 disk0 part0 [] name_twelve scenario_state)
    = Done (true, []).
Proof.
  intros [[] sj hj]; vm_compute; reflexivity.
Qed.

(** Where plain [char] is signed the comparison [name[0] == 0xE5] never
    holds, so the slots [mkdir] marks unused in the new cluster are listed
    too: 127 records instead of two for the scenario's "docs". *)
Lemma mkdir_docs_signed_char_listing :
  match result_of (mkdir_then_ls x86_64 4 disk0 part0 [] name_docs scenario_state) with
  | Done (ok, l) => ok = true /\ length l = 127%nat
  | _ => False
  end.
Proof.
  vm_compute. split; reflexivity.
Qed.

(** With unsigned plain [char] the same run lists exactly "." and "..",
    at the new cluster and at the parent's. *)
Lemma mkdir_docs_unsigned_char_listing :
  result_of (mkdir_then_ls unsigned_char_build 4 disk0 part0 [] name_docs scenario_state)
  = Done (true,
          [ {| file_name := [46]; hidden := false; system := false; directory := true;
               size := 4096; location := 3 |};
            {| file_name := [46; 46]; hidden := false; system := false; directory := true;
               size := 4096; location := 2 |} ]).
Proof.
  vm_compute. reflexivity.
Qed.

(** ** Reading a directory as a file (C10) *)

Lemma file_of_entry_dir_sized spc name entry : dir_sized spc (file_of_entry spc name entry).
Proof. unfold dir_sized, file_of_entry; cbn. now intros ->. Qed.

Lemma decode_long_entry_files l_entry st st' :
  decode_long_entry l_entry st = Done st' -> sc_files st' = sc_files st.
Proof.
  unfold decode_long_entry.
  destruct (decode_units _ _) as [st1| |]; [|discriminate..].
  destruct (decode_units _ st1) as [st2| |]; [|discriminate..].
  destruct (decode_units _ st2) as [[[? ?] ?]| |]; [|discriminate..].
  now intros [= <-].
Qed.

Lemma scan_short_entry_files spc entry st st' :
  scan_short_entry spc entry st = Done st' ->
  Forall (dir_sized spc) (sc_files st) -> Forall (dir_sized spc) (sc_files st').
Proof.
  unfold scan_short_entry. intros Hrun Hst.
  destruct (sc_long_name st); [destruct (sc_i st <=? 256); [|discriminate]|];
    injection Hrun as <-; cbn;
    (apply Forall_app; split; [exact Hst|]);
    (constructor; [apply file_of_entry_dir_sized|constructor]).
Qed.

Lemma scan_cluster_files pf spc cluster : forall st st' ended,
  scan_cluster pf spc cluster st = Done (st', ended) ->
  Forall (dir_sized spc) (sc_files st) -> Forall (dir_sized spc) (sc_files st').
Proof.
  induction cluster as [|entry rest IH]; intros st st' ended; cbn [scan_cluster].
  - now intros [= <- <-].
  - destruct (end_of_directory entry); [now intros [= <- <-]|].
    destruct (entry_used pf entry); [|apply IH].
    destruct (is_long_name entry).
    + destruct (decode_long_entry entry st) as [st1| |] eqn:Hdec; [|discriminate..].
      intros Hrun Hst. apply (IH _ _ _ Hrun).
      now rewrite (decode_long_entry_files _ _ _ Hdec).
    + destruct (scan_short_entry spc entry st) as [st1| |] eqn:Hshort; [|discriminate..].
      intros Hrun Hst. apply (IH _ _ _ Hrun).
      exact (scan_short_entry_files _ _ _ _ Hshort Hst).
Qed.

Lemma files_loop_dir_sized pf disk spc fuel : forall cluster_number st s l s',
  files_loop pf fuel disk spc cluster_number st s = Done (l, s') ->
  Forall (dir_sized spc) (sc_files st) -> Forall (dir_sized spc) l.
Proof.
  induction fuel as [|fuel IH]; intros cluster_number st s l s'; cbn [files_loop];
    [discriminate|].
  intros Hrun Hst.
  destruct (bind_done _ _ _ _ _ Hrun) as (lba & s1 & _ & Hrun1). clear Hrun.
  destruct (bind_done _ _ _ _ _ Hrun1) as ([data|] & s2 & _ & Hrun2); clear Hrun1;
    [|now injection Hrun2 as <- _].
  destruct (bind_done _ _ _ _ _ Hrun2) as ([st' ended] & s3 & Hscan & Hrun3). clear Hrun2.
  cbn [fst snd] in Hrun3.
  assert (Hst' : Forall (dir_sized spc) (sc_files st')).
  { unfold lift in Hscan.
    destruct (scan_cluster _ _ _ _) as [[st1 e1]| |] eqn:Hsc; [|discriminate..].
    injection Hscan as -> -> _. exact (scan_cluster_files _ _ _ _ _ _ Hsc Hst). }
  destruct ended; [now injection Hrun3 as <- _|].
  destruct (bind_done _ _ _ _ _ Hrun3) as (next & s4 & _ & Hrun4). clear Hrun3.
  destruct (next =? 0); [now injection Hrun4 as <- _|].
  destruct (next =? 0x0FFFFFF7); [now injection Hrun4 as <- _|].
  exact (IH _ _ _ _ _ Hrun4 Hst').
Qed.

Lemma files_done pf fuel disk cluster_number s l s' :
  files pf fuel disk cluster_number s = Done (l, s') ->
  exists bs fuel', fat_bs (fst s) = Some bs /\ fuel = S fuel' /\
                   Forall (dir_sized (bs_sectors_per_cluster bs)) l.
Proof.
  unfold files. intros Hrun.
  destruct (bind_done _ _ _ _ _ Hrun) as (bs & s1 & Hbs & Hloop).
  unfold deref_bs, bind, get_globals in Hbs.
  destruct (fat_bs (fst s)) as [bs0|] eqn:Hfat; [|discriminate].
  injection Hbs as -> ->. exists bs.
  destruct fuel as [|fuel']; [discriminate|]. exists fuel'.
  repeat split. apply (files_loop_dir_sized _ _ _ _ _ _ _ _ _ Hloop). constructor.
Qed.

Lemma read_run_length dev count : forall lba data,
  read_run dev lba count = Some data -> length data = (512 * count)%nat.
Proof.
  induction count as [|count IH]; intros lba data; cbn [read_run].
  - now intros [= <-].
  - destruct (dev !! lba) as [s|]; [|discriminate].
    destruct (read_run dev (u64 (lba + 1)) count) as [rest|] eqn:Hrest; [|discriminate].
    intros [= <-]. rewrite length_app, length_resize, (IH _ _ Hrest). lia.
Qed.

Lemma read_sectors_length disk lba count s data s' :
  read_sectors disk lba count s = Done (Some data, s') ->
  length data = (512 * Z.to_nat count)%nat.
Proof.
  unfold read_sectors. intros [= Hread _].
  destruct (devices (snd s) !! dd_uuid disk) as [dev|]; [|discriminate].
  exact (read_run_length _ _ _ _ Hread).
Qed.

Lemma copy_cluster_whole cluster : forall file_size read content,
  read + Z.of_nat (length cluster) <= file_size ->
  copy_cluster cluster file_size read content
  = (read + Z.of_nat (length cluster), content ++ cluster).
Proof.
  induction cluster as [|c rest IH]; intros file_size read content Hfit; cbn [copy_cluster].
  - cbn. now rewrite Z.add_0_r, app_nil_r.
  - cbn [length] in Hfit.
    destruct (read <? file_size) eqn:Hlt; [|apply Z.ltb_ge in Hlt; lia].
    rewrite IH by lia. rewrite <- app_assoc. cbn [length]. f_equal. lia.
Qed.

(** C10.  When the first entry of the parent listing whose name equals
    the requested one is a directory, the volume has a non-zero
    [sectors_per_cluster] and the device read of the directory's first
    cluster succeeds, [read_file] takes the reported size
    [sectors_per_cluster * 512] as the file size and returns exactly the
    raw bytes of that cluster, that many of them. *)
Theorem read_file_of_directory pf fuel disk partition path name
    st st1 all_files st2 f bs data st3 :
  cache_disk_partition disk partition st = Done (true, st1) ->
  files_path pf fuel disk path st1 = Done (all_files, st2) ->
  find (fun f => bytes_eqb (file_name f) name) all_files = Some f ->
  directory f = true ->
  fat_bs (fst st1) = Some bs ->
  0 < bs_sectors_per_cluster bs ->
  read_sectors disk (cluster_lba_of (fst st1) bs (u32 (location f)))
    (bs_sectors_per_cluster bs) st2 = Done (Some data, st3) ->
  size f = bs_sectors_per_cluster bs * 512 /\
  Z.of_nat (length data) = bs_sectors_per_cluster bs * 512 /\
  read_file pf fuel disk partition path name st = Done (data, st3).
Proof.
  intros Hcache Hfiles Hfind Hdir Hbs Hspc Hread.
  (* the listing comes from [files], run with the cached boot sector *)
  assert (Hlist : Forall (dir_sized (bs_sectors_per_cluster bs)) all_files /\
                  fst st2 = fst st1 /\ exists fuel', fuel = S fuel').
  { unfold files_path in Hfiles.
    destruct (bind_done _ _ _ _ _ Hfiles) as (search & s1 & Hsearch & Hrest).
    pose proof (keeps_find_cluster_number _ _ _ _ _ _ _ Hsearch) as Hk1.
    destruct (negb (fst search)).
    - injection Hrest as <- _. discriminate.
    - pose proof (keeps_files _ _ _ _ _ _ _ Hrest) as Hk2.
      destruct (files_done _ _ _ _ _ _ _ Hrest) as (bs' & fuel' & Hbs' & Hfuel & Hall).
      rewrite Hk1, Hbs in Hbs'. injection Hbs' as <-.
      split; [exact Hall|]. split; [congruence|]. now exists fuel'. }
  destruct Hlist as (Hall & Hglobals & fuel' & ->).
  assert (Hsize : size f = bs_sectors_per_cluster bs * 512).
  { apply find_some in Hfind. destruct Hfind as [Hin _].
    rewrite Forall_forall in Hall. apply (Hall f); [|exact Hdir].
    now apply list_elem_of_In. }
  pose proof (read_sectors_length _ _ _ _ _ _ Hread) as Hlen.
  assert (Hlen' : Z.of_nat (length data) = bs_sectors_per_cluster bs * 512) by lia.
  split; [exact Hsize|]. split; [exact Hlen'|].
  unfold read_file.
  rewrite (bind_run _ _ _ _ _ Hcache). cbn [negb].
  rewrite (bind_run _ _ _ _ _ Hfiles). rewrite Hfind, Hsize.
  destruct (bs_sectors_per_cluster bs * 512 =? 0) eqn:Hzero; [apply Z.eqb_eq in Hzero; lia|].
  cbn [read_file_loop].
  destruct (0 <? bs_sectors_per_cluster bs * 512) eqn:Hpos; [|apply Z.ltb_ge in Hpos; lia].
  assert (Hderef : deref_bs st2 = Done (bs, st2)).
  { unfold deref_bs, bind, get_globals. rewrite Hglobals, Hbs. reflexivity. }
  assert (Hlba : cluster_lba (u32 (location f)) st2
                 = Done (cluster_lba_of (fst st1) bs (u32 (location f)), st2)).
  { unfold cluster_lba. rewrite (bind_run _ _ _ _ _ Hderef).
    unfold bind, get_globals, ret. now rewrite Hglobals. }
  rewrite (bind_run _ _ _ _ _ Hderef), (bind_run _ _ _ _ _ Hlba), (bind_run _ _ _ _ _ Hread).
  rewrite copy_cluster_whole by lia. rewrite Z.add_0_l, Hlen', Z.ltb_irrefl. reflexivity.
Qed.

(** On the small volume, [read_file] of the directory "DOCS" returns the
    512 raw bytes of its cluster. *)
Lemma read_file_of_directory_witness :
  size docs_record = bs_sectors_per_cluster small_boot * 512 /\
  Z.of_nat (length docs_cluster) = bs_sectors_per_cluster small_boot * 512 /\
  read_file x86_64 1 disk0 part0 [] name_DOCS small_state = Done (docs_cluster, small_read).
Proof.
  apply (read_file_of_directory x86_64 1 disk0 part0 [] name_DOCS small_state
           small_cached [docs_record] small_listed docs_record small_boot
           docs_cluster small_read);
    vm_compute; reflexivity.
Defined.


(** * Further properties of the driver *)

(** ** FAT entries *)

Lemma fat_value_round_trip_in_range_witness :
  exists w',
    write_fat_value disk0 4 0xFFFFFFFF (fst small_cached, snd small_cached)
    = Done (true, (fst small_cached, w')) /\
    result_of (read_fat_value disk0 4 (fst small_cached, w')) = Done 0x0FFFFFFF /\
    result_of (read_fat_value disk0 2 (fst small_cached, w')) = Done 0x0FFFFFF8.
Proof.
  destruct (fat_value_round_trip_in_range disk0 (fst small_cached) (snd small_cached)
              small_boot small_device small_fat 4 0xFFFFFFFF)
    as (w' & Hwrite & Hread & Hother).
  - vm_compute. reflexivity.
  - vm_compute. reflexivity.
  - vm_compute. reflexivity.
  - lia.
  - vm_compute. reflexivity.
  - exists w'. split; [exact Hwrite|]. split; [exact Hread|].
    rewrite (Hother 2); [vm_compute; reflexivity|lia|vm_compute; reflexivity|lia].
Defined.

Lemma land_mask_bounds x : 0 <= Z.land x 0x0FFFFFFF < 2 ^ 28.
Proof.
  change 0x0FFFFFFF with (Z.ones 28). rewrite Z.land_ones by lia.
  apply Z.mod_pos_bound. lia.
Qed.

Lemma read_fat_value_done disk cluster s v s' :
  read_fat_value disk cluster s = Done (v, s') -> 0 <= v < 2 ^ 28.
Proof.
  unfold read_fat_value. intros Hrun.
  destruct (bind_done _ _ _ _ _ Hrun) as (bs & s1 & _ & H1). clear Hrun.
  destruct (bind_done _ _ _ _ _ H1) as (g & s2 & _ & H2). clear H1.
  destruct (bind_done _ _ _ _ _ H2) as ([tbl|] & s3 & _ & H3); clear H2.
  - destruct (bind_done _ _ _ _ _ H3) as (x & s4 & _ & H4).
    injection H4 as <- _. apply land_mask_bounds.
  - injection H3 as <- _. lia.
Qed.

(** [next_cluster] never hands the caller an end-of-chain value: what it
    returns is below 0x0FFFFFF8, so the only reserved value a caller can
    see is the bad-cluster mark 0x0FFFFFF7. *)
Theorem next_cluster_below_end_of_chain disk cluster s n s' :
  next_cluster disk cluster s = Done (n, s') -> 0 <= n < 0x0FFFFFF8.
Proof.
  unfold next_cluster. intros Hrun.
  destruct (bind_done _ _ _ _ _ Hrun) as (v & s1 & Hv & H1).
  pose proof (read_fat_value_done _ _ _ _ _ Hv) as Hb.
  destruct (0x0FFFFFF8 <=? v) eqn:Hc; injection H1 as <- _; [lia|].
  apply Z.leb_gt in Hc. lia.
Qed.

Lemma next_cluster_below_end_of_chain_witness :
  result_of (next_cluster disk0 2 small_cached) = Done 0 /\ 0 <= 0 < 0x0FFFFFF8.
Proof.
  assert (H : next_cluster disk0 2 small_cached
              = Done (0, state_after (next_cluster disk0 2 small_cached) small_cached))
    by (vm_compute; reflexivity).
  split; [vm_compute; reflexivity|].
  exact (next_cluster_below_end_of_chain _ _ _ _ _ H).
Defined.

(** When the FAT sector of a cluster cannot be read, [write_fat_value]
    returns false, requests no write and leaves every disk as it was. *)
Theorem write_fat_value_unreadable disk g w bs cluster value :
  fat_bs g = Some bs ->
  (devices w !! dd_uuid disk ≫= fun dev => dev !! fat_sector_of_cluster g bs cluster) = None ->
  write_fat_value disk cluster value (g, w)
  = Done (false,
          (g, {| devices := devices w;
                 io_log := EvRead (dd_uuid disk) (fat_sector_of_cluster g bs cluster) 1
                           :: io_log w |})).
Proof.
  intros Hbs Hsec. unfold write_fat_value, deref_bs, bind at 1 2, get_globals.
  cbn [fst snd]. rewrite Hbs. unfold ret at 1. unfold bind at 1. cbn [fst].
  fold (fat_sector_of_cluster g bs cluster).
  unfold bind, read_sectors. cbn [fst snd].
  destruct (devices w !! dd_uuid disk) as [dev|]; cbn in Hsec; [|reflexivity].
  change (Z.to_nat 1) with 1%nat. cbn [read_run]. rewrite Hsec. reflexivity.
Qed.

Lemma write_fat_value_unreadable_witness :
  write_fat_value disk0 (2 ^ 20) 0x0FFFFFF8 (fst small_cached, snd small_cached)
  = Done (false,
          (fst small_cached,
           {| devices := devices (snd small_cached);
              io_log := EvRead (dd_uuid disk0)
                          (fat_sector_of_cluster (fst small_cached) small_boot (2 ^ 20)) 1
                        :: io_log (snd small_cached) |})).
Proof.
  apply (write_fat_value_unreadable disk0 (fst small_cached) (snd small_cached)
           small_boot (2 ^ 20) 0x0FFFFFF8).
  - vm_compute. reflexivity.
  - vm_compute. reflexivity.
Defined.

(** ** Metadata cache *)

(** Once [cache_disk_partition] has returned for a pair, calling it again
    for that pair returns the same value and does nothing: no sector is
    requested and the globals stay as they are, whatever the disks hold. *)
Theorem cache_disk_partition_idempotent disk partition s b s1 :
  cache_disk_partition disk partition s = Done (b, s1) ->
  forall w2, cache_disk_partition disk partition (fst s1, w2) = Done (b, (fst s1, w2)).
Proof.
  destruct s as [g w], s1 as [g1 w1]. intros Hrun w2.
  destruct (cache_disk_partition_done _ _ _ _ _ _ _ Hrun) as (Hd & Hp & ->).
  cbn [fst]. now apply cache_disk_partition_hit.
Qed.

Lemma cache_disk_partition_idempotent_witness :
  cache_disk_partition disk0 part0 small_state = Done (true, small_cached) /\
  cache_disk_partition disk0 part0 (fst small_cached, truncated_world)
  = Done (true, (fst small_cached, truncated_world)).
Proof.
  assert (H : cache_disk_partition disk0 part0 small_state = Done (true, small_cached))
    by (vm_compute; reflexivity).
  split; [exact H|].
  exact (cache_disk_partition_idempotent _ _ _ _ _ H truncated_world).
Defined.

(** ** Operations that only read *)

Lemma only_reads_refl s : only_reads s s.
Proof. split; [reflexivity|]. now exists []. Qed.

Lemma only_reads_trans s1 s2 s3 : only_reads s1 s2 -> only_reads s2 s3 -> only_reads s1 s3.
Proof.
  intros [Hd1 (e1 & Hl1 & Hn1)] [Hd2 (e2 & Hl2 & Hn2)]. split; [congruence|].
  exists (e2 ++ e1). split; [rewrite Hl2, Hl1; apply app_assoc|].
  unfold no_writes in *. rewrite forallb_app, Hn1, Hn2. reflexivity.
Qed.

Lemma reads_only_ret {A} (a : A) : reads_only (ret a).
Proof. intros s a' s' [= _ <-]. apply only_reads_refl. Qed.

Lemma reads_only_bind {A B} (m : M A) (k : A -> M B) :
  reads_only m -> (forall a, reads_only (k a)) -> reads_only (bind m k).
Proof.
  intros Hm Hk s b s' Hrun. destruct (bind_done _ _ _ _ _ Hrun) as (a & s1 & H1 & H2).
  exact (only_reads_trans _ _ _ (Hm _ _ _ H1) (Hk _ _ _ _ H2)).
Qed.

Lemma reads_only_lift {A} (o : outcome A) : reads_only (lift o).
Proof.
  intros s a s'. unfold lift. destruct o; [|discriminate..].
  intros [= _ <-]. apply only_reads_refl.
Qed.

Lemma reads_only_crash {A} f : reads_only (@crash A f).
Proof. intros s a s'. discriminate. Qed.

Lemma reads_only_timeout {A} : reads_only (@timeout A).
Proof. intros s a s'. discriminate. Qed.

Lemma reads_only_get_globals : reads_only get_globals.
Proof. intros s a s' [= _ <-]. apply only_reads_refl. Qed.

Lemma reads_only_put_globals g : reads_only (put_globals g).
Proof. intros s a s' [= _ <-]. split; [reflexivity|]. now exists []. Qed.

Lemma reads_only_read_sectors disk lba count : reads_only (read_sectors disk lba count).
Proof.
  intros s a s' [= _ <-]. split; [reflexivity|].
  now exists [EvRead (dd_uuid disk) lba count].
Qed.

Create HintDb reads_only.
#[local] Hint Resolve reads_only_ret reads_only_lift reads_only_crash reads_only_timeout
  reads_only_get_globals reads_only_put_globals reads_only_read_sectors : reads_only.

(** Walks down a computation: binds are split, case distinctions on
    values are made, and the leaves are closed from the hint base. *)
Ltac reads_only_walk :=
  repeat first
    [ solve [eauto with reads_only]
    | apply reads_only_bind; [|intros ?]
    | match goal with
      | |- reads_only (match ?x with _ => _ end) => destruct x
      | |- reads_only (let '(_, _) := ?x in _) => destruct x
      end ].

Lemma reads_only_deref_bs : reads_only deref_bs.
Proof. unfold deref_bs. reads_only_walk. Qed.

Lemma reads_only_deref_is : reads_only deref_is.
Proof. unfold deref_is. reads_only_walk. Qed.

Lemma reads_only_set_fat_bs r : reads_only (set_fat_bs r).
Proof. unfold set_fat_bs. reads_only_walk. Qed.

Lemma reads_only_set_fat_is_ptr r : reads_only (set_fat_is_ptr r).
Proof. unfold set_fat_is_ptr. reads_only_walk. Qed.

#[local] Hint Resolve reads_only_deref_bs reads_only_deref_is reads_only_set_fat_bs
  reads_only_set_fat_is_ptr : reads_only.

Lemma reads_only_cluster_lba cluster : reads_only (cluster_lba cluster).
Proof. unfold cluster_lba. reads_only_walk. Qed.

Lemma reads_only_read_fat_value disk cluster : reads_only (read_fat_value disk cluster).
Proof. unfold read_fat_value. reads_only_walk. Qed.

#[local] Hint Resolve reads_only_cluster_lba reads_only_read_fat_value : reads_only.

Lemma reads_only_next_cluster disk cluster : reads_only (next_cluster disk cluster).
Proof. unfold next_cluster. reads_only_walk. Qed.

#[local] Hint Resolve reads_only_next_cluster : reads_only.

Lemma reads_only_cache_disk_partition disk partition :
  reads_only (cache_disk_partition disk partition).
Proof. unfold cache_disk_partition, cache_bs, cache_is. reads_only_walk. Qed.

Lemma reads_only_find_free_cluster_loop disk fat_begin spc todo : forall j,
  reads_only (find_free_cluster_loop disk fat_begin spc j todo).
Proof.
  induction todo as [|todo IH]; intros j; cbn [find_free_cluster_loop]; reads_only_walk.
Qed.

Lemma reads_only_find_free_cluster disk : reads_only (find_free_cluster disk).
Proof.
  unfold find_free_cluster. pose proof reads_only_find_free_cluster_loop. reads_only_walk.
Qed.

Lemma reads_only_files_loop pf disk spc fuel : forall cluster_number st,
  reads_only (files_loop pf fuel disk spc cluster_number st).
Proof.
  induction fuel as [|fuel IH]; intros cluster_number st; cbn [files_loop]; reads_only_walk.
Qed.

Lemma reads_only_files pf fuel disk cluster_number :
  reads_only (files pf fuel disk cluster_number).
Proof. unfold files. pose proof reads_only_files_loop. reads_only_walk. Qed.

#[local] Hint Resolve reads_only_files reads_only_cache_disk_partition : reads_only.

Lemma reads_only_find_cluster_number_loop pf fuel disk path : forall cluster_number,
  reads_only (find_cluster_number_loop pf fuel disk cluster_number path).
Proof.
  induction path as [|p rest IH]; intros cluster_number; cbn [find_cluster_number_loop];
    reads_only_walk.
Qed.

Lemma reads_only_find_cluster_number pf fuel disk path :
  reads_only (find_cluster_number pf fuel disk path).
Proof.
  unfold find_cluster_number. pose proof reads_only_find_cluster_number_loop.
  reads_only_walk.
Qed.

#[local] Hint Resolve reads_only_find_cluster_number : reads_only.

Lemma reads_only_files_path pf fuel disk path : reads_only (files_path pf fuel disk path).
Proof. unfold files_path. reads_only_walk. Qed.

#[local] Hint Resolve reads_only_files_path : reads_only.

Lemma reads_only_read_file_loop disk file_size fuel : forall cluster_number read content,
  reads_only (read_file_loop fuel disk file_size cluster_number read content).
Proof.
  induction fuel as [|fuel IH]; intros cluster_number read content; cbn [read_file_loop];
    reads_only_walk.
Qed.

(** The three reading operations never write: whatever they return, the
    disks hold what they held and the requests issued are reads. *)
Theorem reading_operations_never_write pf fuel disk partition path name s :
  (forall v s', free_size disk partition s = Done (v, s') -> only_reads s s') /\
  (forall l s', ls pf fuel disk partition path s = Done (l, s') -> only_reads s s') /\
  (forall c s', read_file pf fuel disk partition path name s = Done (c, s') ->
                only_reads s s').
Proof.
  split; [|split]; intros a s'.
  - assert (H : reads_only (free_size disk partition))
      by (unfold free_size; reads_only_walk).
    apply H.
  - assert (H : reads_only (ls pf fuel disk partition path))
      by (unfold ls; reads_only_walk).
    apply H.
  - assert (H : reads_only (read_file pf fuel disk partition path name))
      by (unfold read_file; pose proof reads_only_read_file_loop; reads_only_walk).
    apply H.
Qed.

Lemma reading_operations_never_write_witness :
  only_reads small_state (state_after (ls x86_64 1 disk0 part0 [] small_state) small_state).
Proof.
  apply (proj1 (proj2 (reading_operations_never_write x86_64 1%nat disk0 part0 [] []
                         small_state)) [docs_record]).
  vm_compute. reflexivity.
Defined.

(** ** Free space *)

(** [free_size] does nothing but the (possibly cached) load, and computes
    [free_clusters * sectors_per_cluster * 512] of the cached sectors in 32
    bits: it returns that product modulo 2^32, or 0 when the cache is not
    loaded, so what it reports is always a multiple of 512 below 4 GiB. *)
Theorem free_size_is_32_bit disk partition g w v s' :
  free_size disk partition (g, w) = Done (v, s') ->
  cache_disk_partition disk partition (g, w) = Done (cache_ready (fst s'), s') /\
  v = match fat_bs (fst s'), fat_is (fst s') with
      | Some bs, Some fi =>
          (is_free_clusters fi * bs_sectors_per_cluster bs * 512) mod 2 ^ 32
      | _, _ => 0
      end /\
  0 <= v < 2 ^ 32 /\ v mod 512 = 0.
Proof.
  unfold free_size. intros Hrun.
  destruct (bind_done _ _ _ _ _ Hrun) as (ok & [g1 w1] & Hcache & H1).
  destruct (cache_disk_partition_done _ _ _ _ _ _ _ Hcache) as (_ & _ & Hok).
  assert (Hmod : forall x, 0 <= u32 (x * 512) < 2 ^ 32 /\ u32 (x * 512) mod 512 = 0).
  { intros x. split; [apply Z.mod_pos_bound; lia|].
    unfold u32. change (2 ^ 32) with (2 ^ 23 * 512).
    rewrite Z.mul_mod_distr_r by lia. apply Z.mod_mul. lia. }
  destruct ok; cbn [negb] in H1.
  - destruct (bind_done _ _ _ _ _ H1) as (fi & s2 & Hfi & H2).
    destruct (bind_done _ _ _ _ _ H2) as (bs & s3 & Hbs & H3).
    injection H3 as <- <-.
    revert Hfi. unfold deref_is, bind, get_globals. cbn [fst].
    destruct (fat_is g1) as [fi'|] eqn:Efi; [|discriminate]. intros [= -> <-].
    revert Hbs. unfold deref_bs, bind, get_globals. cbn [fst].
    destruct (fat_bs g1) as [bs'|] eqn:Ebs; [|discriminate]. intros [= -> <-].
    cbn [fst]. rewrite Efi, Ebs.
    split; [now rewrite <- Hok|]. split; [|apply Hmod].
    unfold u32. now rewrite Z.mul_mod_idemp_l by lia.
  - injection H1 as <- <-. cbn [fst].
    split; [now rewrite <- Hok|]. split; [|split; [lia|reflexivity]].
    revert Hok. unfold cache_ready. destruct (fat_bs g1), (fat_is g1); congruence.
Qed.

Lemma free_size_is_32_bit_witness :
  result_of (free_size disk0 part0 wide_state) = Done 0x20000000 /\
  0x20000000 = (0x900000 * 1 * 512) mod 2 ^ 32 /\
  0 <= 0x20000000 < 2 ^ 32 /\ 0x20000000 mod 512 = 0.
Proof.
  assert (H : free_size disk0 part0 (fst wide_state, snd wide_state)
              = Done (0x20000000, state_after (free_size disk0 part0 wide_state) wide_state))
    by (vm_compute; reflexivity).
  split; [vm_compute; reflexivity|].
  destruct (free_size_is_32_bit _ _ _ _ _ _ H) as (_ & Hv & Hrange).
  split; [|exact Hrange]. vm_compute. reflexivity.
Defined.

(** ** Reading files *)

(** A name that is not listed, or whose record has size 0, reads as the
    empty string, and no cluster is requested after the listing. *)
Theorem read_file_without_content pf fuel disk partition path name st st1 all_files st2 :
  cache_disk_partition disk partition st = Done (true, st1) ->
  files_path pf fuel disk path st1 = Done (all_files, st2) ->
  match find (fun f => bytes_eqb (file_name f) name) all_files with
  | Some f => size f = 0
  | None => True
  end ->
  read_file pf fuel disk partition path name st = Done ([], st2).
Proof.
  intros Hcache Hfiles Hfind. unfold read_file.
  rewrite (bind_run _ _ _ _ _ Hcache). cbn [negb].
  rewrite (bind_run _ _ _ _ _ Hfiles).
  destruct (find _ all_files) as [f|]; [|reflexivity].
  rewrite Hfind. reflexivity.
Qed.

Lemma read_file_without_content_witness :
  read_file x86_64 1 disk0 part0 [] name_NOPE small_state = Done ([], small_listed).
Proof.
  apply (read_file_without_content x86_64 1%nat disk0 part0 [] name_NOPE small_state
           small_cached [docs_record] small_listed).
  - vm_compute. reflexivity.
  - vm_compute. reflexivity.
  - vm_compute. exact I.
Defined.

(** ** Listing *)

(** A listing ends at the first end-of-directory marker: the slots behind
    it have no influence on the result, whatever they hold. *)
Theorem scan_cluster_stops_at_end_marker pf spc before marker behind st :
  end_of_directory marker = true ->
  scan_cluster pf spc (before ++ marker :: behind) st
  = match scan_cluster pf spc before st with
    | Done (st', _) => Done (st', true)
    | Crash f => Crash f
    | Timeout => Timeout
    end.
Proof.
  intros Hmarker. revert st.
  induction before as [|entry rest IH]; intros st; cbn [app scan_cluster].
  - now rewrite Hmarker.
  - destruct (end_of_directory entry); [reflexivity|].
    destruct (entry_used pf entry); [|apply IH].
    destruct (if is_long_name entry then decode_long_entry entry st
              else scan_short_entry spc entry st); [apply IH|reflexivity..].
Qed.

Lemma scan_cluster_stops_at_end_marker_witness :
  scan_cluster x86_64 1 ([docs_entry] ++ zero_entry :: [used_entry; used_entry])
    (initial_scan x86_64)
  = scan_cluster x86_64 1 ([docs_entry] ++ zero_entry :: []) (initial_scan x86_64) /\
  match scan_cluster x86_64 1 ([docs_entry] ++ zero_entry :: [used_entry; used_entry])
          (initial_scan x86_64) with
  | Done (st', ended) => sc_files st' = [docs_record] /\ ended = true
  | _ => False
  end.
Proof.
  split.
  - rewrite !(scan_cluster_stops_at_end_marker x86_64 1 [docs_entry] zero_entry)
      by reflexivity.
    reflexivity.
  - vm_compute. split; reflexivity.
Defined.

Lemma decode_units_in_bounds us : forall ended l buffer,
  0 <= l -> l + Z.of_nat (length us) <= 256 ->
  exists ended' l' buffer',
    decode_units us (ended, l, buffer) = Done (ended', l', buffer') /\
    l <= l' <= l + Z.of_nat (length us).
Proof.
  induction us as [|u rest IH]; intros ended l buffer Hl Hfit; cbn [decode_units length] in *.
  - exists ended, l, buffer. split; [reflexivity|lia].
  - unfold decode_unit. destruct ended.
    + destruct (IH true l buffer) as (e' & l' & b' & Hrun & Hb); [lia|lia|].
      exists e', l', b'. split; [exact Hrun|lia].
    + destruct ((u =? 0) || (u =? 0xFF)).
      * destruct (IH true l buffer) as (e' & l' & b' & Hrun & Hb); [lia|lia|].
        exists e', l', b'. split; [exact Hrun|lia].
      * destruct (l <? 256) eqn:Hlt; [|apply Z.ltb_ge in Hlt; lia].
        assert (Hw : u64 (l + 1) = l + 1) by (unfold u64; apply Z.mod_small; lia).
        rewrite Hw.
        destruct (IH false (l + 1) (<[Z.to_nat l := u8 u]> buffer))
          as (e' & l' & b' & Hrun & Hb); [lia|lia|].
        exists e', l', b'. split; [exact Hrun|lia].
Qed.

Lemma decode_long_entry_in_bounds l_entry st :
  1 <= lde_ordinal l_entry <= 19 -> 0 <= sc_i st <= 256 ->
  exists st', decode_long_entry l_entry st = Done st' /\
              sc_files st' = sc_files st /\ 0 <= sc_i st' <= 256.
Proof.
  intros Hord Hi. unfold decode_long_entry. fold (lde_ordinal l_entry).
  assert (Hl : u64 ((lde_ordinal l_entry - 1) * 13) = (lde_ordinal l_entry - 1) * 13)
    by (unfold u64; apply Z.mod_small; lia).
  rewrite Hl.
  destruct (decode_units_in_bounds (map (le_name_first l_entry) [0; 1; 2; 3; 4]%nat)
              false ((lde_ordinal l_entry - 1) * 13) (sc_buffer st))
    as (e1 & l1 & b1 & H1 & B1); [lia|cbn; lia|].
  rewrite H1. cbn [length map] in B1.
  destruct (decode_units_in_bounds (map (le_name_second l_entry) [0; 1; 2; 3; 4; 5]%nat)
              e1 l1 b1) as (e2 & l2 & b2 & H2 & B2); [lia|cbn; lia|].
  rewrite H2. cbn [length map] in B2.
  destruct (decode_units_in_bounds (map (le_name_third l_entry) [0; 1]%nat) e2 l2 b2)
    as (e3 & l3 & b3 & H3 & B3); [lia|cbn; lia|].
  rewrite H3. cbn [length map] in B3.
  eexists. split; [reflexivity|]. cbn [sc_files sc_i]. split; [reflexivity|].
  destruct (sc_i st <? l3); lia.
Qed.

(** The decoder of long entries stays inside [long_name_buffer]: a
    directory cluster whose long entries carry the ordinals 1..19 is
    listed without a fault, wherever the listing starts from a name length
    within the buffer. *)
Theorem scan_cluster_in_bounds pf spc cluster : forall st,
  Forall (fun e => is_long_name e = true -> 1 <= lde_ordinal e <= 19) cluster ->
  0 <= sc_i st <= 256 ->
  exists st' ended, scan_cluster pf spc cluster st = Done (st', ended).
Proof.
  induction cluster as [|entry rest IH]; intros st Hall Hi; cbn [scan_cluster].
  - now exists st, false.
  - destruct (end_of_directory entry); [now exists st, true|].
    apply Forall_cons in Hall. destruct Hall as [Hentry Hrest].
    destruct (entry_used pf entry); [|now apply IH].
    destruct (is_long_name entry).
    + destruct (decode_long_entry_in_bounds entry st (Hentry eq_refl) Hi)
        as (st' & Hrun & _ & Hi').
      rewrite Hrun. now apply IH.
    + unfold scan_short_entry. destruct (sc_long_name st).
      * destruct (sc_i st <=? 256) eqn:Hle; [|apply Z.leb_gt in Hle; lia].
        apply IH; [exact Hrest|cbn; lia].
      * apply IH; [exact Hrest|cbn; lia].
Qed.

Lemma scan_cluster_in_bounds_witness :
  exists st' ended, scan_cluster x86_64 8 twelve_cluster (initial_scan x86_64) = Done (st', ended).
Proof.
  apply scan_cluster_in_bounds.
  - unfold twelve_cluster.
    repeat (constructor;
            [intros Hlong; first [discriminate Hlong | vm_compute; split; discriminate]|]).
    constructor.
  - vm_compute. split; discriminate.
Defined.

(** ** Searching the FAT for a free cluster *)

Lemma scan_fat_sector_spec fat_table j todo : forall i,
  match scan_fat_sector fat_table j i todo with
  | Some c =>
      exists i', (i <= i' < i + todo)%nat /\ c = u32 (Z.of_nat i' + j * 128) /\
                 (j = 0 -> (2 <= i')%nat) /\ table_value fat_table i' = 0 /\
                 forall k, (i <= k < i')%nat -> (j = 0 /\ (k < 2)%nat) \/ table_value fat_table k <> 0
  | None =>
      forall k, (i <= k < i + todo)%nat -> (j = 0 /\ (k < 2)%nat) \/ table_value fat_table k <> 0
  end.
Proof.
  induction todo as [|todo IH]; intros i; cbn [scan_fat_sector].
  - intros k Hk. lia.
  - destruct ((j =? 0) && (Z.of_nat i <? 2)) eqn:Hskip.
    + apply andb_true_iff in Hskip. destruct Hskip as [Hj Hi].
      apply Z.eqb_eq in Hj. apply Z.ltb_lt in Hi.
      specialize (IH (S i)). destruct (scan_fat_sector fat_table j (S i) todo) as [c|].
      * destruct IH as (i' & Hr & Hc & H2 & Hv & Hbelow).
        exists i'. repeat split; try assumption; try lia.
        intros k Hk. destruct (decide (k = i)) as [->|]; [left; split; [exact Hj|lia]|].
        apply Hbelow. lia.
      * intros k Hk. destruct (decide (k = i)) as [->|]; [left; split; [exact Hj|lia]|].
        apply IH. lia.
    + fold (table_value fat_table i).
      destruct (table_value fat_table i =? 0) eqn:Hv.
      * apply Z.eqb_eq in Hv. exists i. repeat split; try assumption; try lia.
      * apply Z.eqb_neq in Hv.
        specialize (IH (S i)). destruct (scan_fat_sector fat_table j (S i) todo) as [c|].
        -- destruct IH as (i' & Hr & Hc & H2 & Hv' & Hbelow).
           exists i'. repeat split; try assumption; try lia.
           intros k Hk. destruct (decide (k = i)) as [->|]; [now right|].
           apply Hbelow. lia.
        -- intros k Hk. destruct (decide (k = i)) as [->|]; [now right|].
           apply IH. lia.
Qed.

Lemma cluster_in_sector j c :
  0 <= j -> 128 * j <= c < 128 * j + 128 ->
  c / 128 = j /\ c mod 128 = c - 128 * j.
Proof.
  intros Hj Hc. assert (Hq : c / 128 = j).
  { symmetry. apply (Z.div_unique c 128 j (c - 128 * j)); lia. }
  split; [exact Hq|]. pose proof (Z.div_mod c 128 ltac:(lia)). lia.
Qed.

Lemma find_free_cluster_loop_spec disk dev fat_begin spc todo : forall j g w c s',
  devices w !! dd_uuid disk = Some dev ->
  0 <= j -> 128 * (j + Z.of_nat todo) <= 2 ^ 32 ->
  find_free_cluster_loop disk fat_begin spc j todo (g, w) = Done (c, s') -> c <> 0 ->
  128 * j <= c /\ 2 <= c /\
  scanned_fat_value dev fat_begin spc c = Some 0 /\
  forall c', 128 * j <= c' < c -> 2 <= c' ->
             exists v, scanned_fat_value dev fat_begin spc c' = Some v /\ v <> 0.
Proof.
  induction todo as [|todo IH]; intros j g w c s' Hdev Hj Hbound; cbn [find_free_cluster_loop].
  - intros [= <- _] Hc. lia.
  - intros Hrun Hc.
    destruct (dev !! u64 (fat_begin + j * spc)) as [sector|] eqn:Hsec.
    2:{ rewrite (bind_run _ _ _ _ _ (read_sectors_one_fail _ _ _ _ _ Hdev Hsec)) in Hrun.
        injection Hrun as <- _. lia. }
    rewrite (bind_run _ _ _ _ _ (read_sectors_one _ _ _ _ _ _ Hdev Hsec)) in Hrun.
    pose proof (scan_fat_sector_spec (resize 512 0 sector) j 128 0) as Hscan.
    assert (Hval : forall c', 128 * j <= c' < 128 * j + 128 ->
              scanned_fat_value dev fat_begin spc c'
              = Some (table_value (resize 512 0 sector) (Z.to_nat (c' - 128 * j)))).
    { intros c' Hc'. unfold scanned_fat_value.
      destruct (cluster_in_sector j c' Hj Hc') as [-> ->]. now rewrite Hsec. }
    destruct (scan_fat_sector (resize 512 0 sector) j 0 128) as [c0|].
    + injection Hrun as <- _.
      destruct Hscan as (i' & Hr & Hc0 & H2 & Hv & Hbelow).
      assert (Hc0' : c0 = Z.of_nat i' + j * 128)
        by (rewrite Hc0; unfold u32; apply Z.mod_small; lia).
      split; [lia|]. split; [destruct (decide (j = 0)) as [Hj0|]; [specialize (H2 Hj0)|]; lia|].
      split.
      * rewrite Hval by lia. f_equal.
        replace (Z.to_nat (c0 - 128 * j)) with i' by lia. exact Hv.
      * intros c' Hc' H2'. rewrite Hval by lia. eexists. split; [reflexivity|].
        destruct (Hbelow (Z.to_nat (c' - 128 * j)) ltac:(lia)) as [[Hj0 Hk]|Hne];
          [lia|exact Hne].
    + eapply IH in Hrun; [|exact Hdev|lia|lia|exact Hc].
      destruct Hrun as (Hlow & H2 & Hzero & Hbelow).
      split; [lia|]. split; [exact H2|]. split; [exact Hzero|].
      intros c' Hc' H2'. destruct (Z_lt_le_dec c' (128 * (j + 1))) as [Hin|Hout].
      * rewrite Hval by lia. eexists. split; [reflexivity|].
        destruct (Hscan (Z.to_nat (c' - 128 * j)) ltac:(lia)) as [[Hj0 Hk]|Hne];
          [lia|exact Hne].
      * apply Hbelow; lia.
Qed.

(** A cluster reported by [find_free_cluster] is at least 2, its entry in
    the sector the scan read for it is zero, and no cluster below it has a
    zero entry there: the scan returns the first free entry it sees. *)
Theorem find_free_cluster_first_seen disk g w bs dev c s' :
  fat_bs g = Some bs -> devices w !! dd_uuid disk = Some dev ->
  128 * fat_size bs <= 2 ^ 32 ->
  find_free_cluster disk (g, w) = Done (c, s') -> c <> 0 ->
  2 <= c /\
  scanned_fat_value dev (fat_begin_of g bs) (bs_sectors_per_cluster bs) c = Some 0 /\
  forall c', 2 <= c' < c ->
    exists v, scanned_fat_value dev (fat_begin_of g bs) (bs_sectors_per_cluster bs) c' = Some v /\
              v <> 0.
Proof.
  intros Hbs Hdev Hsize Hrun Hc. unfold find_free_cluster, deref_bs, bind at 1 2, get_globals in Hrun.
  cbn [fst snd] in Hrun. rewrite Hbs in Hrun. unfold ret at 1 in Hrun.
  unfold bind at 1 in Hrun. cbn [fst] in Hrun.
  assert (Hfs : 0 <= fat_size bs) by (unfold fat_size, u32; apply Z.mod_pos_bound; lia).
  eapply find_free_cluster_loop_spec in Hrun; [|exact Hdev|lia|lia|exact Hc].
  destruct Hrun as (_ & H2 & Hzero & Hbelow).
  split; [exact H2|]. split; [exact Hzero|].
  intros c' Hc'. apply Hbelow; lia.
Qed.

Lemma find_free_cluster_first_seen_witness :
  result_of (find_free_cluster disk0 small_cached) = Done 4 /\
  2 <= 4 /\
  scanned_fat_value small_device (fat_begin_of (fst small_cached) small_boot)
    (bs_sectors_per_cluster small_boot) 4 = Some 0 /\
  forall c', 2 <= c' < 4 ->
    exists v, scanned_fat_value small_device (fat_begin_of (fst small_cached) small_boot)
                (bs_sectors_per_cluster small_boot) c' = Some v /\ v <> 0.
Proof.
  split; [vm_compute; reflexivity|].
  apply (find_free_cluster_first_seen disk0 (fst small_cached) (snd small_cached)
           small_boot small_device 4
           (state_after (find_free_cluster disk0 small_cached) small_cached)).
  - vm_compute. reflexivity.
  - vm_compute. reflexivity.
  - vm_compute. discriminate.
  - vm_compute. reflexivity.
  - lia.
Defined.

(** When the first FAT sector can be read and holds a zero entry for some
    cluster of 2..127, [find_free_cluster] returns a cluster, at most that
    one, for any cluster size. *)
Theorem find_free_cluster_first_sector disk g w bs dev sector c0 :
  fat_bs g = Some bs -> devices w !! dd_uuid disk = Some dev ->
  0 < fat_size bs ->
  dev !! u64 (fat_begin_of g bs + 0 * bs_sectors_per_cluster bs) = Some sector ->
  2 <= c0 < 128 -> table_value (resize 512 0 sector) (Z.to_nat c0) = 0 ->
  exists c s', find_free_cluster disk (g, w) = Done (c, s') /\ 2 <= c <= c0 /\
               table_value (resize 512 0 sector) (Z.to_nat c) = 0.
Proof.
  intros Hbs Hdev Hsize Hsec Hc0 Hfree.
  unfold find_free_cluster, deref_bs, bind at 1 2, get_globals.
  cbn [fst snd]. rewrite Hbs. unfold ret at 1. unfold bind at 1. cbn [fst].
  destruct (Z.to_nat (fat_size bs)) as [|todo] eqn:Htodo; [lia|].
  cbn [find_free_cluster_loop].
  rewrite (bind_run _ _ _ _ _ (read_sectors_one _ _ _ _ _ _ Hdev Hsec)).
  pose proof (scan_fat_sector_spec (resize 512 0 sector) 0 128 0) as Hscan.
  destruct (scan_fat_sector (resize 512 0 sector) 0 0 128) as [c|].
  - destruct Hscan as (i' & Hr & Hc & H2 & Hv & Hbelow). specialize (H2 eq_refl).
    assert (Hc' : c = Z.of_nat i')
      by (rewrite Hc, Z.mul_0_l, Z.add_0_r; unfold u32; apply Z.mod_small; lia).
    clear Hc. subst c.
    eexists _, _. split; [reflexivity|]. rewrite Nat2Z.id. split; [|exact Hv].
    split; [lia|]. destruct (Z_le_gt_dec (Z.of_nat i') c0) as [Hle|Hgt]; [exact Hle|].
    destruct (Hbelow (Z.to_nat c0) ltac:(lia)) as [[_ Hk]|Hne]; [lia|contradiction].
  - destruct (Hscan (Z.to_nat c0) ltac:(lia)) as [[_ Hk]|Hne]; [lia|contradiction].
Qed.

Lemma find_free_cluster_first_sector_witness :
  exists c s',
    find_free_cluster disk0 (fst small_cached, snd small_cached) = Done (c, s') /\
    2 <= c <= 5 /\ table_value (resize 512 0 small_fat) (Z.to_nat c) = 0.
Proof.
  apply (find_free_cluster_first_sector disk0 (fst small_cached) (snd small_cached)
           small_boot small_device small_fat 5).
  - vm_compute. reflexivity.
  - vm_compute. reflexivity.
  - vm_compute. reflexivity.
  - vm_compute. reflexivity.
  - lia.
  - vm_compute. reflexivity.
Defined.

(** ** Granting directory slots *)

Lemma free_sequence_run_free pf entries cluster : forall pre sz s st en,
  free_sequence pf cluster entries (length pre) sz = (s, st, en) ->
  s = entries -> 0 <= sz < entries -> sz <= Z.of_nat (length pre) ->
  (forall i, Z.of_nat (length pre) - sz <= Z.of_nat i < Z.of_nat (length pre) ->
             slot_free pf (pre ++ cluster) i) ->
  forall i, (st <= i <= en)%nat -> slot_free pf (pre ++ cluster) i.
Proof.
  induction cluster as [|entry rest IH]; intros pre sz s st en; cbn [free_sequence].
  - intros [= <- <- <-] Hs Hsz. lia.
  - destruct (end_of_directory entry || entry_unused pf entry) eqn:Hfree.
    + destruct (sz + 1 =? entries) eqn:Hfull.
      * intros [= <- <- <-] _ Hsz Hpre Hbefore i Hi. apply Z.eqb_eq in Hfull.
        destruct (decide (i = length pre)) as [->|Hne].
        -- exists entry. split; [|exact Hfree].
           rewrite lookup_app_r by lia. now rewrite Nat.sub_diag.
        -- apply Hbefore. lia.
      * intros Hrec Hs Hsz Hpre Hbefore. apply Z.eqb_neq in Hfull.
        replace (pre ++ entry :: rest) with ((pre ++ [entry]) ++ rest)
          by (now rewrite <- app_assoc).
        apply (IH (pre ++ [entry]) (sz + 1) s st en);
          [rewrite length_app; cbn [length]; rewrite Nat.add_1_r; exact Hrec
          |exact Hs|lia|rewrite length_app; cbn [length]; lia|].
        rewrite length_app. cbn [length]. intros i Hi.
        rewrite <- app_assoc. cbn [app].
        destruct (decide (i = length pre)) as [->|Hne].
        -- exists entry. split; [|exact Hfree].
           rewrite lookup_app_r by lia. now rewrite Nat.sub_diag.
        -- apply Hbefore. lia.
    + intros Hrec Hs Hsz Hpre Hbefore.
      replace (pre ++ entry :: rest) with ((pre ++ [entry]) ++ rest)
        by (now rewrite <- app_assoc).
      apply (IH (pre ++ [entry]) 0 s st en);
        [rewrite length_app; cbn [length]; rewrite Nat.add_1_r; exact Hrec
        |exact Hs|lia|lia|].
      intros i Hi. lia.
Qed.

Lemma scan_new_end_free pf cluster sequence_end i acc new_end :
  scan_new_end pf cluster sequence_end i acc = Some new_end ->
  acc = Some new_end \/ slot_free pf cluster new_end.
Proof.
  revert acc. induction i as [|i IH]; intros acc; cbn -[Nat.leb].
  - intros ->. now left.
  - destruct (S i <=? sequence_end)%nat; [intros ->; now left|].
    destruct (cluster !! S i) as [entry|] eqn:Hentry; [|intros ->; now left].
    destruct (end_of_directory entry || entry_unused pf entry) eqn:Hfree;
      [|intros ->; now left].
    intros Hrec. destruct (IH _ Hrec) as [[= <-] | Hr]; [|now right].
    right. now exists entry.
Qed.

Lemma set_name0_lookup i v cluster j e :
  cluster !! j = Some e ->
  exists e', set_name0 i v cluster !! j = Some e' /\ drop 1 e' = drop 1 e /\
             (i <> j -> e' = e).
Proof.
  intros Hj. unfold set_name0. destruct (decide (i = j)) as [->|Hne].
  - rewrite list_lookup_alter_eq, Hj. eexists. split; [reflexivity|].
    split; [|congruence]. unfold set_u8. now destruct e.
  - rewrite list_lookup_alter_ne by exact Hne. now exists e.
Qed.

Lemma find_free_entry_run pf directory_cluster entries start cluster' :
  0 < entries ->
  find_free_entry pf directory_cluster entries = Some (start, cluster') ->
  Z.of_nat start + entries <= Z.of_nat (length directory_cluster) /\
  length cluster' = length directory_cluster /\
  (forall i, Z.of_nat start <= Z.of_nat i < Z.of_nat start + entries ->
             slot_free pf directory_cluster i) /\
  (forall i e, directory_cluster !! i = Some e ->
     exists e', cluster' !! i = Some e' /\ drop 1 e' = drop 1 e /\
                ((end_of_directory e || entry_unused pf e) = false -> e' = e)).
Proof.
  intros Hentries. unfold find_free_entry.
  destruct (first_end_of_directory directory_cluster 0) as [end_|] eqn:Hend; [|discriminate].
  destruct (first_end_of_directory_marker _ _ _ Hend) as [_ (e_end & He_end & Hm_end)].
  rewrite Nat.sub_0_r in He_end.
  destruct (free_sequence pf directory_cluster entries 0 0) as [[s st] en] eqn:Hseq.
  destruct (s =? entries) eqn:Hs; cbn [negb]; [|discriminate].
  apply Z.eqb_eq in Hs.
  destruct (free_sequence_run pf _ _ _ _ _ _ _ Hseq) as [Hst Hen]; [lia|lia|exact Hs|].
  pose proof (free_sequence_run_free pf entries directory_cluster [] 0 s st en Hseq Hs
                ltac:(lia) ltac:(cbn; lia) ltac:(cbn; intros; lia)) as Hrun.
  cbn [app] in Hrun.
  destruct (end_ <=? en)%nat eqn:Hcase.
  - destruct (scan_new_end pf directory_cluster en (length directory_cluster - 1) None)
      as [new_end|] eqn:Hscan; [|discriminate].
    intros [= <- <-].
    destruct (scan_new_end_free _ _ _ _ _ _ Hscan) as [Habs | (e_new & He_new & Hf_new)];
      [discriminate|].
    split; [lia|]. split; [unfold set_name0; now rewrite !length_alter|]. split.
    + intros i Hi. apply Hrun. lia.
    + intros i e Hi.
      destruct (set_name0_lookup end_ 0xE5 _ _ _ Hi) as (e1 & H1 & Hd1 & Hk1).
      destruct (set_name0_lookup new_end 0 _ _ _ H1) as (e2 & H2 & Hd2 & Hk2).
      exists e2. split; [exact H2|]. split; [congruence|].
      intros Hused.
      assert (end_ <> i).
      { intros ->. rewrite He_end in Hi. injection Hi as <-.
        rewrite Hm_end in Hused. discriminate. }
      assert (new_end <> i).
      { intros ->. rewrite He_new in Hi. injection Hi as <-. congruence. }
      rewrite Hk2, Hk1 by assumption. reflexivity.
  - intros [= <- <-]. split; [lia|]. split; [reflexivity|]. split.
    + intros i Hi. apply Hrun. lia.
    + intros i e Hi. now exists e.
Qed.

(** The run [find_free_entry] grants is made of [entries] slots of the
    array, each of them free before the call (end marker or unused
    mark); the call changes nothing but the first byte of slots, and
    every entry in use is left as it was. *)
Theorem find_free_entry_grants_free_slots pf directory_cluster entries start cluster' :
  0 < entries ->
  find_free_entry pf directory_cluster entries = Some (start, cluster') ->
  let granted := take (Z.to_nat entries) (drop start directory_cluster) in
  Z.of_nat (length granted) = entries /\
  Forall (fun e => (end_of_directory e || entry_unused pf e) = true) granted /\
  Forall2 (fun e e' => drop 1 e' = drop 1 e /\
                       ((end_of_directory e || entry_unused pf e) = false -> e' = e))
    directory_cluster cluster'.
Proof.
  intros Hentries Hfind.
  destruct (find_free_entry_run pf directory_cluster entries start cluster' Hentries Hfind)
    as (Hfit & Hlen & Hfree & Hkeep).
  cbv zeta. split; [rewrite length_take, length_drop; lia|]. split.
  - apply Forall_lookup. intros i e Hi.
    apply lookup_take_Some in Hi. destruct Hi as [Hi Hlt]. rewrite lookup_drop in Hi.
    destruct (Hfree (start + i)%nat ltac:(lia)) as (e' & He' & Hf). congruence.
  - apply Forall2_same_length_lookup_2; [now symmetry|].
    intros i e e' Hi Hi'. destruct (Hkeep i e Hi) as (e1 & He1 & Hd & Hk).
    assert (e1 = e') by congruence. subst e1. now split.
Qed.

Lemma find_free_entry_grants_free_slots_witness :
  let granted := take (Z.to_nat 3) (drop 0 scenario_root) in
  find_free_entry x86_64 scenario_root 3
  = Some (0%nat, set_name0 3 0 (set_name0 0 0xE5 scenario_root)) /\
  Z.of_nat (length granted) = 3 /\
  Forall (fun e => (end_of_directory e || entry_unused x86_64 e) = true) granted.
Proof.
  assert (H : find_free_entry x86_64 scenario_root 3
              = Some (0%nat, set_name0 3 0 (set_name0 0 0xE5 scenario_root)))
    by (vm_compute; reflexivity).
  destruct (find_free_entry_grants_free_slots x86_64 scenario_root 3 0%nat _ ltac:(lia) H)
    as (Hlen & Hfree & _).
  split; [exact H|]. split; [exact Hlen|exact Hfree].
Defined.

(** ** The short entry written by [init_entry] *)

Lemma copy_name_spec name todo : forall i e i' e',
  copy_name name i todo e = (i', e') ->
  length e' = length e /\ (i <= i' <= i + todo)%nat /\
  ((i' = i + todo)%nat \/ c_char name i' = 0) /\
  (forall o, (o < i \/ i' <= o)%nat -> e' !! o = e !! o) /\
  (forall o, (i <= o < i')%nat -> c_char name o <> 0 /\
             ((o < length e)%nat -> e' !! o = Some (u8 (c_char name o)))).
Proof.
  induction todo as [|todo IH]; intros i e i' e'; cbn [copy_name].
  - intros [= <- <-]. repeat split; try lia.
  - destruct (c_char name i =? 0) eqn:Hc.
    + intros [= <- <-]. apply Z.eqb_eq in Hc. repeat split; try lia.
    + intros Hrec. apply Z.eqb_neq in Hc.
      destruct (IH _ _ _ _ Hrec) as (Hlen & Hi & Hstop & Hframe & Hin).
      rewrite set_u8_length in Hlen.
      split; [exact Hlen|]. split; [lia|]. split; [destruct Hstop; [left; lia|now right]|].
      split.
      * intros o Ho. rewrite Hframe by lia. apply set_u8_lookup_ne. lia.
      * intros o Ho. destruct (decide (o = i)) as [->|Hne].
        -- split; [exact Hc|]. intros Hlt. rewrite Hframe by lia.
           unfold set_u8. now rewrite list_lookup_insert_eq.
        -- destruct (Hin o ltac:(lia)) as [H1 H2]. split; [exact H1|].
           intros Hlt. apply H2. now rewrite set_u8_length.
Qed.

Lemma pad_name_spec todo : forall i e,
  length (pad_name i todo e) = length e /\
  (forall o, (o < i \/ i + todo <= o)%nat -> pad_name i todo e !! o = e !! o) /\
  (forall o, (i <= o < i + todo)%nat -> (o < length e)%nat -> pad_name i todo e !! o = Some 32).
Proof.
  induction todo as [|todo IH]; intros i e; cbn [pad_name].
  - repeat split; intros; lia.
  - destruct (IH (S i) (set_u8 e i 32)) as (Hlen & Hframe & Hin).
    rewrite set_u8_length in Hlen. split; [exact Hlen|]. split.
    + intros o Ho. rewrite Hframe by lia. apply set_u8_lookup_ne. lia.
    + intros o Ho Hlt. destruct (decide (o = i)) as [->|Hne].
      * rewrite Hframe by lia. unfold set_u8. now rewrite list_lookup_insert_eq.
      * apply Hin; [lia|now rewrite set_u8_length].
Qed.

Lemma c_char_in_name name o b : name !! o = Some b -> c_char name o = b.
Proof. unfold c_char. now intros ->. Qed.

Lemma c_char_past_name name o : (length name <= o)%nat -> c_char name o = 0.
Proof. intros H. unfold c_char. now rewrite lookup_ge_None_2. Qed.

(** The fields of the short entry, for a name without a NUL byte. *)
Lemma init_short_fields_spec name cluster e :
  Forall (fun b => 0 < b < 256) name -> length e = 32%nat ->
  let e' := init_short_fields name cluster e in
  length e' = 32%nat /\
  (forall o, (o < 11)%nat ->
     ce_name e' o = if decide (o < length name)%nat then c_char name o else 32) /\
  ce_cluster_low e' = u16 cluster /\
  ce_cluster_high e' = u16 (cluster / 2 ^ 16) /\
  ce_file_size e' = 0.
Proof.
  intros Hname He. unfold init_short_fields.
  destruct (copy_name name 0 11 e) as [i e1] eqn:Hcopy.
  destruct (copy_name_spec _ _ _ _ _ _ Hcopy) as (L1 & Hi & Hstop & F1 & C1).
  destruct (pad_name_spec (11 - i) i e1) as (L2 & F2 & P2).
  set (e2 := pad_name i (11 - i) e1) in *.
  assert (Hi' : i = Nat.min (length name) 11).
  { destruct (decide (i < length name)%nat) as [Hlt|Hge].
    - destruct Hstop as [->|Hz]; [lia|].
      destruct (lookup_lt_is_Some_2 name i Hlt) as [b Hb].
      rewrite (c_char_in_name _ _ _ Hb) in Hz.
      rewrite Forall_lookup in Hname. specialize (Hname _ _ Hb). lia.
    - destruct (decide (i = length name)) as [->|Hne]; [lia|].
      destruct (C1 (length name) ltac:(lia)) as [Hnz _].
      now rewrite c_char_past_name in Hnz by lia. }
  cbv zeta.
  split; [repeat (rewrite set_u8_length || rewrite set_u16_length || rewrite set_u32_length);
          congruence|].
  split; [|split; [|split]].
  - intros o Ho. unfold ce_name.
    rewrite fld_u8_set_u16_ne, fld_u8_set_u16_ne by lia.
    unfold set_u32. rewrite !fld_u8_set_u16_ne by lia.
    rewrite fld_u8_set_u8_ne, !fld_u8_set_u16_ne, fld_u8_set_u8_ne, fld_u8_set_u16_ne by lia.
    unfold fld_u8. destruct (decide (o < length name)%nat) as [Hin|Hout].
    + rewrite F2 by lia. destruct (C1 o ltac:(lia)) as [_ Hbyte].
      rewrite Hbyte by lia. cbn [default].
      destruct (lookup_lt_is_Some_2 name o Hin) as [b Hb].
      rewrite (c_char_in_name _ _ _ Hb).
      rewrite Forall_lookup in Hname. specialize (Hname _ _ Hb).
      unfold u8. apply Z.mod_small. lia.
    + rewrite P2 by lia. reflexivity.
  - unfold ce_cluster_low. rewrite fld_u16_set_u16_ne by lia.
    rewrite fld_u16_set_u16
      by (repeat (rewrite set_u8_length || rewrite set_u16_length || rewrite set_u32_length); lia).
    unfold u16. apply Z.mod_mod. lia.
  - unfold ce_cluster_high.
    rewrite fld_u16_set_u16
      by (repeat (rewrite set_u8_length || rewrite set_u16_length || rewrite set_u32_length); lia).
    unfold u16. apply Z.mod_mod. lia.
  - unfold ce_file_size, fld_u32. rewrite !(fld_u16_set_u16_ne _ 20), !(fld_u16_set_u16_ne _ 26) by lia.
    change (fld_u32 (set_u32 (set_u8 (set_u16 (set_u16 (set_u16 (set_u16 (set_u8
              (set_u16 e2 14 0) 13 0) 16 0) 18 0) 24 0) 22 0) 12 0) 28 0) 28 = 0).
    rewrite fld_u32_set_u32
      by (repeat (rewrite set_u8_length || rewrite set_u16_length); lia).
    reflexivity.
Qed.

Lemma char_val_ascii pf b : 0 <= b < 128 -> char_val pf b = b.
Proof.
  intros Hb. unfold char_val, s8, u8. rewrite Z.mod_small by lia.
  destruct (char_signed pf); [|reflexivity].
  destruct (128 <=? b) eqn:H; [apply Z.leb_le in H; lia|reflexivity].
Qed.

Lemma init_kind_entry_done pf (is_dir : bool) long arr ptr name cluster ptr' arr1 :
  init_entry pf long arr ptr name cluster = Done (ptr', arr1) ->
  init_kind_entry pf is_dir long arr ptr name cluster
  = Done (alter (fun e => set_u8 e 11 (if is_dir then 16 else 0)) ptr' arr1).
Proof.
  intros H. unfold init_kind_entry, init_directory_entry, init_file_entry.
  destruct is_dir; rewrite H; reflexivity.
Qed.

Lemma location_of_cluster cluster :
  0 <= cluster < 2 ^ 32 ->
  u32 (u16 cluster + u16 (cluster / 2 ^ 16) * 2 ^ 16) = cluster.
Proof.
  intros Hc. pose proof (u32_split cluster) as H.
  assert (Hsmall : u32 cluster = cluster) by (unfold u32; apply Z.mod_small; lia).
  rewrite Hsmall in H. rewrite (Z.mul_comm _ (2 ^ 16)), H. exact Hsmall.
Qed.

(** What a listing reads from the short entry that [init_file_entry] or
    [init_directory_entry] has finished. *)
Lemma kind_entry_fields spc (is_dir : bool) name nm cluster e :
  Forall (fun b => 0 < b < 256) name -> length e = 32%nat ->
  0 <= cluster < 2 ^ 32 ->
  let e' := set_u8 (init_short_fields name cluster e) 11 (if is_dir then 16 else 0) in
  length e' = 32%nat /\
  (forall o, (o < 11)%nat ->
     ce_name e' o = if decide (o < length name)%nat then c_char name o else 32) /\
  is_long_name e' = false /\
  file_of_entry spc nm e' = created_record spc is_dir nm cluster.
Proof.
  intros Hname He Hc.
  destruct (init_short_fields_spec name cluster e Hname He) as (L & N & Clo & Chi & Sz).
  cbv zeta in *. set (e0 := init_short_fields name cluster e) in *.
  assert (Hattr : ce_attrib (set_u8 e0 11 (if is_dir then 16 else 0))
                  = if is_dir then 16 else 0).
  { unfold ce_attrib. rewrite fld_u8_set_u8 by lia. now destruct is_dir. }
  split; [now rewrite set_u8_length|]. split; [|split].
  - intros o Ho. unfold ce_name. rewrite fld_u8_set_u8_ne by lia. now apply N.
  - unfold is_long_name. rewrite Hattr. now destruct is_dir.
  - unfold file_of_entry, created_record. rewrite Hattr.
    unfold ce_cluster_low, ce_cluster_high, ce_file_size, fld_u32.
    rewrite !fld_u16_set_u8_ne by lia.
    fold (fld_u32 e0 28). fold (ce_file_size e0). fold (ce_cluster_low e0).
    fold (ce_cluster_high e0). rewrite Clo, Chi, Sz, location_of_cluster by exact Hc.
    now destruct is_dir.
Qed.

Lemma short_name_spec name e : 
  Forall (fun b => b <> 32) name ->
  forall todo s,
  (forall o, (s <= o < s + todo)%nat ->
     ce_name e o = if decide (o < length name)%nat then c_char name o else 32) ->
  short_name e s todo = take todo (drop s name).
Proof.
  intros Hname. induction todo as [|todo IH]; intros s Hfield; cbn [short_name].
  - reflexivity.
  - rewrite (Hfield s) by lia. destruct (decide (s < length name)%nat) as [Hin|Hout].
    + destruct (lookup_lt_is_Some_2 name s Hin) as [b Hb].
      rewrite (c_char_in_name _ _ _ Hb).
      rewrite Forall_lookup in Hname. pose proof (Hname _ _ Hb) as Hb32.
      destruct (b =? 32) eqn:Hq; [apply Z.eqb_eq in Hq; contradiction|].
      rewrite (drop_S _ _ _ Hb). cbn [take]. f_equal.
      apply IH. intros o Ho. apply Hfield. lia.
    + cbn. rewrite drop_ge by lia. reflexivity.
Qed.

(** A short entry read back.  For a name of 1 to 11 ASCII bytes without a
    space, the entry written by [init_file_entry<false>] or
    [init_directory_entry<false>] changes its own slot only and is listed
    by the scan of [files] under that name, with the cluster given, not
    hidden, not system, a directory or a file of size 0 as created. *)
Theorem short_entry_round_trip pf spc is_dir name arr ptr e cluster st :
  Forall (fun b => 0 < b < 128 /\ b <> 32) name ->
  (1 <= length name <= 11)%nat ->
  0 <= cluster < 2 ^ 32 ->
  arr !! ptr = Some e -> length e = 32%nat ->
  sc_long_name st = false ->
  exists arr' e',
    init_kind_entry pf is_dir false arr (Some ptr) name cluster = Done arr' /\
    arr' !! ptr = Some e' /\
    (forall q, q <> ptr -> arr' !! q = arr !! q) /\
    scan_cluster pf spc [e'] st
    = Done ({| sc_files := sc_files st ++ [created_record spc is_dir name cluster];
               sc_long_name := false; sc_buffer := sc_buffer st; sc_i := sc_i st |}, false).
Proof.
  intros Hname Hlen Hc He Hle Hshort.
  assert (Hname256 : Forall (fun b => 0 < b < 256) name)
    by (eapply Forall_impl; [exact Hname|]; cbn; intros; lia).
  assert (Hname32 : Forall (fun b => b <> 32) name)
    by (eapply Forall_impl; [exact Hname|]; cbn; intros; lia).
  assert (Hinit : init_entry pf false arr (Some ptr) name cluster
                  = Done (ptr, <[ptr := init_short_fields name cluster e]> arr)).
  { unfold init_entry. now rewrite He. }
  pose proof (lookup_lt_Some _ _ _ He) as Hptr.
  destruct (kind_entry_fields spc is_dir name name cluster e Hname256 Hle Hc)
    as (L & N & Lg & Rec).
  cbv zeta in *. set (e' := set_u8 _ 11 _) in *.
  exists (alter (fun e => set_u8 e 11 (if is_dir then 16 else 0)) ptr
            (<[ptr := init_short_fields name cluster e]> arr)), e'.
  split; [now apply init_kind_entry_done|]. split; [|split].
  - rewrite list_lookup_alter_eq, list_lookup_insert_eq by exact Hptr. reflexivity.
  - intros q Hq. rewrite list_lookup_alter_ne, list_lookup_insert_ne by congruence.
    reflexivity.
  - destruct (lookup_lt_is_Some_2 name 0 ltac:(lia)) as [b0 Hb0].
    rewrite Forall_lookup in Hname. pose proof (Hname _ _ Hb0) as Hb0r.
    assert (H0 : ce_name e' 0 = b0).
    { rewrite N by lia. rewrite decide_True by lia. now apply c_char_in_name. }
    cbn [scan_cluster]. unfold end_of_directory, entry_used. rewrite H0, Lg.
    rewrite char_val_ascii by lia.
    destruct (b0 =? 0) eqn:Hz; [apply Z.eqb_eq in Hz; lia|].
    destruct (b0 =? 229) eqn:Hu; [apply Z.eqb_eq in Hu; lia|]. cbn [negb].
    unfold scan_short_entry. rewrite Hshort.
    rewrite (short_name_spec name e' Hname32 11 0) by (intros o Ho; apply N; lia).
    rewrite drop_0, take_ge by lia. rewrite Rec. reflexivity.
Qed.

Lemma short_entry_round_trip_witness :
  exists arr' e',
    init_kind_entry x86_64 true false scenario_root (Some 0%nat) name_dot 3 = Done arr' /\
    arr' !! 0%nat = Some e' /\
    (forall q, q <> 0%nat -> arr' !! q = scenario_root !! q) /\
    scan_cluster x86_64 8 [e'] (initial_scan x86_64)
    = Done ({| sc_files := sc_files (initial_scan x86_64) ++ [created_record 8 true name_dot 3];
               sc_long_name := false; sc_buffer := sc_buffer (initial_scan x86_64);
               sc_i := sc_i (initial_scan x86_64) |}, false).
Proof.
  apply (short_entry_round_trip x86_64 8 true name_dot scenario_root 0 zero_entry 3
           (initial_scan x86_64)).
  - unfold name_dot. repeat constructor; lia.
  - cbn. lia.
  - lia.
  - reflexivity.
  - reflexivity.
  - reflexivity.
Defined.

Lemma lde_count_Z name :
  (1 <= length name <= 255)%nat ->
  Z.of_nat (lde_count name) = (Z.of_nat (length name) - 1) / 11 + 1 /\
  1 <= Z.of_nat (lde_count name) <= 24 /\
  Z.of_nat (length name) <= 11 * Z.of_nat (lde_count name).
Proof.
  intros Hlen. unfold lde_count.
  rewrite Nat2Z.inj_add, Nat2Z.inj_div, Nat2Z.inj_sub by lia.
  change (Z.of_nat 1) with 1. change (Z.of_nat 11) with 11.
  pose proof (Z.div_pos (Z.of_nat (length name) - 1) 11 ltac:(lia) ltac:(lia)).
  assert ((Z.of_nat (length name) - 1) / 11 < 24) by (apply Z.div_lt_upper_bound; lia).
  pose proof (Z.mul_succ_div_gt (Z.of_nat (length name) - 1) 11 ltac:(lia)).
  repeat split; lia.
Qed.

Lemma number_of_entries_count name :
  (1 <= length name <= 255)%nat ->
  number_of_entries name = Z.of_nat (lde_count name) + 1.
Proof.
  intros Hlen. destruct (lde_count_Z name Hlen) as (Hk & Hk24 & _).
  unfold number_of_entries, u64. rewrite (Z.mod_small (_ - 1)) by lia.
  rewrite Z.mod_small by lia. lia.
Qed.

(** [init_entry<true>] on an array with room: the long entries as
    [lde_fields] describes them, then the short entry in the next slot. *)
Lemma init_entry_long_run pf name arr ptr cluster :
  Forall (fun b => 0 < b < 256) name ->
  (1 <= length name <= 255)%nat ->
  entry_array arr ->
  (ptr + lde_count name < length arr)%nat ->
  exists arr1 sde,
    init_entry pf true arr (Some ptr) name cluster
    = Done ((ptr + lde_count name)%nat,
            <[(ptr + lde_count name)%nat := init_short_fields name cluster sde]> arr1) /\
    arr1 !! (ptr + lde_count name)%nat = Some sde /\ length sde = 32%nat /\
    length arr1 = length arr /\
    (forall q, (q < ptr \/ ptr + lde_count name <= q)%nat -> arr1 !! q = arr !! q) /\
    forall t, (t < lde_count name)%nat ->
      exists e, arr1 !! (ptr + t)%nat = Some e /\
        lde_fields pf name (Z.of_nat (length name)) (Z.of_nat (lde_count name)) (Z.of_nat t) e.
Proof.
  intros Hname Hlen Hwf Hroom.
  destruct (lde_count_Z name Hlen) as (Hk & Hk24 & _).
  set (k := lde_count name) in *.
  unfold init_entry, str_len. rewrite (c_strlen_no_nul _ Hname).
  set (len := Z.of_nat (length name)) in *.
  assert (Hseqs : u64 (u64 (len - 1) / 11 + 1) = Z.of_nat k).
  { unfold u64. rewrite (Z.mod_small (len - 1)) by lia. rewrite <- Hk.
    apply Z.mod_small. lia. }
  rewrite Hseqs.
  destruct (init_long_entries_spec pf name len (Z.of_nat k) ltac:(lia)
              k (length arr) 0 0 ptr arr)
    as (arr1 & Hrun & Hwf1 & Hlen1 & Hframe & Hslots);
    [lia|lia|lia|exact Hwf|lia|lia|].
  rewrite Hrun.
  destruct (lookup_lt_is_Some_2 arr1 (ptr + k) ltac:(lia)) as [sde Hsde]. rewrite Hsde.
  exists arr1, sde. split; [reflexivity|]. split; [exact Hsde|].
  split; [exact (entry_array_lookup _ _ _ Hwf1 Hsde)|]. split; [exact Hlen1|].
  split; [exact Hframe|].
  intros t Ht. destruct (Hslots t Ht) as (e & He & Hf). exists e. split; [exact He|].
  now rewrite Z.add_0_l in Hf.
Qed.

Lemma find_free_entry_entry_array pf arr entries start arr1 :
  entry_array arr -> find_free_entry pf arr entries = Some (start, arr1) -> entry_array arr1.
Proof.
  intros Hwf. unfold find_free_entry.
  destruct (first_end_of_directory arr 0) as [end_|]; [|discriminate].
  destruct (free_sequence pf arr entries 0 0) as [[s st] en].
  destruct (negb (s =? entries)); [discriminate|].
  destruct (end_ <=? en)%nat.
  - destruct (scan_new_end pf arr en (length arr - 1) None); [|discriminate].
    intros [= <- <-]. now repeat apply entry_array_set_name0.
  - now intros [= <- <-].
Qed.

(** ** Allocation followed by initialisation *)

(** [find_free_entry] followed by [init_file_entry<true>] or
    [init_directory_entry<true>], the way [touch] and [mkdir] chain them:
    for a name of 1 to 255 bytes without a NUL the run granted for
    [number_of_entries(name)] slots is large enough, so the initialisation
    completes, the array keeps its length, and every entry that was in use
    before the two calls is still there, byte for byte. *)
Theorem granted_run_holds_the_entry pf (is_dir : bool) name arr start arr1 cluster :
  Forall (fun b => 0 < b < 256) name ->
  (1 <= length name <= 255)%nat ->
  entry_array arr ->
  find_free_entry pf arr (number_of_entries name) = Some (start, arr1) ->
  exists arr2,
    init_kind_entry pf is_dir true arr1 (Some start) name cluster = Done arr2 /\
    length arr2 = length arr /\
    forall q e, arr !! q = Some e ->
      (end_of_directory e || entry_unused pf e) = false -> arr2 !! q = Some e.
Proof.
  intros Hname Hlen Hwf Hfind.
  pose proof (number_of_entries_count name Hlen) as Hn.
  destruct (lde_count_Z name Hlen) as (_ & Hk24 & _).
  destruct (find_free_entry_run pf arr (number_of_entries name) start arr1 ltac:(lia) Hfind)
    as (Hfit & Hlen1 & Hfree & Hkeep).
  pose proof (find_free_entry_entry_array _ _ _ _ _ Hwf Hfind) as Hwf1.
  destruct (init_entry_long_run pf name arr1 start cluster Hname Hlen Hwf1 ltac:(lia))
    as (arr1a & sde & Hinit & Hsde & _ & Hlen1a & Hframe & _).
  eexists. split; [apply init_kind_entry_done; exact Hinit|].
  split; [rewrite length_alter, length_insert; congruence|].
  intros q e Hq Hused.
  assert (Hout : (q < start \/ start + lde_count name < q)%nat).
  { destruct (decide (start <= q <= start + lde_count name)%nat) as [Hin|]; [|lia].
    destruct (Hfree q ltac:(lia)) as (e' & He' & Hf). congruence. }
  rewrite list_lookup_alter_ne, list_lookup_insert_ne by lia.
  rewrite Hframe by lia.
  destruct (Hkeep q e Hq) as (e' & He' & _ & Hsame). rewrite He'. f_equal. now apply Hsame.
Qed.

Lemma granted_run_holds_the_entry_witness :
  exists arr2,
    init_kind_entry x86_64 false true
      (set_name0 3 0 (set_name0 0 0xE5 scenario_root)) (Some 0%nat) name_twelve 3 = Done arr2 /\
    length arr2 = length scenario_root /\
    forall q e, scenario_root !! q = Some e ->
      (end_of_directory e || entry_unused x86_64 e) = false -> arr2 !! q = Some e.
Proof.
  apply (granted_run_holds_the_entry x86_64 false name_twelve scenario_root 0).
  - unfold name_twelve. repeat (constructor; [lia|]). constructor.
  - cbn. lia.
  - apply array_of_bytes_entry_array.
  - vm_compute. reflexivity.
Defined.

(** ** Long names read back *)

Lemma ordinal_bits s :
  0 <= s < 24 ->
  Z.land (u8 (Z.lor (s + 1) 0x40)) (Z.lnot 0x40) = s + 1 /\
  Z.land (u8 (s + 1)) (Z.lnot 0x40) = s + 1 /\
  0 < u8 (Z.lor (s + 1) 0x40) < 128 /\ 0 < u8 (s + 1) < 128.
Proof.
  intros Hs. replace s with (Z.of_nat (Z.to_nat s)) by lia.
  assert (Hn : (Z.to_nat s < 24)%nat) by lia. revert Hn. generalize (Z.to_nat s) as n.
  intros n Hn. do 24 (destruct n as [|n]; [vm_compute; repeat split; congruence|]). lia.
Qed.

Ltac unit_of_field Hunits Hj n :=
  injection Hj as <-; etransitivity; [apply (Hunits n); lia|f_equal; lia].

Section Decoding.

Variable pf : platform.
Variable name : list Z.
Hypothesis Hascii : Forall (fun b => 0 < b < 128) name.
Hypothesis Hlen : (length name <= 255)%nat.

Lemma decode_unit_step a st :
  decoded_to name a st -> 0 <= a ->
  exists st', decode_unit (name_unit pf name (Z.of_nat (length name)) a) st = Done st' /\
              decoded_to name (a + 1) st'.
Proof.
  destruct st as [[ended l] buffer]. intros (Hbuf & Hended & Hl & Hpre) Ha.
  unfold decode_unit. destruct ended.
  - symmetry in Hended. apply Z.ltb_lt in Hended.
    eexists. split; [reflexivity|]. unfold decoded_to.
    split; [exact Hbuf|]. split; [symmetry; apply Z.ltb_lt; lia|]. split; [lia|].
    intros o Ho. apply Hpre. lia.
  - symmetry in Hended. apply Z.ltb_ge in Hended. unfold name_unit.
    destruct (a <? Z.of_nat (length name)) eqn:Hin.
    + apply Z.ltb_lt in Hin.
      assert (Hla : l = a) by lia. clear Hl. subst l.
      destruct (lookup_lt_is_Some_2 name (Z.to_nat a) ltac:(lia)) as [b Hb].
      rewrite (c_char_in_name _ _ _ Hb).
      pose proof Hascii as Hall. rewrite Forall_lookup in Hall. specialize (Hall _ _ Hb).
      rewrite char_val_ascii by lia.
      assert (Hu16 : u16 b = b) by (unfold u16; apply Z.mod_small; lia).
      assert (Hu8 : u8 b = b) by (unfold u8; apply Z.mod_small; lia).
      rewrite Hu16, Hu8.
      destruct (b =? 0) eqn:H0; [apply Z.eqb_eq in H0; lia|].
      destruct (b =? 255) eqn:H255; [apply Z.eqb_eq in H255; lia|]. cbn [orb].
      destruct (a <? 256) eqn:Hroom; [|apply Z.ltb_ge in Hroom; lia].
      eexists. split; [reflexivity|]. unfold decoded_to.
      split; [now rewrite length_insert|].
      split; [symmetry; apply Z.ltb_ge; lia|].
      split; [unfold u64; rewrite Z.mod_small by lia; lia|].
      intros o Ho.
      destruct (decide (o = Z.to_nat a)) as [->|Hne].
      * rewrite list_lookup_insert_eq by lia.
        replace (Z.min (Z.of_nat (length name)) a) with a by lia. now rewrite Hb.
      * rewrite list_lookup_insert_ne by lia. apply Hpre. lia.
    + apply Z.ltb_ge in Hin. cbn [Z.eqb orb].
      eexists. split; [reflexivity|]. unfold decoded_to.
      split; [exact Hbuf|]. split; [symmetry; apply Z.ltb_lt; lia|]. split; [lia|].
      intros o Ho. apply Hpre. lia.
Qed.

Lemma decode_units_run us : forall a st,
  decoded_to name a st -> 0 <= a ->
  (forall j u, us !! j = Some u ->
     u = name_unit pf name (Z.of_nat (length name)) (a + Z.of_nat j)) ->
  exists st', decode_units us st = Done st' /\ decoded_to name (a + Z.of_nat (length us)) st'.
Proof.
  induction us as [|u us IH]; intros a st Hst Ha Hus; cbn [decode_units length].
  - exists st. split; [reflexivity|]. now rewrite Z.add_0_r.
  - rewrite (Hus 0%nat u eq_refl), Z.add_0_r.
    destruct (decode_unit_step a st Hst Ha) as (st1 & -> & Hst1).
    destruct (IH (a + 1) st1 Hst1 ltac:(lia)) as (st2 & Hrun & Hst2).
    { intros j u' Hj. rewrite (Hus (S j) u' Hj). f_equal. lia. }
    exists st2. split; [exact Hrun|].
    replace (a + Z.of_nat (S (length us))) with (a + 1 + Z.of_nat (length us)) by lia.
    exact Hst2.
Qed.

Lemma decode_long_entry_step sequences s e st0 st :
  lde_fields pf name (Z.of_nat (length name)) sequences s e ->
  0 <= s < 24 -> 13 * s <= Z.of_nat (length name) ->
  scan_at name s st0 st ->
  exists st', decode_long_entry e st = Done st' /\ scan_at name (s + 1) st0 st'.
Proof.
  intros (Hseq & _ & _ & _ & _ & Hunits) Hs Hfit (Hfiles & Hbuf & Hi & _ & Hpre).
  unfold decode_long_entry.
  destruct (ordinal_bits s Hs) as (B1 & B2 & _).
  assert (Hl : u64 ((Z.land (le_sequence_number e) (Z.lnot 0x40) - 1) * 13) = 13 * s).
  { rewrite Hseq. destruct (s =? sequences - 1); [rewrite B1|rewrite B2];
      unfold u64; rewrite Z.mod_small by lia; lia. }
  rewrite Hl.
  assert (H0 : decoded_to name (13 * s) (false, 13 * s, sc_buffer st)).
  { unfold decoded_to. split; [exact Hbuf|]. split; [symmetry; apply Z.ltb_ge; lia|].
    split; [lia|exact Hpre]. }
  destruct (decode_units_run (map (le_name_first e) [0; 1; 2; 3; 4]%nat) (13 * s) _ H0
              ltac:(lia)) as (st1 & -> & H1).
  { intros j u Hj.
    destruct j as [|[|[|[|[|j]]]]];
      [unit_of_field Hunits Hj 0%nat|unit_of_field Hunits Hj 1%nat|unit_of_field Hunits Hj 2%nat
      |unit_of_field Hunits Hj 3%nat|unit_of_field Hunits Hj 4%nat|discriminate]. }
  destruct (decode_units_run (map (le_name_second e) [0; 1; 2; 3; 4; 5]%nat) _ _ H1
              ltac:(cbn; lia)) as (st2 & -> & H2).
  { intros j u Hj. cbn [length map].
    destruct j as [|[|[|[|[|[|j]]]]]];
      [unit_of_field Hunits Hj 5%nat|unit_of_field Hunits Hj 6%nat|unit_of_field Hunits Hj 7%nat
      |unit_of_field Hunits Hj 8%nat|unit_of_field Hunits Hj 9%nat|unit_of_field Hunits Hj 10%nat
      |discriminate]. }
  destruct (decode_units_run (map (le_name_third e) [0; 1]%nat) _ _ H2
              ltac:(cbn; lia)) as (st3 & -> & H3).
  { intros j u Hj. cbn [length map].
    destruct j as [|[|j]];
      [unit_of_field Hunits Hj 11%nat|unit_of_field Hunits Hj 12%nat|discriminate]. }
  destruct st3 as [[ended l'] buffer']. cbn [length map] in H3.
  destruct H3 as (Hbuf' & _ & Hl' & Hpre').
  eexists. split; [reflexivity|]. unfold scan_at. cbn [sc_files sc_buffer sc_i sc_long_name].
  split; [exact Hfiles|]. split; [exact Hbuf'|]. split.
  - rewrite Hi, Hl'. destruct (_ <? _) eqn:Hc;
      [apply Z.ltb_lt in Hc|apply Z.ltb_ge in Hc]; lia.
  - split; [reflexivity|]. intros o Ho. apply Hpre'. lia.
Qed.

Lemma lde_entry_kind sequences s e :
  lde_fields pf name (Z.of_nat (length name)) sequences s e -> 0 <= s < 24 ->
  end_of_directory e = false /\ entry_used pf e = true /\ is_long_name e = true.
Proof.
  intros (Hseq & Hattr & _) Hs. destruct (ordinal_bits s Hs) as (_ & _ & B3 & B4).
  unfold end_of_directory, entry_used, is_long_name.
  change (ce_name e 0) with (le_sequence_number e). change (ce_attrib e) with (le_attrib e).
  rewrite Hattr, Hseq.
  destruct (s =? sequences - 1).
  - rewrite char_val_ascii by lia. repeat split.
    + apply Z.eqb_neq. lia.
    + apply negb_true_iff, Z.eqb_neq. lia.
  - rewrite char_val_ascii by lia. repeat split.
    + apply Z.eqb_neq. lia.
    + apply negb_true_iff, Z.eqb_neq. lia.
Qed.

Lemma scan_cluster_long_run spc sequences st0 : forall (m : nat) run s st,
  (forall t, (t < m)%nat -> exists e, run !! t = Some e /\
     lde_fields pf name (Z.of_nat (length name)) sequences (s + Z.of_nat t) e) ->
  0 <= s -> s + Z.of_nat m <= 24 ->
  (0 < m)%nat -> 13 * (s + Z.of_nat m - 1) <= Z.of_nat (length name) ->
  scan_at name s st0 st ->
  exists st', scan_at name (s + Z.of_nat m) st0 st' /\
              scan_cluster pf spc run st = scan_cluster pf spc (drop m run) st'.
Proof.
  induction m as [|m IH]; intros run s st Hrun Hs Hm Hpos Hfit Hst; [lia|].
  destruct (Hrun 0%nat ltac:(lia)) as (e & He & Hf). rewrite Z.add_0_r in Hf.
  destruct run as [|e0 rest]; [discriminate|]. injection He as ->.
  destruct (lde_entry_kind _ _ _ Hf ltac:(lia)) as (K1 & K2 & K3).
  destruct (decode_long_entry_step _ _ _ _ _ Hf ltac:(lia) ltac:(lia) Hst) as (st1 & Hdec & Hst1).
  cbn [scan_cluster drop]. rewrite K1, K2, K3, Hdec.
  destruct m as [|m].
  - exists st1. split; [exact Hst1|]. now rewrite drop_0.
  - destruct (IH rest (s + 1) st1) as (st' & Hst' & Hscan); [|lia|lia|lia|lia|exact Hst1|].
    + intros t Ht. destruct (Hrun (S t) ltac:(lia)) as (e' & He' & Hf').
      exists e'. split; [exact He'|].
      replace (s + 1 + Z.of_nat t) with (s + Z.of_nat (S t)) by lia. exact Hf'.
    + exists st'. split; [|exact Hscan].
      replace (s + Z.of_nat (S (S m))) with (s + 1 + Z.of_nat (S m)) by lia. exact Hst'.
Qed.

End Decoding.

(** A long name read back.  For a name of 1 to 255 ASCII bytes whose last
    long entry still starts inside the name ([13 * (k - 1) <= len] for the
    [k = (len - 1) / 11 + 1] long entries written), the run that
    [init_file_entry<true>] or [init_directory_entry<true>] writes is
    decoded by the scan of [files] into one record: the name byte for
    byte, the cluster given, not hidden, not system, and a directory or a
    file of size 0 as created. *)
Theorem long_name_round_trip pf spc (is_dir : bool) name arr ptr cluster st :
  Forall (fun b => 0 < b < 128) name ->
  (1 <= length name <= 255)%nat ->
  (13 * (lde_count name - 1) <= length name)%nat ->
  0 <= cluster < 2 ^ 32 ->
  entry_array arr -> (ptr + lde_count name < length arr)%nat ->
  sc_i st = 0 -> length (sc_buffer st) = 256%nat ->
  exists arr' st',
    init_kind_entry pf is_dir true arr (Some ptr) name cluster = Done arr' /\
    scan_cluster pf spc (take (S (lde_count name)) (drop ptr arr')) st = Done (st', false) /\
    sc_files st' = sc_files st ++ [created_record spc is_dir name cluster] /\
    sc_long_name st' = false /\ sc_i st' = 0.
Proof.
  intros Hname Hlen Hfit Hc Hwf Hroom Hi Hbuf.
  assert (Hname256 : Forall (fun b => 0 < b < 256) name)
    by (eapply Forall_impl; [exact Hname|]; cbn; intros; lia).
  destruct (lde_count_Z name Hlen) as (_ & Hk24 & Hk11).
  destruct (init_entry_long_run pf name arr ptr cluster Hname256 Hlen Hwf Hroom)
    as (arr1 & sde & Hinit & Hsde & Hsde_len & Hlen1 & _ & Hslots).
  set (k := lde_count name) in *.
  destruct (kind_entry_fields spc is_dir name name cluster sde Hname256 Hsde_len Hc)
    as (L & N & Lg & Rec).
  cbv zeta in *. set (sde' := set_u8 _ 11 _) in *.
  set (arr' := alter (fun e => set_u8 e 11 (if is_dir then 16 else 0)) (ptr + k)%nat
                 (<[(ptr + k)%nat := init_short_fields name cluster sde]> arr1)).
  assert (Hlen' : length arr' = length arr)
    by (unfold arr'; rewrite length_alter, length_insert; exact Hlen1).
  set (run := take (S k) (drop ptr arr')).
  assert (Hrun : forall t, (t <= k)%nat -> run !! t = arr' !! (ptr + t)%nat).
  { intros t Ht. unfold run. rewrite lookup_take_lt by lia. now rewrite lookup_drop. }
  assert (Hrun_len : length run = S k).
  { unfold run. rewrite length_take, length_drop. lia. }
  destruct (scan_cluster_long_run pf name Hname ltac:(lia) spc (Z.of_nat k) st k run 0 st)
    as (st1 & (Hfiles1 & Hbuf1 & Hi1 & Hlong1 & Hpre1) & Hscan); [|lia|lia|lia|lia| |].
  { intros t Ht. destruct (Hslots t Ht) as (e & He & Hf). exists e.
    split; [|now rewrite Z.add_0_l].
    rewrite Hrun by lia. unfold arr'.
    rewrite list_lookup_alter_ne, list_lookup_insert_ne by lia. exact He. }
  { unfold scan_at. split; [reflexivity|]. split; [exact Hbuf|]. split; [lia|].
    split; [lia|]. intros o Ho. lia. }
  assert (Hlast : run !! k = Some sde').
  { rewrite Hrun by lia. unfold arr'.
    rewrite list_lookup_alter_eq, list_lookup_insert_eq by lia. reflexivity. }
  assert (Hdrop : drop k run = [sde']).
  { rewrite (drop_S _ _ _ Hlast), drop_ge by lia. reflexivity. }
  exists arr'. eexists.
  split; [apply init_kind_entry_done; exact Hinit|].
  fold run. rewrite Hscan, Hdrop.
  destruct (lookup_lt_is_Some_2 name 0 ltac:(lia)) as [b0 Hb0].
  pose proof Hname as Hall. rewrite Forall_lookup in Hall. pose proof (Hall _ _ Hb0) as Hb0r.
  assert (H0 : ce_name sde' 0 = b0).
  { rewrite N by lia. rewrite decide_True by lia. now apply c_char_in_name. }
  cbn [scan_cluster]. unfold end_of_directory, entry_used. rewrite H0, Lg.
  rewrite char_val_ascii by lia.
  destruct (b0 =? 0) eqn:Hz; [apply Z.eqb_eq in Hz; lia|].
  destruct (b0 =? 229) eqn:Hu; [apply Z.eqb_eq in Hu; lia|]. cbn [negb].
  unfold scan_short_entry. rewrite Hlong1 by lia.
  assert (Hi1' : sc_i st1 = Z.of_nat (length name)) by lia.
  rewrite Hi1'.
  destruct (Z.of_nat (length name) <=? 256) eqn:Hle; [|apply Z.leb_gt in Hle; lia].
  split; [reflexivity|]. cbn [sc_files sc_long_name sc_i].
  split; [|split; reflexivity].
  assert (Htake : take (Z.to_nat (Z.of_nat (length name))) (sc_buffer st1) = name).
  { rewrite Nat2Z.id. apply list_eq. intros o.
    destruct (decide (o < length name)%nat) as [Hin|Hout].
    - rewrite lookup_take_lt by lia. apply Hpre1. lia.
    - rewrite lookup_take_ge by lia. symmetry. apply lookup_ge_None_2. lia. }
  rewrite Htake, Hfiles1, Rec. reflexivity.
Qed.

Lemma long_name_round_trip_witness :
  exists arr' st',
    init_kind_entry x86_64 true true scenario_root (Some 0%nat) name_docs 3 = Done arr' /\
    scan_cluster x86_64 8 (take (S (lde_count name_docs)) (drop 0 arr')) (initial_scan x86_64)
    = Done (st', false) /\
    sc_files st' = sc_files (initial_scan x86_64) ++ [created_record 8 true name_docs 3] /\
    sc_long_name st' = false /\ sc_i st' = 0.
Proof.
  apply (long_name_round_trip x86_64 8 true name_docs scenario_root 0 3 (initial_scan x86_64)).
  - unfold name_docs. repeat (constructor; [lia|]). constructor.
  - cbn. lia.
  - cbn. lia.
  - lia.
  - apply array_of_bytes_entry_array.
  - unfold scenario_root. rewrite array_of_bytes_length. cbn. lia.
  - reflexivity.
  - reflexivity.
Defined.

(** ** The writes of [touch] and [mkdir] *)

Lemma writes_of_app evs log : writes_of (evs ++ log) = writes_of evs ++ writes_of log.
Proof.
  induction evs as [|[d l c|d l c] evs IH]; cbn [app writes_of]; [reflexivity|exact IH|].
  now rewrite IH.
Qed.

Lemma writes_of_no_writes evs : no_writes evs = true -> writes_of evs = [].
Proof.
  induction evs as [|[d l c|d l c] evs IH]; cbn; [reflexivity|exact IH|discriminate].
Qed.

Lemma only_reads_writes s s' :
  only_reads s s' -> writes_of (io_log (snd s')) = writes_of (io_log (snd s)).
Proof.
  intros [_ (evs & -> & Hn)]. now rewrite writes_of_app, (writes_of_no_writes _ Hn).
Qed.

Lemma keeps_find_free_cluster_loop disk fat_begin spc todo : forall j,
  keeps_globals (find_free_cluster_loop disk fat_begin spc j todo).
Proof.
  induction todo as [|todo IH]; intros j; cbn [find_free_cluster_loop].
  - apply keeps_ret.
  - apply keeps_bind; [apply keeps_read_sectors|]. intros [tbl|]; [|apply keeps_ret].
    destruct (scan_fat_sector tbl j 0 128); [apply keeps_ret|apply IH].
Qed.

Lemma keeps_find_free_cluster disk : keeps_globals (find_free_cluster disk).
Proof.
  apply keeps_bind; [apply keeps_deref_bs|]. intros bs.
  apply keeps_bind; [apply keeps_get_globals|]. intros g.
  apply keeps_find_free_cluster_loop.
Qed.

Lemma deref_bs_run s bs : fat_bs (fst s) = Some bs -> deref_bs s = Done (bs, s).
Proof. intros H. unfold deref_bs, bind, get_globals. now rewrite H. Qed.

Lemma deref_is_run s fi : fat_is (fst s) = Some fi -> deref_is s = Done (fi, s).
Proof. intros H. unfold deref_is, bind, get_globals. now rewrite H. Qed.

Lemma cluster_lba_run s bs cluster :
  fat_bs (fst s) = Some bs -> cluster_lba cluster s = Done (cluster_lba_of (fst s) bs cluster, s).
Proof.
  intros H. unfold cluster_lba. rewrite (bind_run _ _ _ _ _ (deref_bs_run s bs H)).
  reflexivity.
Qed.

Lemma write_sectors_run disk lba count data s b s' :
  write_sectors disk lba count data s = Done (b, s') ->
  fst s' = fst s /\
  writes_of (io_log (snd s')) = EvWrite (dd_uuid disk) lba count :: writes_of (io_log (snd s)).
Proof.
  unfold write_sectors. destruct (devices (snd s) !! dd_uuid disk);
    intros [= _ <-]; now split.
Qed.

Lemma write_fat_value_run disk cluster value s bs s' :
  fat_bs (fst s) = Some bs ->
  write_fat_value disk cluster value s = Done (true, s') ->
  fst s' = fst s /\
  writes_of (io_log (snd s'))
  = EvWrite (dd_uuid disk) (fat_sector_of_cluster (fst s) bs cluster) 1
    :: writes_of (io_log (snd s)).
Proof.
  intros Hbs. unfold write_fat_value.
  rewrite (bind_run _ _ _ _ _ (deref_bs_run s bs Hbs)).
  intros Hrun. apply bind_done in Hrun. destruct Hrun as (g & s1 & [= <- <-] & Hrun).
  apply bind_done in Hrun. destruct Hrun as (r & s2 & Hread & Hrun).
  pose proof (keeps_read_sectors _ _ _ _ _ _ Hread) as G2.
  pose proof (only_reads_writes _ _ (reads_only_read_sectors _ _ _ _ _ _ Hread)) as W2.
  destruct r as [tbl|]; [|discriminate].
  apply bind_done in Hrun. destruct Hrun as (tbl' & s3 & Hset & Hrun).
  pose proof (keeps_lift _ _ _ _ Hset) as G3.
  pose proof (only_reads_writes _ _ (reads_only_lift _ _ _ _ Hset)) as W3.
  destruct (write_sectors_run _ _ _ _ _ _ _ Hrun) as [G4 W4].
  split; [congruence|]. rewrite W4, W3, W2. reflexivity.
Qed.

Lemma write_is_run disk partition s bs fi s' :
  fat_bs (fst s) = Some bs -> fat_is (fst s) = Some fi ->
  write_is disk partition s = Done (true, s') ->
  fst s' = fst s /\
  writes_of (io_log (snd s'))
  = EvWrite (dd_uuid disk) (u64 (p_start partition + bs_fs_information_sector bs)) 1
    :: writes_of (io_log (snd s)) /\
  sector_on_disk (snd s') (dd_uuid disk) (u64 (p_start partition + bs_fs_information_sector bs))
  = Some (resize 512 0 fi).
Proof.
  intros Hbs Hfi. unfold write_is.
  rewrite (bind_run _ _ _ _ _ (deref_bs_run s bs Hbs)).
  unfold bind, get_globals. rewrite Hfi. intros Hrun.
  destruct (write_sectors_run _ _ _ _ _ _ _ Hrun) as [G W].
  split; [exact G|]. split; [exact W|].
  revert Hrun. unfold write_sectors, sector_on_disk.
  destruct (devices (snd s) !! dd_uuid disk) as [dev|]; [|discriminate].
  change (Z.to_nat 1) with 1%nat. cbn [write_run].
  destruct (dev !! u64 (p_start partition + bs_fs_information_sector bs)); [|discriminate].
  intros [= <-]. cbn. rewrite lookup_insert_eq. cbn. now rewrite lookup_insert_eq.
Qed.

Lemma write_run_frame count : forall dev lba data l,
  ~ In l (run_lbas lba count) -> snd (write_run dev lba count data) !! l = dev !! l.
Proof.
  induction count as [|count IH]; intros dev lba data l Hout; cbn [write_run run_lbas] in *.
  - reflexivity.
  - destruct (dev !! lba); [|reflexivity].
    rewrite IH by (intros Hin; apply Hout; now right).
    apply lookup_insert_ne. intros ->. apply Hout. now left.
Qed.

Lemma write_sectors_frame disk lba count data s b s' l :
  write_sectors disk lba count data s = Done (b, s') ->
  ~ In l (run_lbas lba (Z.to_nat count)) ->
  sector_on_disk (snd s') (dd_uuid disk) l = sector_on_disk (snd s) (dd_uuid disk) l.
Proof.
  unfold write_sectors, sector_on_disk. intros Hrun Hout.
  destruct (devices (snd s) !! dd_uuid disk) as [dev|] eqn:Hdev;
    injection Hrun as _ <-; cbn [snd devices].
  - rewrite lookup_insert_eq. cbn. now apply write_run_frame.
  - now rewrite Hdev.
Qed.

Lemma lift_run {A} (o : outcome A) s a s' : lift o s = Done (a, s') -> s' = s.
Proof. unfold lift. destruct o; [|discriminate..]. now intros [= _ <-]. Qed.

(** After a successful [write_fat_value] the index was inside the table
    and the FAT sector on the disk holds the value in its entry. *)
Lemma write_fat_value_entry disk cluster value s bs s' :
  fat_bs (fst s) = Some bs ->
  write_fat_value disk cluster value s = Done (true, s') ->
  cluster mod 512 < 128 /\
  exists sector,
    sector_on_disk (snd s') (dd_uuid disk) (fat_sector_of_cluster (fst s) bs cluster)
    = Some (set_u32 (resize 512 0 sector) (4 * Z.to_nat (cluster mod 512)) value).
Proof.
  destruct s as [g w]. cbn [fst snd]. intros Hbs Hrun.
  destruct (devices w !! dd_uuid disk) as [dev|] eqn:Hdev.
  - destruct (dev !! fat_sector_of_cluster g bs cluster) as [sector|] eqn:Hsec.
    + destruct (Z.ltb_spec (cluster mod 512) 128) as [Hidx|Hidx].
      * split; [exact Hidx|]. exists sector.
        rewrite (write_fat_value_in_range _ _ _ _ _ _ _ _ Hbs Hdev Hsec Hidx) in Hrun.
        injection Hrun as <-. unfold sector_on_disk, world_after_fat_write. cbn [snd devices].
        rewrite lookup_insert_eq. cbn. now rewrite lookup_insert_eq.
      * exfalso. revert Hrun. unfold write_fat_value.
        rewrite (bind_run _ _ _ _ _ (deref_bs_run (g, w) bs Hbs)).
        unfold bind at 1, get_globals. cbn [fst].
        fold (fat_sector_of_cluster g bs cluster).
        rewrite (bind_run _ _ _ _ _ (read_sectors_one _ _ _ _ _ _ Hdev Hsec)).
        unfold fat_table_set. apply Z.ltb_ge in Hidx. rewrite Hidx. discriminate.
    + exfalso. revert Hrun. unfold write_fat_value.
      rewrite (bind_run _ _ _ _ _ (deref_bs_run (g, w) bs Hbs)).
      unfold bind at 1, get_globals. cbn [fst].
      fold (fat_sector_of_cluster g bs cluster).
      rewrite (bind_run _ _ _ _ _ (read_sectors_one_fail _ _ _ _ _ Hdev Hsec)).
      discriminate.
  - exfalso. revert Hrun. unfold write_fat_value.
    rewrite (bind_run _ _ _ _ _ (deref_bs_run (g, w) bs Hbs)).
    unfold bind, get_globals, read_sectors. cbn [fst snd]. rewrite Hdev. discriminate.
Qed.

(** An entry stored in the FAT sector on the disk reads back masked. *)
Lemma read_fat_value_written disk g w bs sector cluster value :
  fat_bs g = Some bs -> cluster mod 512 < 128 ->
  sector_on_disk w (dd_uuid disk) (fat_sector_of_cluster g bs cluster)
  = Some (set_u32 (resize 512 0 sector) (4 * Z.to_nat (cluster mod 512)) value) ->
  result_of (read_fat_value disk cluster (g, w)) = Done (Z.land value 0x0FFFFFFF).
Proof.
  intros Hbs Hidx. unfold sector_on_disk.
  destruct (devices w !! dd_uuid disk) as [dev|] eqn:Hdev; [|discriminate].
  cbn [mbind option_bind]. intros Hsec.
  pose proof (Z.mod_pos_bound cluster 512 ltac:(lia)) as Hmod.
  rewrite (read_fat_value_in_range _ _ _ _ _ _ _ Hbs Hdev Hsec Hidx).
  rewrite (resize_all_alt (set_u32 _ _ _)) by (now rewrite set_u32_length, length_resize).
  rewrite fld_u32_set_u32 by (rewrite length_resize; lia).
  now rewrite land_u32_mask.
Qed.

Lemma write_is_frame disk partition s bs b s' l :
  write_is disk partition s = Done (b, s') ->
  fat_bs (fst s) = Some bs ->
  l <> u64 (p_start partition + bs_fs_information_sector bs) ->
  sector_on_disk (snd s') (dd_uuid disk) l = sector_on_disk (snd s) (dd_uuid disk) l.
Proof.
  intros Hrun Hbs. revert Hrun. unfold write_is.
  rewrite (bind_run _ _ _ _ _ (deref_bs_run s bs Hbs)).
  unfold bind, get_globals. destruct (fat_is (fst s)); [|discriminate].
  intros Hrun Hl. apply (write_sectors_frame _ _ _ _ _ _ _ _ Hrun).
  change (Z.to_nat 1) with 1%nat. cbn [run_lbas In]. intros [H|[]]. congruence.
Qed.

(** What [touch] and [mkdir] have in common, up to the write of the
    FS-information sector: the run of either is taken apart into its
    steps, each failure branch is closed, and the facts about the globals
    and the write requests of the steps are left in the context. *)
Ltac creation_steps Hrun Hd Hp Hbs Hfi g w bs fi :=
  rewrite (bind_run _ _ _ _ _ (cache_disk_partition_hit _ _ g w Hd Hp)) in Hrun;
  assert (Hready : cache_ready g = true) by (unfold cache_ready; now rewrite Hbs, Hfi);
  rewrite Hready in Hrun; cbn [negb] in Hrun;
  apply bind_done in Hrun; destruct Hrun as ([found parent] & s1 & H1 & Hrun);
  pose proof (keeps_find_cluster_number _ _ _ _ _ _ _ H1) as G1;
  pose proof (only_reads_writes _ _ (reads_only_find_cluster_number _ _ _ _ _ _ _ H1)) as W1;
  cbn [fst snd] in Hrun;
  destruct found; cbn [negb] in Hrun; [|discriminate];
  apply bind_done in Hrun; destruct Hrun as (cluster & s2 & H2 & Hrun);
  pose proof (keeps_find_free_cluster _ _ _ _ H2) as G2;
  pose proof (only_reads_writes _ _ (reads_only_find_free_cluster _ _ _ _ H2)) as W2;
  destruct (cluster =? 0) eqn:Hcluster; [discriminate|];
  apply Z.eqb_neq in Hcluster;
  cbn [fst snd] in G1, W1;
  assert (Hbs2 : fat_bs (fst s2) = Some bs) by congruence;
  rewrite (bind_run _ _ _ _ _ (deref_bs_run s2 bs Hbs2)) in Hrun;
  rewrite (bind_run _ _ _ _ _ (cluster_lba_run s2 bs _ Hbs2)) in Hrun;
  apply bind_done in Hrun; destruct Hrun as (r & s3 & H3 & Hrun);
  pose proof (keeps_read_sectors _ _ _ _ _ _ H3) as G3;
  pose proof (only_reads_writes _ _ (reads_only_read_sectors _ _ _ _ _ _ H3)) as W3;
  destruct r as [data|]; [|discriminate];
  apply bind_done in Hrun; destruct Hrun as (directory_cluster2 & s4 & H4 & Hrun);
  pose proof (keeps_lift _ _ _ _ H4) as G4;
  pose proof (only_reads_writes _ _ (reads_only_lift _ _ _ _ H4)) as W4;
  assert (Hbs4 : fat_bs (fst s4) = Some bs) by congruence;
  rewrite (bind_run _ _ _ _ _ (cluster_lba_run s4 bs _ Hbs4)) in Hrun;
  apply bind_done in Hrun; destruct Hrun as (ok1 & s5 & H5 & Hrun);
  destruct (write_sectors_run _ _ _ _ _ _ _ H5) as [G5 W5];
  destruct ok1; [|discriminate]; cbn [negb] in Hrun;
  apply bind_done in Hrun; destruct Hrun as (ok2 & s6 & H6 & Hrun);
  destruct ok2; [|discriminate]; cbn [negb] in Hrun;
  assert (Hbs5 : fat_bs (fst s5) = Some bs) by congruence;
  assert (Hg5 : fst s5 = g) by congruence;
  destruct (write_fat_value_run _ _ _ _ _ _ Hbs5 H6) as [G6 W6];
  destruct (write_fat_value_entry _ _ _ _ _ _ Hbs5 H6) as [Hidx [sector D6]];
  rewrite Hg5 in W6, D6;
  assert (Hfi6 : fat_is (fst s6) = Some fi) by congruence;
  rewrite (bind_run _ _ _ _ _ (deref_is_run s6 fi Hfi6)) in Hrun;
  apply bind_done in Hrun; destruct Hrun as ([] & s7 & H7 & Hrun);
  injection H7 as <-;
  apply bind_done in Hrun; destruct Hrun as (ok3 & s8 & H8 & Hrun);
  assert (Hg6 : fst s6 = g) by congruence;
  destruct ok3; cbn [negb] in Hrun; [|discriminate];
  assert (Hbs6 : fat_bs (fst s6) = Some bs) by congruence;
  pose proof (fun l => write_is_frame _ _ _ _ _ _ l H8 Hbs6) as F8;
  eapply write_is_run in H8 as (G8 & W8 & D8); [|exact Hbs6|cbn; reflexivity];
  cbn [fst snd] in G8, W8, D8, F8.

(** A successful [touch] on a loaded cache.  The parent directory is the
    one [find_cluster_number] resolves the path to in the state of the
    call, and the cluster taken is the non-zero one [find_free_cluster]
    returns right after.  The cached count of free clusters is lowered by
    one and nothing else of the globals changes.  Exactly three writes
    are requested, in the order parent directory cluster, FAT sector of
    the cluster taken, FS-information sector.  Afterwards the
    FS-information sector on the disk is the cached one and, unless that
    sector is also the FAT sector written, the FAT entry of the cluster
    taken reads as the end-of-chain value 0x0FFFFFF8. *)
Theorem touch_bookkeeping pf fuel disk partition path name g w bs fi g' w' :
  cached_disk g = dd_uuid disk -> cached_partition g = p_uuid partition ->
  fat_bs g = Some bs -> fat_is g = Some fi ->
  touch pf fuel disk partition path name (g, w) = Done (true, (g', w')) ->
  let fsi_lba := u64 (p_start partition + bs_fs_information_sector bs) in
  g' = globals_after_creation g fi /\
  exists parent s1 cluster s2,
    find_cluster_number pf fuel disk path (g, w) = Done ((true, parent), s1) /\
    find_free_cluster disk s1 = Done (cluster, s2) /\
    cluster <> 0 /\
    writes_of (io_log w')
    = [EvWrite (dd_uuid disk) fsi_lba 1;
       EvWrite (dd_uuid disk) (fat_sector_of_cluster g bs cluster) 1;
       EvWrite (dd_uuid disk) (cluster_lba_of g bs parent) (bs_sectors_per_cluster bs)]
      ++ writes_of (io_log w) /\
    sector_on_disk w' (dd_uuid disk) fsi_lba
    = Some (resize 512 0 (set_is_free_clusters fi (is_free_clusters fi - 1))) /\
    (fat_sector_of_cluster g bs cluster <> fsi_lba ->
     result_of (read_fat_value disk cluster (g', w')) = Done 0x0FFFFFF8).
Proof.
  intros Hd Hp Hbs Hfi Hrun fsi_lba. unfold touch in Hrun.
  creation_steps Hrun Hd Hp Hbs Hfi g w bs fi.
  injection Hrun as ->. cbn [fst snd] in *.
  assert (Hg' : g' = globals_after_creation g fi).
  { rewrite G8. unfold globals_after_creation. rewrite Hg6. reflexivity. }
  split; [exact Hg'|].
  exists parent, s1, cluster, s2. split; [exact H1|]. split; [exact H2|].
  split; [exact Hcluster|]. split; [|split].
  - rewrite W8, W6, W5, W4, W3, W2, W1. cbn [app]. repeat f_equal; congruence.
  - exact D8.
  - intros Hapart.
    apply (read_fat_value_written disk g' w' bs sector cluster 0x0FFFFFF8);
      [rewrite Hg'; exact Hbs|exact Hidx|].
    rewrite Hg'.
    change (fat_sector_of_cluster (globals_after_creation g fi) bs cluster)
      with (fat_sector_of_cluster g bs cluster).
    rewrite (F8 _ Hapart). exact D6.
Qed.

(** [touch] of "docs" in the root directory of the small volume: the
    root is cluster 2, the cluster taken is 4, the count of free clusters
    on the disk goes from 5 to 4 and the entry of cluster 4 reads as end
    of chain. *)
Lemma touch_bookkeeping_witness :
  let s' := state_after (touch x86_64 4 disk0 part0 [] name_docs small_cached) small_cached in
  fst s' = globals_after_creation (fst small_cached) (mk_fsi 5) /\
  is_free_clusters <$> sector_on_disk (snd s') 7 1 = Some 4 /\
  result_of (read_fat_value disk0 4 (fst s', snd s')) = Done 0x0FFFFFF8.
Proof.
  intros s'.
  assert (Hrun : touch x86_64 4 disk0 part0 [] name_docs (fst small_cached, snd small_cached)
                 = Done (true, (fst s', snd s')))
    by (vm_compute; reflexivity).
  destruct (touch_bookkeeping x86_64 4 disk0 part0 [] name_docs (fst small_cached)
              (snd small_cached) small_boot (mk_fsi 5) _ _
              ltac:(vm_compute; reflexivity) ltac:(vm_compute; reflexivity)
              ltac:(vm_compute; reflexivity) ltac:(vm_compute; reflexivity) Hrun)
    as (Hg & parent & s1 & cluster & s2 & H1 & H2 & _ & _ & Hd & Hfat).
  assert (E1 : find_cluster_number x86_64 4 disk0 [] (fst small_cached, snd small_cached)
               = Done ((true, 2), (fst small_cached, snd small_cached)))
    by (vm_compute; reflexivity).
  rewrite E1 in H1. injection H1 as <- <-.
  assert (E2 : find_free_cluster disk0 (fst small_cached, snd small_cached)
               = Done (4, state_after (find_free_cluster disk0 small_cached) small_cached))
    by (vm_compute; reflexivity).
  rewrite E2 in H2. injection H2 as <- <-.
  split; [exact Hg|]. split.
  - change (dd_uuid disk0) with 7 in Hd.
    change (u64 (p_start part0 + bs_fs_information_sector small_boot)) with 1 in Hd.
    rewrite Hd. vm_compute. reflexivity.
  - apply Hfat. vm_compute. discriminate.
Defined.

(** A successful [mkdir] on a loaded cache.  The parent directory is the
    one [find_cluster_number] resolves the path to in the state of the
    call, and the cluster taken is the non-zero one [find_free_cluster]
    returns right after.  The cached count of free clusters is lowered by
    one and nothing else of the globals changes.  Exactly four writes are
    requested, in the order parent directory cluster, FAT sector of the
    cluster taken, FS-information sector, and the sectors of the cluster
    taken.  Where that last write does not reach them, the
    FS-information sector on the disk is the cached one and the FAT entry
    of the cluster taken reads as the end-of-chain value 0x0FFFFFF8. *)
Theorem mkdir_bookkeeping pf fuel disk partition path name g w bs fi g' w' :
  cached_disk g = dd_uuid disk -> cached_partition g = p_uuid partition ->
  fat_bs g = Some bs -> fat_is g = Some fi ->
  mkdir pf fuel disk partition path name (g, w) = Done (true, (g', w')) ->
  let fsi_lba := u64 (p_start partition + bs_fs_information_sector bs) in
  g' = globals_after_creation g fi /\
  exists parent s1 cluster s2,
    find_cluster_number pf fuel disk path (g, w) = Done ((true, parent), s1) /\
    find_free_cluster disk s1 = Done (cluster, s2) /\
    cluster <> 0 /\
    let new_lbas :=
      run_lbas (cluster_lba_of g bs cluster) (Z.to_nat (bs_sectors_per_cluster bs)) in
    writes_of (io_log w')
    = [EvWrite (dd_uuid disk) (cluster_lba_of g bs cluster) (bs_sectors_per_cluster bs);
       EvWrite (dd_uuid disk) fsi_lba 1;
       EvWrite (dd_uuid disk) (fat_sector_of_cluster g bs cluster) 1;
       EvWrite (dd_uuid disk) (cluster_lba_of g bs parent) (bs_sectors_per_cluster bs)]
      ++ writes_of (io_log w) /\
    (~ In fsi_lba new_lbas ->
     sector_on_disk w' (dd_uuid disk) fsi_lba
     = Some (resize 512 0 (set_is_free_clusters fi (is_free_clusters fi - 1)))) /\
    (fat_sector_of_cluster g bs cluster <> fsi_lba ->
     ~ In (fat_sector_of_cluster g bs cluster) new_lbas ->
     result_of (read_fat_value disk cluster (g', w')) = Done 0x0FFFFFF8).
Proof.
  intros Hd Hp Hbs Hfi Hrun fsi_lba. unfold mkdir in Hrun.
  creation_steps Hrun Hd Hp Hbs Hfi g w bs fi.
  apply bind_done in Hrun. destruct Hrun as (a1 & s9 & H9 & Hrun).
  apply lift_run in H9. subst s9.
  apply bind_done in Hrun. destruct Hrun as (a2 & s10 & H10 & Hrun).
  apply lift_run in H10. subst s10.
  assert (Hg8 : fst s8 = globals_after_creation g fi).
  { rewrite G8. unfold globals_after_creation. rewrite Hg6. reflexivity. }
  assert (Hbs8 : fat_bs (fst s8) = Some bs) by (rewrite Hg8; exact Hbs).
  rewrite (bind_run _ _ _ _ _ (cluster_lba_run s8 bs _ Hbs8)) in Hrun.
  destruct (write_sectors_run _ _ _ _ _ _ _ Hrun) as [G11 W11].
  pose proof (fun l => write_sectors_frame _ _ _ _ _ _ _ l Hrun) as F11.
  rewrite Hg8 in W11, F11.
  change (cluster_lba_of (globals_after_creation g fi) bs cluster)
    with (cluster_lba_of g bs cluster) in W11, F11.
  cbn [fst snd] in *.
  assert (Hg' : g' = globals_after_creation g fi) by congruence.
  split; [exact Hg'|].
  exists parent, s1, cluster, s2. split; [exact H1|]. split; [exact H2|].
  split; [exact Hcluster|]. cbv zeta. split; [|split].
  - rewrite W11, W8, W6, W5, W4, W3, W2, W1. cbn [app]. repeat f_equal; congruence.
  - intros Hout. rewrite (F11 _ Hout). exact D8.
  - intros Hapart Hout.
    apply (read_fat_value_written disk g' w' bs sector cluster 0x0FFFFFF8);
      [rewrite Hg'; exact Hbs|exact Hidx|].
    rewrite Hg'.
    change (fat_sector_of_cluster (globals_after_creation g fi) bs cluster)
      with (fat_sector_of_cluster g bs cluster).
    rewrite (F11 _ Hout), (F8 _ Hapart). exact D6.
Qed.

(** [mkdir] of "docs" in the root directory of the small volume: cluster
    4 is taken, its FAT entry reads as end of chain, and the count of free
    clusters on the disk goes from 5 to 4. *)
Lemma mkdir_bookkeeping_witness :
  let s' := state_after (mkdir x86_64 4 disk0 part0 [] name_docs small_cached) small_cached in
  fst s' = globals_after_creation (fst small_cached) (mk_fsi 5) /\
  writes_of (io_log (snd s'))
  = [EvWrite 7 5 1; EvWrite 7 1 1; EvWrite 7 2 1; EvWrite 7 3 1]
    ++ writes_of (io_log (snd small_cached)) /\
  is_free_clusters <$> sector_on_disk (snd s') 7 1 = Some 4 /\
  result_of (read_fat_value disk0 4 (fst s', snd s')) = Done 0x0FFFFFF8.
Proof.
  intros s'.
  assert (Hrun : mkdir x86_64 4 disk0 part0 [] name_docs (fst small_cached, snd small_cached)
                 = Done (true, (fst s', snd s')))
    by (vm_compute; reflexivity).
  destruct (mkdir_bookkeeping x86_64 4 disk0 part0 [] name_docs (fst small_cached)
              (snd small_cached) small_boot (mk_fsi 5) _ _
              ltac:(vm_compute; reflexivity) ltac:(vm_compute; reflexivity)
              ltac:(vm_compute; reflexivity) ltac:(vm_compute; reflexivity) Hrun)
    as (Hg & parent & s1 & cluster & s2 & H1 & H2 & _ & Hw & Hd & Hfat).
  assert (E1 : find_cluster_number x86_64 4 disk0 [] (fst small_cached, snd small_cached)
               = Done ((true, 2), (fst small_cached, snd small_cached)))
    by (vm_compute; reflexivity).
  rewrite E1 in H1. injection H1 as <- <-.
  assert (E2 : find_free_cluster disk0 (fst small_cached, snd small_cached)
               = Done (4, state_after (find_free_cluster disk0 small_cached) small_cached))
    by (vm_compute; reflexivity).
  rewrite E2 in H2. injection H2 as <- <-.
  split; [exact Hg|]. split; [exact Hw|]. split.
  - change (dd_uuid disk0) with 7 in Hd.
    change (u64 (p_start part0 + bs_fs_information_sector small_boot)) with 1 in Hd.
    rewrite Hd; [vm_compute; reflexivity|].
    vm_compute. intros [H|[]]. discriminate H.
  - apply Hfat; [vm_compute; discriminate|].
    vm_compute. intros [H|[]]. discriminate H.
Defined.

(** ** The content [read_file] returns *)

Lemma copy_cluster_count cluster : forall file_size read content read' content',
  copy_cluster cluster file_size read content = (read', content') ->
  read = Z.of_nat (length content) ->
  read' = Z.of_nat (length content') /\ read' <= Z.max file_size read /\
  content `prefix_of` content'.
Proof.
  induction cluster as [|c rest IH]; intros file_size read content read' content';
    cbn [copy_cluster].
  - intros [= <- <-] Hread. split; [exact Hread|]. split; [lia|reflexivity].
  - destruct (read <? file_size) eqn:Hlt.
    + intros Hrec Hread. apply Z.ltb_lt in Hlt.
      destruct (IH _ _ _ _ _ Hrec) as (H1 & H2 & H3);
        [rewrite length_app; cbn [length]; lia|].
      split; [exact H1|]. split; [lia|].
      etransitivity; [|exact H3]. now apply prefix_app_r.
    + intros [= <- <-] Hread. split; [exact Hread|]. split; [lia|reflexivity].
Qed.

Lemma read_file_loop_count disk file_size fuel : forall cluster_number read content s out s',
  read_file_loop fuel disk file_size cluster_number read content s = Done (out, s') ->
  read = Z.of_nat (length content) ->
  Z.of_nat (length out) <= Z.max file_size read /\ content `prefix_of` out.
Proof.
  induction fuel as [|fuel IH]; intros cluster_number read content s out s';
    cbn [read_file_loop].
  - destruct (read <? file_size); [discriminate|].
    intros [= <- <-] Hread. split; [lia|reflexivity].
  - destruct (read <? file_size) eqn:Hlt;
      [|intros [= <- <-] Hread; split; [lia|reflexivity]].
    apply Z.ltb_lt in Hlt. intros Hrun Hread.
    apply bind_done in Hrun. destruct Hrun as (bs & s1 & _ & Hrun).
    apply bind_done in Hrun. destruct Hrun as (lba & s2 & _ & Hrun).
    apply bind_done in Hrun. destruct Hrun as (r & s3 & _ & Hrun).
    destruct r as [cluster|]; [|injection Hrun as <- <-; split; [lia|reflexivity]].
    destruct (copy_cluster cluster file_size read content) as [read' content'] eqn:Hcopy.
    destruct (copy_cluster_count _ _ _ _ _ _ Hcopy Hread) as (H1 & H2 & H3).
    destruct (read' <? file_size) eqn:Hmore;
      [|injection Hrun as <- <-; split; [lia|exact H3]].
    apply bind_done in Hrun. destruct Hrun as (next & s4 & _ & Hrun).
    destruct (next =? 0); [injection Hrun as <- <-; split; [lia|exact H3]|].
    destruct (next =? 0x0FFFFFF7); [injection Hrun as <- <-; split; [lia|exact H3]|].
    destruct (IH _ _ _ _ _ _ Hrun H1) as [Hout Hpre].
    split; [lia|]. etransitivity; [exact H3|exact Hpre].
Qed.

(** [read_file] never returns more bytes than the size recorded for the
    file in the listing of this very run: the content is empty, or the
    load succeeded, the listing made in the state the load left holds a
    first record under that name, of non-zero size, the content is what
    the cluster loop returned for that size and starting cluster in the
    state the listing left, and it is no longer than that size. *)
Theorem read_file_within_size pf fuel disk partition path name s out s' :
  read_file pf fuel disk partition path name s = Done (out, s') ->
  out = [] \/
  exists s1 all_files s2 f,
    cache_disk_partition disk partition s = Done (true, s1) /\
    files_path pf fuel disk path s1 = Done (all_files, s2) /\
    find (fun f => bytes_eqb (file_name f) name) all_files = Some f /\
    size f <> 0 /\
    read_file_loop fuel disk (size f) (u32 (location f)) 0 [] s2 = Done (out, s') /\
    Z.of_nat (length out) <= size f.
Proof.
  unfold read_file. intros Hrun.
  apply bind_done in Hrun. destruct Hrun as (ok & s1 & Hcache & Hrun).
  destruct ok; cbn [negb] in Hrun; [|injection Hrun as <- <-; now left].
  apply bind_done in Hrun. destruct Hrun as (all_files & s2 & Hfiles & Hrun).
  destruct (find (fun f => bytes_eqb (file_name f) name) all_files) as [f|] eqn:Hfind;
    [|injection Hrun as <- <-; now left].
  destruct (size f =? 0) eqn:Hsize; [injection Hrun as <- <-; now left|].
  apply Z.eqb_neq in Hsize.
  destruct (read_file_loop_count _ _ _ _ _ _ _ _ _ Hrun eq_refl) as [Hout _].
  destruct (decide (out = [])) as [->|Hne]; [now left|]. right.
  exists s1, all_files, s2, f. split; [exact Hcache|]. split; [exact Hfiles|].
  split; [exact Hfind|]. split; [exact Hsize|]. split; [exact Hrun|].
  destruct out; [congruence|]. cbn [length] in *. lia.
Qed.

Lemma read_file_within_size_witness :
  exists out s',
    read_file x86_64 2 disk0 part0 [] name_DOCS small_state = Done (out, s') /\
    (out = [] \/
     exists s1 all_files s2 f,
       cache_disk_partition disk0 part0 small_state = Done (true, s1) /\
       files_path x86_64 2 disk0 [] s1 = Done (all_files, s2) /\
       find (fun f => bytes_eqb (file_name f) name_DOCS) all_files = Some f /\
       size f <> 0 /\
       read_file_loop 2 disk0 (size f) (u32 (location f)) 0 [] s2 = Done (out, s') /\
       Z.of_nat (length out) <= size f).
Proof.
  assert (Hrun : read_file x86_64 2 disk0 part0 [] name_DOCS small_state
                 = Done (docs_cluster,
                         state_after (read_file x86_64 2 disk0 part0 [] name_DOCS small_state)
                           small_state))
    by (vm_compute; reflexivity).
  eexists _, _. split; [exact Hrun|].
  exact (read_file_within_size x86_64 2 disk0 part0 [] name_DOCS small_state _ _ Hrun).
Defined.

(** ** Path resolution *)

Lemma bytes_eqb_eq a : forall b, bytes_eqb a b = true -> a = b.
Proof.
  induction a as [|x a IH]; intros [|y b]; cbn; try discriminate; [reflexivity|].
  intros H. apply andb_true_iff in H. destruct H as [Hxy Hab].
  apply Z.eqb_eq in Hxy. now rewrite Hxy, (IH b Hab).
Qed.

Lemma find_cluster_number_loop_walked pf fuel disk path : forall cluster_number s c s',
  find_cluster_number_loop pf fuel disk cluster_number path s = Done ((true, c), s') ->
  walked pf fuel disk cluster_number path s c s'.
Proof.
  induction path as [|p rest IH]; intros cluster_number s c s'; cbn [find_cluster_number_loop].
  - discriminate.
  - intros Hrun. apply bind_done in Hrun. destruct Hrun as (entries & s1 & Hfiles & Hrun).
    destruct (find _ entries) as [f|] eqn:Hfind; [|discriminate].
    destruct (find_some _ _ Hfind) as [Hin Hmatch].
    apply andb_true_iff in Hmatch. destruct Hmatch as [Hkind Hname].
    apply bytes_eqb_eq in Hname.
    destruct rest as [|q rest].
    + injection Hrun as <- <-. now apply (walked_last _ _ _ _ _ _ entries).
    + cbn [orb] in Hkind.
      apply (walked_step _ _ _ _ _ _ _ _ entries s1 f); try assumption.
      now apply IH.
Qed.

(** [find_cluster_number] reports success only with a cluster it has
    reached from the state it was called in: for the empty path the root
    directory cluster of the cached boot sector, without any request;
    otherwise the cluster reached by walking the path from the root
    directory, each component found in the listing of the directory
    reached so far, every component but the last being a directory. *)
Theorem find_cluster_number_resolves pf fuel disk path s c s' :
  find_cluster_number pf fuel disk path s = Done ((true, c), s') ->
  exists bs, fat_bs (fst s) = Some bs /\
    match path with
    | [] => c = bs_root_directory_cluster_start bs /\ s' = s
    | _ :: _ => walked pf fuel disk (bs_root_directory_cluster_start bs) path s c s'
    end.
Proof.
  unfold find_cluster_number. intros Hrun.
  apply bind_done in Hrun. destruct Hrun as (bs & s1 & Hbs & Hrun).
  revert Hbs. unfold deref_bs, bind, get_globals.
  destruct (fat_bs (fst s)) as [bs'|]; [|discriminate]. intros [= -> <-].
  exists bs. split; [reflexivity|].
  destruct path as [|p rest].
  - injection Hrun as <- <-. now split.
  - now apply find_cluster_number_loop_walked.
Qed.

Lemma find_cluster_number_resolves_witness :
  exists bs, fat_bs (fst small_cached) = Some bs /\
    walked x86_64 2 disk0 (bs_root_directory_cluster_start bs) [name_DOCS] small_cached 3
      (state_after (find_cluster_number x86_64 2 disk0 [name_DOCS] small_cached) small_cached).
Proof.
  assert (Hrun : find_cluster_number x86_64 2 disk0 [name_DOCS] small_cached
                 = Done ((true, 3),
                         state_after (find_cluster_number x86_64 2 disk0 [name_DOCS] small_cached)
                           small_cached))
    by (vm_compute; reflexivity).
  exact (find_cluster_number_resolves x86_64 2 disk0 [name_DOCS] small_cached 3 _ Hrun).
Defined.
